(** * Knowledge graph store and GitHub event correlator

    A shallow embedding of [automation/graph/knowledge_graph.py] and
    [automation/graph/event_handler.py].

    The SQLite database behind [KnowledgeGraph] is modelled by its two
    tables, each a list of rows in rowid order.  Python code that mutates the
    database, prints and raises is written in a state-and-exception monad
    over a [world] holding the tables, the wall clock read by
    [CURRENT_TIMESTAMP] and the lines printed so far. *)

From Stdlib Require Import ZArith String List Ascii Lia Permutation.
From stdpp Require Import base gmap sets list strings pretty sorting.

Set Warnings "-register-all".

Open Scope string_scope.
Open Scope Z_scope.

(** ** Python values

    The values that reach the graph come from [json.load] (event payloads)
    or are built by the handlers: [None], booleans, integers, strings, lists
    and dictionaries with string keys (floating-point numbers are left
    out).  A nested dictionary keeps its items in insertion order, keys
    distinct. *)

Inductive pyval : Type :=
| PNone
| PBool (b : bool)
| PInt (n : Z)
| PStr (s : string)
| PList (items : list pyval)
| PDict (items : list (string * pyval)).

(** Keyword arguments collected by [**properties], the JSON document of a
    [properties] column, and an event payload ([Dict]) are all dictionaries
    keyed by strings.  [json.loads (json.dumps d)] gives back [d] for the
    values above, so a [properties] column holds the mapping itself. *)
Abbreviation pydict := (gmap string pyval).

(** ** Exceptions

    [Unmodelled] is not a Python exception: it marks a run that leaves the
    fragment of Python modelled here (formatting a list or a dictionary in
    an f-string, or a traversal that outlives its fuel, which is shown
    never to happen), about which nothing is claimed. *)

Inductive exn : Type :=
| ValueError (msg : string)
| KeyError (key : string)
| TypeError
| IndexError
| Unmodelled.

Inductive outcome (A : Type) : Type :=
| Returned (a : A)
| Raised (e : exn).
Arguments Returned {A} a.
Arguments Raised {A} e.

(** ** The database and the world around it *)

(** A row of table [nodes]: [id TEXT PRIMARY KEY], [type], [properties],
    [created_at], [updated_at]. *)
Record node_row : Type := NodeRow {
  n_id : string;
  n_type : string;
  n_properties : pydict;
  n_created_at : Z;
  n_updated_at : Z
}.

(** A row of table [edges]: [id INTEGER PRIMARY KEY AUTOINCREMENT],
    [from_id], [to_id], [relationship], [properties], [created_at], with
    [UNIQUE(from_id, to_id, relationship)].  Foreign keys are declared but
    SQLite does not enforce them unless asked to, and the code never asks. *)
Record edge_row : Type := EdgeRow {
  e_id : Z;
  e_from_id : string;
  e_to_id : string;
  e_relationship : string;
  e_properties : pydict;
  e_created_at : Z
}.

Record world : Type := World {
  nodes : list node_row;
  edges : list edge_row;
  now : Z;
  stdout : list string
}.

Definition empty_world (t : Z) : world := World [] [] t [].

(** The clock moves between calls, outside the program's control. *)
Definition at_time (t : Z) (w : world) : world :=
  World (nodes w) (edges w) t (stdout w).

(** ** The monad of Python statements *)

Definition M (A : Type) : Type := world → world * outcome A.

Definition ret {A} (a : A) : M A := λ w, (w, Returned a).

Definition raise {A} (e : exn) : M A := λ w, (w, Raised e).

Definition bind {A B} (c : M A) (k : A → M B) : M B :=
  λ w, match c w with
       | (w', Returned a) => k a w'
       | (w', Raised e) => (w', Raised e)
       end.

Declare Scope py_scope.
Delimit Scope py_scope with py.
Bind Scope py_scope with M.
Notation "'let*' x := c1 'in' c2" := (bind c1 (λ x, c2))
  (at level 10, x name, c1 at level 100, c2 at level 200) : py_scope.
Notation "c1 ;; c2" := (bind c1 (λ _, c2))
  (at level 100, c2 at level 200, right associativity) : py_scope.
Open Scope py_scope.

(** [for x in xs: body] *)
Fixpoint for_each {A} (xs : list A) (body : A → M unit) : M unit :=
  match xs with
  | [] => ret tt
  | x :: xs' => body x ;; for_each xs' body
  end.

(** [print(line)] *)
Definition write_line (line : string) (w : world) : world :=
  World (nodes w) (edges w) (now w) (stdout w ++ [line]).

Definition print (line : string) : M unit :=
  λ w, (write_line line w, Returned tt).

(** A statement run by [conn.execute] followed by [conn.commit]. *)
Definition execute (stmt : world → world) : M unit :=
  λ w, (stmt w, Returned tt).

(** A [SELECT]. *)
Definition query {A} (q : world → A) : M A :=
  λ w, (w, Returned (q w)).

(** ** Calls that unpack a mapping

    A method [def f(self, a, b, **properties)] called as
    [obj.f(a, b, **mapping)]: every key of [mapping] is passed as a keyword
    argument.  A key that names a parameter the call has bound already,
    [self] or a positional one, raises [TypeError] ("got multiple values
    for argument") before the body runs; otherwise the body sees the whole
    mapping as [properties]. *)
Definition clashes (params : list string) (mapping : pydict) : Prop :=
  Exists (λ param, is_Some (mapping !! param)) params.

#[global] Instance clashes_dec params mapping :
  Decision (clashes params mapping).
Proof. unfold clashes. apply _. Defined.


(** ** [KnowledgeGraph] *)

Module KnowledgeGraph.

(** [INSERT OR REPLACE INTO nodes (id, type, properties, updated_at)
    VALUES (?, ?, ?, CURRENT_TIMESTAMP)]: the row that conflicts on the
    primary key is deleted, the new row gets a fresh rowid, and [created_at]
    takes its default, [CURRENT_TIMESTAMP]. *)
Definition insert_or_replace_node (id type : string) (properties : pydict)
    (w : world) : world :=
  World (filter (λ r, n_id r ≠ id) (nodes w)
           ++ [NodeRow id type properties (now w) (now w)])
        (edges w) (now w) (stdout w).

(** [add_node] once its parameters are bound: [properties] is the
    dictionary Python has collected for [**properties].  The handlers call
    it with their keywords written out, none of which names a parameter;
    a call that unpacks a mapping is [call_add_node]. *)
Definition add_node (node_type node_id : string) (properties : pydict)
    : M string :=
  let full_id := node_type +:+ ":" +:+ node_id in
  execute (insert_or_replace_node full_id node_type properties) ;;
  ret full_id.



(** [SELECT * FROM nodes WHERE id = ?] and [fetchone]. *)
Definition select_node (node_id : string) (w : world) : option node_row :=
  head (filter (λ r, n_id r = node_id) (nodes w)).

Definition get_node (node_id : string) : M (option node_row) :=
  query (select_node node_id).

(** [UPDATE nodes SET properties = ?, updated_at = CURRENT_TIMESTAMP
    WHERE id = ?] *)
Definition update_node_row (id : string) (properties : pydict) (w : world)
    : world :=
  World ((λ r, if decide (n_id r = id)
               then NodeRow (n_id r) (n_type r) properties
                            (n_created_at r) (now w)
               else r) <$> nodes w)
        (edges w) (now w) (stdout w).

(** [update_node] once its parameters are bound (a call that unpacks a
    mapping is [call_update_node]).  [current_props.update(properties)] is
    the union that prefers [properties]. *)
Definition update_node (node_id : string) (properties : pydict) : M unit :=
  let* node := get_node node_id in
  match node with
  | None => raise (ValueError ("Node not found: " +:+ node_id))
  | Some node =>
      let current_props := properties ∪ n_properties node in
      execute (update_node_row node_id current_props)
  end.



Definition same_edge (from_id to_id relationship : string) (e : edge_row)
    : Prop :=
  e_from_id e = from_id ∧ e_to_id e = to_id ∧ e_relationship e = relationship.

#[global] Instance same_edge_dec from_id to_id relationship e :
  Decision (same_edge from_id to_id relationship e).
Proof. unfold same_edge. apply _. Defined.

(** [AUTOINCREMENT]: one more than the largest id the table ever held; no
    row is ever deleted from [edges]. *)
Definition next_edge_id (rows : list edge_row) : Z :=
  1 + foldr Z.max 0 (e_id <$> rows).

(** [INSERT OR IGNORE INTO edges (from_id, to_id, relationship, properties)
    VALUES (?, ?, ?, ?)] *)
Definition insert_or_ignore_edge (from_id to_id relationship : string)
    (properties : pydict) (w : world) : world :=
  if decide (Exists (same_edge from_id to_id relationship) (edges w))
  then w
  else World (nodes w)
             (edges w ++ [EdgeRow (next_edge_id (edges w)) from_id to_id
                                  relationship properties (now w)])
             (now w) (stdout w).

Definition add_edge (from_id to_id relationship : string)
    (properties : pydict) : M unit :=
  execute (insert_or_ignore_edge from_id to_id relationship properties).

(** What [find_related] keeps of a node: [id], [type], [properties]. *)
Record related_node : Type := RelatedNode {
  r_id : string;
  r_type : string;
  r_properties : pydict
}.

(** [if relationship:] holds for a string that is not empty. *)
Definition truthy (relationship : option string) : bool :=
  match relationship with
  | None => false
  | Some r => bool_decide (r ≠ "")
  end.

(** The [WHERE] clause of [find_related]. *)
Definition edge_selected (node_id : string) (relationship : option string)
    (e : edge_row) : Prop :=
  (e_from_id e = node_id ∨ e_to_id e = node_id)
  ∧ (truthy relationship = true → Some (e_relationship e) = relationship).

#[global] Instance edge_selected_dec node_id relationship e :
  Decision (edge_selected node_id relationship e).
Proof. unfold edge_selected. apply _. Defined.

(** The [ON] clause: [e.to_id = n.id OR e.from_id = n.id]. *)
Definition edge_joins (e : edge_row) (n : node_row) : Prop :=
  e_to_id e = n_id n ∨ e_from_id e = n_id n.

#[global] Instance edge_joins_dec e n : Decision (edge_joins e n).
Proof. unfold edge_joins. apply _. Defined.

(** [SELECT n.* FROM nodes n JOIN edges e ON ... WHERE ...]: one result row
    for each pair of an edge and a node that passes both clauses.  SQL
    leaves the order of the rows open; here the edges are walked in rowid
    order and, for each, the nodes in rowid order. *)
Definition select_related (node_id : string) (relationship : option string)
    (w : world) : list related_node :=
  e ← filter (edge_selected node_id relationship) (edges w);
  n ← filter (edge_joins e) (nodes w);
  [RelatedNode (n_id n) (n_type n) (n_properties n)].

Definition find_related (node_id : string) (relationship : option string)
    : M (list related_node) :=
  query (select_related node_id relationship).

(** [SELECT to_id FROM edges WHERE from_id = ?] *)
Definition select_to_ids (current_id : string) (rows : list edge_row)
    : list string :=
  e_to_id <$> filter (λ e, e_from_id e = current_id) rows.

(** The [while to_visit:] loop of [find_dependents]; every iteration pops
    the head of [to_visit] and costs one unit of [fuel]. *)
Fixpoint find_dependents_loop (rows : list edge_row) (max_depth : Z)
    (fuel : nat) (visited : gset string) (to_visit : list (string * Z))
    (dependents : list string) : option (list string) :=
  match fuel with
  | O => None
  | S fuel' =>
      match to_visit with
      | [] => Some dependents
      | (current_id, depth) :: to_visit' =>
          if bool_decide (current_id ∈ visited) || (max_depth <=? depth)
          then find_dependents_loop rows max_depth fuel' visited to_visit'
                 dependents
          else
            let visited' := {[current_id]} ∪ visited in
            let found :=
              filter (λ dependent_id, dependent_id ∉ visited')
                     (select_to_ids current_id rows) in
            find_dependents_loop rows max_depth fuel' visited'
              (to_visit' ++ ((λ dependent_id, (dependent_id, depth + 1))
                               <$> found))
              (dependents ++ found)
      end
  end.

(** Fuel that is always enough: see [find_dependents_loop_fuel]. *)
Definition find_dependents_fuel (rows : list edge_row) : nat :=
  S (S (length rows)).

Definition select_dependents (node_id : string) (max_depth : Z) (w : world)
    : option (list string) :=
  find_dependents_loop (edges w) max_depth (find_dependents_fuel (edges w))
    ∅ [(node_id, 0)] [].

Definition find_dependents (node_id : string) (max_depth : Z)
    : M (list string) :=
  let* found := query (select_dependents node_id max_depth) in
  match found with
  | Some dependents => ret dependents
  | None => raise Unmodelled
  end.

(** What [query_by_type] keeps of a node: [id], [type], [properties],
    [created_at]. *)
Record listed_node : Type := ListedNode {
  l_id : string;
  l_type : string;
  l_properties : pydict;
  l_created_at : Z
}.

Definition listed_of (n : node_row) : listed_node :=
  ListedNode (n_id n) (n_type n) (n_properties n) (n_created_at n).

(** [ORDER BY created_at DESC] *)
Definition newer_first (a b : node_row) : Prop :=
  n_created_at b ≤ n_created_at a.

#[global] Instance newer_first_dec a b : Decision (newer_first a b).
Proof. unfold newer_first. apply _. Defined.

(** [SELECT * FROM nodes WHERE type = ? ORDER BY created_at DESC].  SQL
    leaves the order of rows with the same [created_at] open; here they
    come as the sort leaves them. *)
Definition select_by_type (node_type : string) (w : world)
    : list listed_node :=
  listed_of
    <$> merge_sort newer_first (filter (λ r, n_type r = node_type) (nodes w)).

Definition query_by_type (node_type : string) : M (list listed_node) :=
  query (select_by_type node_type).

(** The dictionary [get_stats] returns. *)
Record stats : Type := Stats {
  total_nodes : nat;
  total_edges : nat;
  nodes_by_type : gmap string nat
}.

(** [SELECT type, COUNT( * ) as count FROM nodes GROUP BY type], read into
    [type_counts]. *)
Definition count_by_type (rows : list node_row) : gmap string nat :=
  foldr (λ r type_counts,
           <[n_type r := S (default 0%nat (type_counts !! n_type r))]>
             type_counts)
        ∅ rows.

Definition select_stats (w : world) : stats :=
  Stats (length (nodes w)) (length (edges w)) (count_by_type (nodes w)).

Definition get_stats : M stats := query select_stats.

End KnowledgeGraph.

(** ** Python strings and containers

    A string is the sequence of the bytes of its UTF-8 encoding, so a code
    point below 128 is one character and any other is several characters
    of 128 and above.  [lower] and the classes [is_word], [is_space] and
    [is_digit] are [str.lower], [\w], [\s] and [\d] on the code points
    below 128; they leave the characters of 128 and above alone and out of
    every class, which is not what Python does with the code points those
    stand for (it lowers some and counts some as letters, digits or white
    space).  On a text that satisfies [is_ascii] throughout they are
    Python's. *)

(** A code point below 128. *)
Definition is_ascii (c : ascii) : bool := (N_of_ascii c <? 128)%N.

Definition is_upper (c : ascii) : bool :=
  let n := N_of_ascii c in ((65 <=? n) && (n <=? 90))%N.

Definition is_lower (c : ascii) : bool :=
  let n := N_of_ascii c in ((97 <=? n) && (n <=? 122))%N.

Definition is_digit (c : ascii) : bool :=
  let n := N_of_ascii c in ((48 <=? n) && (n <=? 57))%N.

(** [\s]: tab, line feed, vertical tab, form feed, carriage return, the
    four separators 28..31 and the space. *)
Definition is_space (c : ascii) : bool :=
  let n := N_of_ascii c in
  (((9 <=? n) && (n <=? 13)) || ((28 <=? n) && (n <=? 32)))%N.

(** [\w] *)
Definition is_word (c : ascii) : bool :=
  is_upper c || is_lower c || is_digit c || bool_decide (c = "_"%char).

Definition lower_char (c : ascii) : ascii :=
  if is_upper c then ascii_of_N (N_of_ascii c + 32) else c.

(** [s.lower()] *)
Fixpoint lower (s : string) : string :=
  match s with
  | EmptyString => EmptyString
  | String c s' => String (lower_char c) (lower s')
  end.

(** [needle in hay] *)
Fixpoint contains (needle hay : string) : bool :=
  String.prefix needle hay
  || match hay with
     | EmptyString => false
     | String _ hay' => contains needle hay'
     end.

(** [s.startswith(p)] and what follows the prefix. *)
Fixpoint strip_prefix (p s : string) : option string :=
  match p, s with
  | EmptyString, _ => Some s
  | String a p', String b s' =>
      if bool_decide (a = b) then strip_prefix p' s' else None
  | String _ _, EmptyString => None
  end.

(** The longest prefix of [s] whose characters all satisfy [cls], and the
    rest. *)
Fixpoint span (cls : ascii → bool) (s : string) : string * string :=
  match s with
  | EmptyString => (EmptyString, EmptyString)
  | String c s' =>
      if cls c
      then let '(run, rest) := span cls s' in (String c run, rest)
      else (EmptyString, s)
  end.

(** [s.split(sep)] for a one-character separator. *)
Fixpoint split (sep : ascii) (s : string) : list string :=
  match s with
  | EmptyString => [EmptyString]
  | String c s' =>
      if bool_decide (c = sep) then EmptyString :: split sep s'
      else match split sep s' with
           | piece :: pieces => String c piece :: pieces
           | [] => [String c EmptyString]
           end
  end.

(** [xs[i]] on a list *)
Definition list_item {A} (xs : list A) (i : nat) : M A :=
  match xs !! i with
  | Some x => ret x
  | None => raise IndexError
  end.

(** Keyword arguments [k1=v1, k2=v2, ...] and dictionary displays. *)
Definition kwargs (items : list (string * pyval)) : pydict :=
  list_to_map items.

(** [d[key]] on a dictionary *)
Definition subscript (d : pydict) (key : string) : M pyval :=
  match d !! key with
  | Some v => ret v
  | None => raise (KeyError key)
  end.

(** [d.get(key, default)] *)
Definition dict_get (d : pydict) (key : string) (default : pyval) : pyval :=
  match d !! key with
  | Some v => v
  | None => default
  end.

Fixpoint assoc (key : string) (items : list (string * pyval))
    : option pyval :=
  match items with
  | [] => None
  | (k, v) :: items' => if bool_decide (k = key) then Some v
                        else assoc key items'
  end.

(** [v[key]] with a string key on any value: only a dictionary can be
    subscripted by a string. *)
Definition py_getitem (v : pyval) (key : string) : M pyval :=
  match v with
  | PDict items =>
      match assoc key items with
      | Some x => ret x
      | None => raise (KeyError key)
      end
  | _ => raise TypeError
  end.

Fixpoint chars (s : string) : list pyval :=
  match s with
  | EmptyString => []
  | String c s' => PStr (String c EmptyString) :: chars s'
  end.

(** [for x in v]: lists give their items, dictionaries their keys, strings
    their characters; nothing else can be iterated. *)
Definition py_iter (v : pyval) : M (list pyval) :=
  match v with
  | PList items => ret items
  | PDict items => ret ((λ kv, PStr kv.1) <$> items)
  | PStr s => ret (chars s)
  | _ => raise TypeError
  end.

(** A replacement field [{v}] of an f-string. *)
Definition py_format (v : pyval) : M string :=
  match v with
  | PNone => ret "None"
  | PBool true => ret "True"
  | PBool false => ret "False"
  | PInt n => ret (pretty n)
  | PStr s => ret s
  | PList _ | PDict _ => raise Unmodelled
  end.

(** [[body x for x in xs]] *)
Fixpoint comprehension {A B} (xs : list A) (body : A → M B) : M (list B) :=
  match xs with
  | [] => ret []
  | x :: xs' =>
      let* y := body x in
      let* ys := comprehension xs' body in
      ret (y :: ys)
  end.

(** A [for] loop that carries a local variable. *)
Fixpoint for_fold {A S} (xs : list A) (s : S) (body : A → S → M S) : M S :=
  match xs with
  | [] => ret s
  | x :: xs' => let* s' := body x s in for_fold xs' s' body
  end.

(** ** Regular expressions of the event handler

    Both patterns are matched without backtracking: their alternatives
    start with different letters, so at most one of them is a prefix of the
    text, and each greedy repetition is followed by a character outside its
    class (["."] after [[\w/\-]+], ["#"] after [\s+]) or by nothing, so only
    its longest run can lead to a match. *)

(** [(?:a|b|c)]: the alternative found at the head of [s], and the rest. *)
Fixpoint alternative (alts : list string) (s : string)
    : option (string * string) :=
  match alts with
  | [] => None
  | alt :: alts' =>
      match strip_prefix alt s with
      | Some rest => Some (alt, rest)
      | None => alternative alts' s
      end
  end.

(** [re.findall]: [match_at s] is what a match at the head of [s] yields
    and how many characters it takes; matches are searched from left to
    right and do not overlap.  [skip] counts the characters still covered
    by the last match. *)
Fixpoint findall (match_at : string → option (string * nat)) (skip : nat)
    (s : string) : list string :=
  match s with
  | EmptyString => []
  | String _ s' =>
      match skip with
      | S skip' => findall match_at skip' s'
      | O =>
          match match_at s with
          | Some (found, len) => found :: findall match_at (Nat.pred len) s'
          | None => findall match_at O s'
          end
      end
  end.

(** [[\w/\-]] *)
Definition is_path_char (c : ascii) : bool :=
  is_word c || bool_decide (c = "/"%char) || bool_decide (c = "-"%char).

(** [(?:docs|skills)/[\w/\-]+\.(?:md|py|yaml)] at the head of [s]. *)
Definition match_file (s : string) : option (string * nat) :=
  match alternative ["docs"; "skills"] s with
  | None => None
  | Some (dir, s1) =>
      match strip_prefix "/" s1 with
      | None => None
      | Some s2 =>
          let '(run, s3) := span is_path_char s2 in
          if bool_decide (run = "") then None
          else match strip_prefix "." s3 with
               | None => None
               | Some s4 =>
                   match alternative ["md"; "py"; "yaml"] s4 with
                   | None => None
                   | Some (ext, _) =>
                       let found := dir +:+ "/" +:+ run +:+ "." +:+ ext in
                       Some (found, String.length found)
                   end
               end
      end
  end.

(** [(?:fixes|closes|resolves)\s+#(\d+)] at the head of [s]; yields the
    group. *)
Definition match_fixes (s : string) : option (string * nat) :=
  match alternative ["fixes"; "closes"; "resolves"] s with
  | None => None
  | Some (verb, s1) =>
      let '(blank, s2) := span is_space s1 in
      if bool_decide (blank = "") then None
      else match strip_prefix "#" s2 with
           | None => None
           | Some s3 =>
               let '(digits, _) := span is_digit s3 in
               if bool_decide (digits = "") then None
               else Some (digits,
                          (String.length verb + String.length blank + 1
                           + String.length digits)%nat)
           end
  end.

(** ** [GitHubEventHandler] *)

Module GitHubEventHandler.
Import KnowledgeGraph.

(** The [keywords] dictionary, in the order it is written. *)
Definition keywords : list (string * string) :=
  [ ("Storage API", "Concept:StorageAPI");
    ("Jobs API", "Concept:JobsAPI");
    ("Stack URL", "Concept:StackURL");
    ("Project ID", "Concept:ProjectID");
    ("Token", "Concept:Authentication");
    ("Input Mapping", "Concept:InputMapping");
    ("Output Mapping", "Concept:OutputMapping");
    ("Custom Python", "Concept:CustomPython");
    ("Streamlit", "Concept:Streamlit");
    ("Flow", "Concept:Flows") ].

Definition extract_concepts_from_text (text : string) : gset string :=
  let text_lower := lower text in
  list_to_set
    (snd <$> filter (λ kw, contains (lower kw.1) text_lower = true) keywords).

Definition extract_files_from_text (text : string) : gset string :=
  list_to_set (findall match_file O text).

(** [[label["name"] for label in issue_data.get("labels", [])]] *)
Definition label_names (issue_data : pydict) : M pyval :=
  let* labels := py_iter (dict_get issue_data "labels" (PList [])) in
  let* names := comprehension labels (λ label, py_getitem label "name") in
  ret (PList names).

(** [f"{data['title']} {data.get('body', '')}"] *)
Definition title_and_body (data : pydict) : M string :=
  let* title := subscript data "title" in
  let* title := py_format title in
  let* body := py_format (dict_get data "body" (PStr "")) in
  ret (title +:+ " " +:+ body).

Section Handlers.

(** The order in which a [for] loop walks a Python [set] of strings; it
    depends on the hash seed of the process. *)
Variable set_order : gset string → list string.

Definition handle_issue_created (issue_number : Z) (issue_data : pydict)
    : M unit :=
  let* title := subscript issue_data "title" in
  let* title := py_format title in
  print ("📝 Handling Issue #" +:+ pretty issue_number +:+ ": " +:+ title) ;;
  (* Create issue node *)
  let* title := subscript issue_data "title" in
  let body := dict_get issue_data "body" (PStr "") in
  let* labels := label_names issue_data in
  let* url := subscript issue_data "html_url" in
  let* created_at := subscript issue_data "created_at" in
  let* issue_id :=
    add_node "Issue" (pretty issue_number)
      (kwargs [("number", PInt issue_number); ("title", title);
               ("body", body); ("status", PStr "open"); ("labels", labels);
               ("url", url); ("created_at", created_at)]) in
  print ("  ✓ Created node: " +:+ issue_id) ;;
  (* Extract and link concepts *)
  let* full_text := title_and_body issue_data in
  let concepts := extract_concepts_from_text full_text in
  for_each (set_order concepts) (λ concept_id,
    let* concept_name := list_item (split ":" concept_id) 1 in
    add_node "Concept" concept_name (kwargs [("name", PStr concept_name)]) ;;
    add_edge issue_id concept_id "ABOUT" ∅ ;;
    print ("  ✓ Linked to concept: " +:+ concept_name)) ;;
  (* Extract and link files *)
  let files := extract_files_from_text full_text in
  for_each (set_order files) (λ file_path,
    add_node "Document" file_path (kwargs [("path", PStr file_path)]) ;;
    let doc_id := "Document:" +:+ file_path in
    add_edge issue_id doc_id "ABOUT" ∅ ;;
    print ("  ✓ Linked to document: " +:+ file_path)) ;;
  print ("  ✅ Issue #" +:+ pretty issue_number +:+ " tracked in graph").

Definition handle_issue_closed (issue_number : Z) : M unit :=
  print ("🔒 Closing Issue #" +:+ pretty issue_number) ;;
  let issue_id := "Issue:" +:+ pretty issue_number in
  update_node issue_id (kwargs [("status", PStr "closed")]) ;;
  print ("  ✅ Issue #" +:+ pretty issue_number +:+ " marked as closed").

Definition handle_pr_created (pr_number : Z) (pr_data : pydict) : M unit :=
  let* title := subscript pr_data "title" in
  let* title := py_format title in
  print ("🔀 Handling PR #" +:+ pretty pr_number +:+ ": " +:+ title) ;;
  (* Create PR node *)
  let* title := subscript pr_data "title" in
  let body := dict_get pr_data "body" (PStr "") in
  let* url := subscript pr_data "html_url" in
  let* created_at := subscript pr_data "created_at" in
  let additions := dict_get pr_data "additions" (PInt 0) in
  let deletions := dict_get pr_data "deletions" (PInt 0) in
  let* pr_id :=
    add_node "PullRequest" (pretty pr_number)
      (kwargs [("number", PInt pr_number); ("title", title); ("body", body);
               ("status", PStr "open"); ("url", url);
               ("created_at", created_at); ("additions", additions);
               ("deletions", deletions)]) in
  print ("  ✓ Created node: " +:+ pr_id) ;;
  (* Extract "Fixes #N" from PR body/title *)
  let* full_text := title_and_body pr_data in
  let matches := findall match_fixes O (lower full_text) in
  for_each matches (λ issue_num,
    let issue_id := "Issue:" +:+ issue_num in
    add_edge issue_id pr_id "FIXED_BY" ∅ ;;
    print ("  ✓ Links to Issue #" +:+ issue_num)) ;;
  (* Link to modified files (if available) *)
  match pr_data !! "changed_files" with
  | Some changed_files =>
      let* changed_files := py_iter changed_files in
      for_each changed_files (λ file_info,
        let* file_path := py_getitem file_info "filename" in
        (* Create document node *)
        let* name := py_format file_path in
        add_node "Document" name (kwargs [("path", file_path)]) ;;
        let doc_id := "Document:" +:+ name in
        add_edge pr_id doc_id "MODIFIES" ∅ ;;
        print ("  ✓ Modifies: " +:+ name))
  | None => ret tt
  end ;;
  print ("  ✅ PR #" +:+ pretty pr_number +:+ " tracked in graph").

(** The default of [max_depth] in [find_dependents]. *)
Definition default_max_depth : Z := 3.

Definition handle_pr_merged (pr_number : Z) : M unit :=
  print ("✅ Merging PR #" +:+ pretty pr_number) ;;
  let pr_id := "PullRequest:" +:+ pretty pr_number in
  update_node pr_id (kwargs [("status", PStr "merged")]) ;;
  (* Find and close linked issues *)
  let* related := find_related pr_id (Some "FIXED_BY") in
  for_each related (λ node,
    if bool_decide (r_type node = "Issue") then
      let issue_id := r_id node in
      update_node issue_id (kwargs [("status", PStr "closed")]) ;;
      let* issue_num := subscript (r_properties node) "number" in
      let* issue_num := py_format issue_num in
      print ("  ✓ Closed Issue #" +:+ issue_num)
    else ret tt) ;;
  (* Find modified documents *)
  let* modified_docs := find_related pr_id (Some "MODIFIES") in
  match modified_docs with
  | [] => ret tt
  | _ :: _ =>
      print ("  📄 Modified " +:+ pretty (length modified_docs)
             +:+ " documents") ;;
      (* Find skills that depend on these documents *)
      let* affected_skills :=
        for_fold modified_docs (∅ : gset string) (λ doc affected_skills,
          let* dependents := find_dependents (r_id doc) default_max_depth in
          ret (list_to_set
                 (filter (λ dep_id, String.prefix "Skill:" dep_id = true)
                         dependents)
               ∪ affected_skills)) in
      if bool_decide (affected_skills = ∅) then ret tt
      else
        print "  🔄 Affected skills (should regenerate):" ;;
        for_each (set_order affected_skills) (λ skill_id,
          print ("    • " +:+ skill_id))
  end ;;
  print ("  ✅ PR #" +:+ pretty pr_number +:+ " merged").

End Handlers.

End GitHubEventHandler.

(** * Vocabulary of the properties *)

Import KnowledgeGraph GitHubEventHandler.

(** ** Constraints the database keeps *)

(** The identity of an edge. *)
Definition edge_key (e : edge_row) : string * string * string :=
  (e_from_id e, e_to_id e, e_relationship e).

(** [PRIMARY KEY] of [nodes]. *)
Definition unique_nodes (w : world) : Prop := NoDup (n_id <$> nodes w).

(** [UNIQUE(from_id, to_id, relationship)] of [edges]. *)
Definition unique_edges (w : world) : Prop := NoDup (edge_key <$> edges w).

(** The number of edges that leave a node not yet visited. *)
Definition pending_edges (rows : list edge_row) (visited : gset string)
    : nat :=
  length (filter (λ e, e_from_id e ∉ visited) rows).

(** The source and target of an edge. *)
Definition arrow (e : edge_row) : string * string := (e_from_id e, e_to_id e).

(** An edge between [node_id] and [other], in either direction. *)
Definition links (node_id other : string) (e : edge_row) : Prop :=
  (e_from_id e = node_id ∧ e_to_id e = other)
  ∨ (e_from_id e = other ∧ e_to_id e = node_id).

#[global] Instance links_dec node_id other e : Decision (links node_id other e).
Proof. unfold links. apply _. Defined.

Definition related_of (n : node_row) : related_node :=
  RelatedNode (n_id n) (n_type n) (n_properties n).

(** The [WHERE] clause of [find_related], read off the key of an edge. *)
Definition key_selected (node_id : string) (relationship : option string)
    (k : string * string * string) : Prop :=
  (k.1.1 = node_id ∨ k.1.2 = node_id)
  ∧ (truthy relationship = true → Some k.2 = relationship).

#[global] Instance key_selected_dec node_id relationship k :
  Decision (key_selected node_id relationship k).
Proof. unfold key_selected. apply _. Defined.

(** ** Straight-line runs

    A handler that has run without branching on the store leaves behind a
    sequence of statements.  The list is written with the last statement
    first. *)

Inductive stmt : Type :=
| Line (line : string)
| Lines (lines : list string)
| Upsert (id type : string) (properties : pydict)
| Link (from_id to_id relationship : string) (properties : pydict)
| Update (id : string) (properties : pydict)
| Clock (t : Z).

(** Several calls of [print]. *)
Definition write_lines (lines : list string) (w : world) : world :=
  World (nodes w) (edges w) (now w) (stdout w ++ lines).

Definition apply_stmt (s : stmt) (w : world) : world :=
  match s with
  | Line line => write_line line w
  | Lines lines => write_lines lines w
  | Upsert id type properties => insert_or_replace_node id type properties w
  | Link from_id to_id relationship properties =>
      insert_or_ignore_edge from_id to_id relationship properties w
  | Update id properties => update_node_row id properties w
  | Clock t => at_time t w
  end.

Definition apply_stmts (ss : list stmt) (w : world) : world :=
  foldr apply_stmt w ss.

(** The clock after the statements. *)
Fixpoint now_after (ss : list stmt) (t0 : Z) : Z :=
  match ss with
  | [] => t0
  | Clock t :: _ => t
  | _ :: ss' => now_after ss' t0
  end.

(** The row with id [j] after the statements, from the row before them. *)
Fixpoint node_after (ss : list stmt) (j : string) (t0 : Z)
    (before : option node_row) : option node_row :=
  match ss with
  | [] => before
  | Upsert id type properties :: ss' =>
      if String.eqb id j
      then Some (NodeRow id type properties (now_after ss' t0)
                         (now_after ss' t0))
      else node_after ss' j t0 before
  | Update id properties :: ss' =>
      if String.eqb id j
      then (λ r, NodeRow (n_id r) (n_type r) properties (n_created_at r)
                         (now_after ss' t0))
             <$> node_after ss' j t0 before
      else node_after ss' j t0 before
  | _ :: ss' => node_after ss' j t0 before
  end.

(** The ids upserted and the edge keys inserted by the statements. *)
Fixpoint upserted (ss : list stmt) : list string :=
  match ss with
  | [] => []
  | Upsert id _ _ :: ss' => id :: upserted ss'
  | _ :: ss' => upserted ss'
  end.

Fixpoint linked (ss : list stmt) : list (string * string * string) :=
  match ss with
  | [] => []
  | Link from_id to_id relationship _ :: ss' =>
      (from_id, to_id, relationship) :: linked ss'
  | _ :: ss' => linked ss'
  end.

(** ** Statistics *)

(** The sum of the counts of a [type_counts] dictionary. *)
Definition sum_counts (type_counts : gmap string nat) : nat :=
  map_fold (λ _ count total, (count + total)%nat) 0%nat type_counts.

(** ** Reachability *)

(** A forward path of [n] edges from [seed]. *)
Inductive path (rows : list edge_row) (seed : string)
    : nat → string → Prop :=
| path_start : path rows seed 0 seed
| path_step n x e :
    path rows seed n x → e ∈ rows → e_from_id e = x →
    path rows seed (S n) (e_to_id e).

(** Within the depth bound: between one and [max_depth] edges away. *)
Definition within_bound (rows : list edge_row) (max_depth : Z)
    (seed x : string) : Prop :=
  ∃ n : nat, (1 ≤ n)%nat ∧ Z.of_nat n ≤ max_depth ∧ path rows seed n x.

(** What holds each time the loop of [find_dependents] is entered: the
    queue holds the entries of level [h], then those of level [h+1]; every
    node nearer than [h] has been visited, every node at [h] is visited or
    queued, and the visited set is closed under the edges up to what is
    queued. *)
Record bfs_inv (rows : list edge_row) (max_depth : Z) (seed : string)
    (h : nat) (visited : gset string) (q1 q2 : list (string * Z))
    (dependents : list string) : Prop := BfsInv {
  inv_below : ∀ m x, (m < h)%nat → path rows seed m x → x ∈ visited;
  inv_level : ∀ x, path rows seed h x →
                   x ∈ visited ∨ (x, Z.of_nat h) ∈ q1;
  inv_succ : ∀ e, e ∈ rows → e_from_id e ∈ visited →
                  e_to_id e ∈ visited ∨ e_to_id e ∈ ((q1 ++ q2)%list).*1;
  inv_seen : ∀ x, x ∈ visited ∨ x ∈ ((q1 ++ q2)%list).*1 →
                  x = seed ∨ x ∈ dependents;
  inv_q1 : Forall (λ entry, entry.2 = Z.of_nat h) q1;
  inv_q2 : Forall (λ entry, entry.2 = Z.of_nat h + 1) q2;
  inv_room : q2 = [] ∨ Z.of_nat h < max_depth
}.

(** ** What a run may do to the store *)

(** From [w] to [w']: every node id is kept, the table of edges and the
    output only grow at the end, the clock stands still and the constraints
    of the database stay in force. *)
Definition grows (w w' : world) : Prop :=
  (∀ j, j ∈ n_id <$> nodes w → j ∈ n_id <$> nodes w')
  ∧ edges w `prefix_of` edges w'
  ∧ stdout w `prefix_of` stdout w'
  ∧ now w' = now w
  ∧ (unique_nodes w → unique_nodes w')
  ∧ (unique_edges w → unique_edges w').

(** A computation that, whatever it returns or raises, only adds. *)
Definition only_adds {A} (c : M A) : Prop := ∀ w, grows w (c w).1.

(** A computation that raises nothing outside [E]. *)
Definition raises_only (E : exn → Prop) {A} (c : M A) : Prop :=
  ∀ w w' e, c w = (w', Raised e) → E e.

(** A computation that leaves the world as it finds it. *)
Definition reads_only {A} (c : M A) : Prop := ∀ w, (c w).1 = w.

(** A computation that returns and touches nothing but the output. *)
Definition prints_only {A} (c : M A) : Prop :=
  ∀ w, ∃ a, (c w).2 = Returned a
            ∧ nodes (c w).1 = nodes w ∧ edges (c w).1 = edges w
            ∧ now (c w).1 = now w.

(** ** Texts *)

(** Every character of [s] is in the class. *)
Fixpoint all_chars (cls : ascii → bool) (s : string) : bool :=
  match s with
  | EmptyString => true
  | String c s' => cls c && all_chars cls s'
  end.

(** ** The statements of the loops *)

(** The statements of the loop over the references of a pull request, last
    first. *)
Definition fixes_stmts (pr_id : string) (matches : list string)
    : list stmt :=
  rev (flat_map (λ issue_num,
                   [Link ("Issue:" +:+ issue_num) pr_id "FIXED_BY" ∅;
                    Line ("  ✓ Links to Issue #" +:+ issue_num)])
                matches).

(** The statements of the loop over the changed files, last first. *)
Definition changed_stmts (pr_id : string) (names : list string)
    : list stmt :=
  rev (flat_map (λ name,
                   [Upsert ("Document:" +:+ name) "Document"
                      (kwargs [("path", PStr name)]);
                    Link pr_id ("Document:" +:+ name) "MODIFIES" ∅;
                    Line ("  ✓ Modifies: " +:+ name)])
                names).

(** A list of changed files as the handler expects it: dictionaries with a
    [filename] that is a string. *)
Definition file_infos (infos : list pyval) (names : list string) : Prop :=
  Forall2 (λ info name, ∃ items, info = PDict items
                                 ∧ assoc "filename" items = Some (PStr name))
          infos names.

(** A statement that neither updates a row nor moves the clock. *)
Definition plain (s : stmt) : Prop :=
  match s with Update _ _ | Clock _ => False | _ => True end.

(** The name after the colon of a concept id. *)
Definition concept_name_of (concept_id : string) : string :=
  default "" (split ":" concept_id !! 1%nat).

(** The statements of the two loops of [handle_issue_created], last
    first. *)
Definition concept_stmts (issue_id : string) (concepts : list string)
    : list stmt :=
  rev (flat_map (λ concept_id,
                   [Upsert concept_id "Concept"
                      (kwargs [("name", PStr (concept_name_of concept_id))]);
                    Link issue_id concept_id "ABOUT" ∅;
                    Line ("  ✓ Linked to concept: "
                          +:+ concept_name_of concept_id)])
                concepts).

Definition file_stmts (issue_id : string) (files : list string)
    : list stmt :=
  rev (flat_map (λ file_path,
                   [Upsert ("Document:" +:+ file_path) "Document"
                      (kwargs [("path", PStr file_path)]);
                    Link issue_id ("Document:" +:+ file_path) "ABOUT" ∅;
                    Line ("  ✓ Linked to document: " +:+ file_path)])
                files).

(** ** The parts of the merge *)

(** The row of an issue once it is closed at time [t]. *)
Definition close_row (t : Z) (r : node_row) : node_row :=
  NodeRow (n_id r) (n_type r)
          (<["status" := PStr "closed"]> (n_properties r))
          (n_created_at r) t.

(** The ids that the loop of [handle_pr_merged] updates. *)
Definition closed_ids (related : list related_node) : list string :=
  r_id <$> filter (λ node, r_type node = "Issue") related.

(** An issue row linked to the pull request by a [FIXED_BY] edge, in
    either direction. *)
Definition fixed_by (w : world) (pr_id : string) (issue : node_row) : Prop :=
  issue ∈ nodes w ∧ n_type issue = "Issue"
  ∧ ∃ e, e ∈ edges w ∧ e_relationship e = "FIXED_BY"
         ∧ links pr_id (n_id issue) e.

(** The body of the loop of [handle_pr_merged] over the related nodes. *)
Definition close_issue (node : related_node) : M unit :=
  if bool_decide (r_type node = "Issue") then
    let issue_id := r_id node in
    update_node issue_id (kwargs [("status", PStr "closed")]) ;;
    let* issue_num := subscript (r_properties node) "number" in
    let* issue_num := py_format issue_num in
    print ("  ✓ Closed Issue #" +:+ issue_num)
  else ret tt.

(** The loop of [handle_pr_merged] that collects the affected skills. *)
Definition collect_skills (modified_docs : list related_node)
    : M (gset string) :=
  for_fold modified_docs (∅ : gset string) (λ doc affected_skills,
    let* dependents := find_dependents (r_id doc) default_max_depth in
    ret (list_to_set
           (filter (λ dep_id, String.prefix "Skill:" dep_id = true)
                   dependents)
         ∪ affected_skills)).

(** What [handle_pr_merged] does after the loop over the related nodes. *)
Definition merge_report (set_order : gset string → list string)
    (pr_id : string) (pr_number : Z) : M unit :=
  let* modified_docs := find_related pr_id (Some "MODIFIES") in
  match modified_docs with
  | [] => ret tt
  | _ :: _ =>
      print ("  📄 Modified " +:+ pretty (length modified_docs)
             +:+ " documents") ;;
      let* affected_skills := collect_skills modified_docs in
      if bool_decide (affected_skills = ∅) then ret tt
      else
        print "  🔄 Affected skills (should regenerate):" ;;
        for_each (set_order affected_skills) (λ skill_id,
          print ("    • " +:+ skill_id))
  end ;;
  print ("  ✅ PR #" +:+ pretty pr_number +:+ " merged").

(** A node at an end of a [MODIFIES] edge that touches the pull request:
    where the search for affected skills starts. *)
Definition modified_by (w : world) (pr_id start : string) : Prop :=
  start ∈ n_id <$> nodes w
  ∧ ∃ e, e ∈ edges w ∧ e_relationship e = "MODIFIES"
         ∧ (e_from_id e = pr_id ∨ e_to_id e = pr_id)
         ∧ (e_to_id e = start ∨ e_from_id e = start).

(** * Properties of the graph store *)

Section StoreFacts.

Implicit Types (w : world) (r : node_row) (e : edge_row).

Lemma bind_run {A B} (c : M A) (k : A → M B) w w' a :
  c w = (w', Returned a) → bind c k w = k a w'.
Proof. unfold bind. by intros ->. Qed.

Lemma bind_raise {A B} (c : M A) (k : A → M B) w w' x :
  c w = (w', Raised x) → bind c k w = (w', Raised x).
Proof. unfold bind. by intros ->. Qed.

Lemma filter_id_other (i j : string) (rows : list node_row) :
  i ≠ j →
  filter (λ r, n_id r = j) (filter (λ r, n_id r ≠ i) rows)
  = filter (λ r, n_id r = j) rows.
Proof.
  intros Hij. induction rows as [|r rows IH]; [done|].
  rewrite !filter_cons.
  destruct (decide (n_id r ≠ i)) as [Hr|Hr].
  - rewrite filter_cons. case_decide; by rewrite IH.
  - apply dec_stable in Hr. rewrite decide_False by congruence. done.
Qed.

Lemma filter_id_gone (i : string) (rows : list node_row) :
  filter (λ r, n_id r = i) (filter (λ r, n_id r ≠ i) rows) = [].
Proof.
  induction rows as [|r rows IH]; [done|].
  rewrite filter_cons. case_decide; [|done].
  rewrite filter_cons_False; [done|]. by intros ?.
Qed.


Lemma add_node_run node_type node_id (properties : pydict) w :
  add_node node_type node_id properties w
  = (insert_or_replace_node (node_type +:+ ":" +:+ node_id) node_type
       properties w,
     Returned (node_type +:+ ":" +:+ node_id)).
Proof. done. Qed.

Lemma select_node_insert_or_replace i type (properties : pydict) w j :
  select_node j (insert_or_replace_node i type properties w)
  = if decide (i = j) then Some (NodeRow i type properties (now w) (now w))
    else select_node j w.
Proof.
  unfold select_node, insert_or_replace_node. cbn [nodes].
  rewrite filter_app. case_decide as Hij.
  - subst j. rewrite filter_id_gone. by rewrite filter_cons_True.
  - rewrite filter_id_other by done.
    rewrite filter_cons_False by (cbn; congruence).
    by rewrite app_nil_r.
Qed.

Lemma select_node_update_node_row i (properties : pydict) w :
  select_node i (update_node_row i properties w)
  = (λ r, NodeRow (n_id r) (n_type r) properties (n_created_at r) (now w))
      <$> select_node i w.
Proof.
  unfold select_node, update_node_row. cbn [nodes].
  induction (nodes w) as [|r rows IH]; [done|].
  rewrite fmap_cons, !filter_cons.
  destruct (decide (n_id r = i)) as [Hr|Hr].
  - by rewrite decide_True.
  - by rewrite decide_False.
Qed.

Lemma select_node_update_node_row_ne i (properties : pydict) w j :
  i ≠ j → select_node j (update_node_row i properties w) = select_node j w.
Proof.
  intros Hij. unfold select_node, update_node_row. cbn [nodes]. f_equal.
  induction (nodes w) as [|r rows IH]; [done|].
  rewrite fmap_cons, !filter_cons.
  destruct (decide (n_id r = i)) as [Hr|Hr].
  - cbn [n_id]. rewrite !decide_False by congruence. done.
  - rewrite IH. done.
Qed.


Lemma update_node_found node_id (properties : pydict) w node :
  select_node node_id w = Some node →
  update_node node_id properties w
  = (update_node_row node_id (properties ∪ n_properties node) w,
     Returned tt).
Proof. intros Hn. unfold update_node, bind, get_node, query. by rewrite Hn. Qed.

Lemma update_node_missing node_id (properties : pydict) w :
  select_node node_id w = None →
  update_node node_id properties w
  = (w, Raised (ValueError ("Node not found: " +:+ node_id))).
Proof. intros Hn. unfold update_node, bind, get_node, query. by rewrite Hn. Qed.

Lemma select_node_at_time t w node_id :
  select_node node_id (at_time t w) = select_node node_id w.
Proof. done. Qed.

Lemma select_node_id node_id w node :
  select_node node_id w = Some node → n_id node = node_id.
Proof.
  unfold select_node. intros Hn. apply head_Some_elem_of in Hn.
  by apply list_elem_of_filter in Hn as [? _].
Qed.

End StoreFacts.

Section EdgeFacts.

Implicit Types (w : world) (e : edge_row).

Lemma same_edge_key from_id to_id relationship e :
  same_edge from_id to_id relationship e
  ↔ edge_key e = (from_id, to_id, relationship).
Proof.
  unfold same_edge, edge_key. split.
  - by intros (-> & -> & ->).
  - intros [= -> -> ->]. done.
Qed.

Lemma Exists_same_edge from_id to_id relationship (rows : list edge_row) :
  Exists (same_edge from_id to_id relationship) rows
  ↔ (from_id, to_id, relationship) ∈ edge_key <$> rows.
Proof.
  rewrite Exists_exists, list_elem_of_fmap. split.
  - intros (e & He & Hk). exists e. by apply same_edge_key in Hk.
  - intros (e & Hk & He). exists e. split; [done|]. by apply same_edge_key.
Qed.

Lemma insert_or_ignore_edge_present from_id to_id relationship
    (properties : pydict) w :
  (from_id, to_id, relationship) ∈ edge_key <$> edges w →
  insert_or_ignore_edge from_id to_id relationship properties w = w.
Proof.
  intros Hin. unfold insert_or_ignore_edge.
  rewrite decide_True; [done|]. by apply Exists_same_edge.
Qed.

Lemma insert_or_ignore_edge_absent from_id to_id relationship
    (properties : pydict) w :
  (from_id, to_id, relationship) ∉ edge_key <$> edges w →
  insert_or_ignore_edge from_id to_id relationship properties w
  = World (nodes w)
          (edges w ++ [EdgeRow (next_edge_id (edges w)) from_id to_id
                               relationship properties (now w)])
          (now w) (stdout w).
Proof.
  intros Hin. unfold insert_or_ignore_edge.
  rewrite decide_False; [done|]. by rewrite Exists_same_edge.
Qed.

Lemma insert_or_ignore_edge_keys from_id to_id relationship
    (properties : pydict) w k :
  k ∈ edge_key <$> edges (insert_or_ignore_edge from_id to_id relationship
                            properties w)
  ↔ k = (from_id, to_id, relationship) ∨ k ∈ edge_key <$> edges w.
Proof.
  destruct (decide ((from_id, to_id, relationship) ∈ edge_key <$> edges w))
    as [Hin|Hin].
  - rewrite insert_or_ignore_edge_present by done.
    split; [by right|]. by intros [->|?].
  - rewrite insert_or_ignore_edge_absent by done. cbn [edges].
    rewrite fmap_app, list_fmap_singleton, elem_of_app.
    rewrite list_elem_of_singleton. cbn. tauto.
Qed.

Lemma insert_or_ignore_edge_unique from_id to_id relationship
    (properties : pydict) w :
  unique_edges w →
  unique_edges (insert_or_ignore_edge from_id to_id relationship
                  properties w).
Proof.
  unfold unique_edges. intros Hw.
  destruct (decide ((from_id, to_id, relationship) ∈ edge_key <$> edges w))
    as [Hin|Hin].
  - by rewrite insert_or_ignore_edge_present.
  - rewrite insert_or_ignore_edge_absent by done. cbn [edges].
    rewrite fmap_app. apply NoDup_app. split; [done|]. split.
    + intros k Hk Hk'. apply list_elem_of_singleton in Hk'. by subst k.
    + apply NoDup_singleton.
Qed.

Lemma filter_key_count (k : string * string * string)
    (rows : list edge_row) :
  NoDup (edge_key <$> rows) → k ∈ edge_key <$> rows →
  length (filter (λ e, edge_key e = k) rows) = 1%nat.
Proof.
  induction rows as [|e rows IH]; intros Hnd Hin.
  - by apply elem_of_nil in Hin.
  - rewrite fmap_cons in Hnd, Hin. apply NoDup_cons in Hnd as [Hne Hnd].
    rewrite filter_cons. case_decide as Hk.
    + subst k. cbn [length]. f_equal.
      destruct (filter (λ e', edge_key e' = edge_key e) rows)
        as [|e' rest] eqn:Hrest; [done|]. exfalso.
      assert (e' ∈ filter (λ e', edge_key e' = edge_key e) rows) as He'.
      { rewrite Hrest. left. }
      apply list_elem_of_filter in He' as [Hk He'].
      apply Hne. rewrite <- Hk. by apply list_elem_of_fmap_2.
    + apply elem_of_cons in Hin as [Hin|Hin]; [congruence|]. by apply IH.
Qed.

End EdgeFacts.


Section CallFacts.

Implicit Types (w : world) (mapping : pydict).




End CallFacts.








(** C3. A merge-update of a node id that is not stored raises the
    "Node not found" [ValueError] and leaves the world as it was; hence
    [handle_issue_closed] on an issue whose node was never created ends
    with that exception, not caught on the way, with the nodes and edges
    tables unchanged. *)
Theorem merge_update_of_missing_node_raises (w : world) (node_id : string) :
  select_node node_id w = None →
  (∀ properties : pydict,
     update_node node_id properties w
     = (w, Raised (ValueError ("Node not found: " +:+ node_id))))
  ∧ (∀ issue_number : Z,
       node_id = "Issue:" +:+ pretty issue_number →
       let run := handle_issue_closed issue_number w in
       run.2 = Raised (ValueError ("Node not found: " +:+ node_id))
       ∧ nodes run.1 = nodes w
       ∧ edges run.1 = edges w).
Proof.
  intros Hn. split.
  - intros properties. by apply update_node_missing.
  - intros issue_number -> run. subst run. unfold handle_issue_closed.
    erewrite bind_run by reflexivity.
    erewrite bind_raise; cycle 1.
    { apply update_node_missing. exact Hn. }
    done.
Qed.

Lemma merge_update_of_missing_node_raises_witness :
  select_node "Issue:999" (empty_world 0) = None
  ∧ (handle_issue_closed 999 (empty_world 0)).2
    = Raised (ValueError "Node not found: Issue:999").
Proof.
  split; [reflexivity|].
  apply (proj2 (merge_update_of_missing_node_raises (empty_world 0)
                  "Issue:999" eq_refl) 999 eq_refl).
Defined.

(** C4. In a store that satisfies the [UNIQUE(from_id, to_id,
    relationship)] constraint, inserting the same edge twice raises
    nothing, the second insert changes no table, and exactly one row with
    that triple is stored afterwards. *)
Theorem insert_edge_twice_is_idempotent (w : world)
    (from_id to_id relationship : string) (P1 P2 : pydict) (t : Z) :
  unique_edges w →
  let first := add_edge from_id to_id relationship P1 w in
  let second := add_edge from_id to_id relationship P2 (at_time t first.1) in
  first.2 = Returned tt
  ∧ second.2 = Returned tt
  ∧ second.1 = at_time t first.1
  ∧ length (filter (same_edge from_id to_id relationship) (edges second.1))
    = 1%nat
  ∧ unique_edges second.1.
Proof.
  intros Hw first second. subst first second.
  unfold add_edge, execute. cbn [fst snd].
  set (w1 := insert_or_ignore_edge from_id to_id relationship P1 w).
  assert (unique_edges w1) as Hw1 by by apply insert_or_ignore_edge_unique.
  assert ((from_id, to_id, relationship) ∈ edge_key <$> edges w1) as Hin.
  { apply insert_or_ignore_edge_keys. by left. }
  rewrite (insert_or_ignore_edge_present _ _ _ P2 (at_time t w1)) by done.
  split; [done|]. split; [done|]. split; [done|]. split; [|done].
  cbn [at_time edges].
  rewrite (list_filter_iff _ (λ e, edge_key e = (from_id, to_id, relationship)))
    by (intros e; apply same_edge_key).
  by apply filter_key_count.
Qed.

Lemma insert_edge_twice_is_idempotent_witness :
  unique_edges (empty_world 0)
  ∧ length (filter (same_edge "A" "B" "ABOUT")
              (edges (add_edge "A" "B" "ABOUT" ∅
                        (at_time 1 (add_edge "A" "B" "ABOUT" ∅
                                      (empty_world 0)).1)).1)) = 1%nat.
Proof.
  assert (unique_edges (empty_world 0)) as Hw by apply NoDup_nil_2.
  split; [exact Hw|].
  apply (insert_edge_twice_is_idempotent (empty_world 0) "A" "B" "ABOUT"
           ∅ ∅ 1 Hw).
Defined.

(** * Properties of the traversal *)

Section TraversalFacts.

Variable rows : list edge_row.
Variable max_depth : Z.

Lemma pending_edges_visit (visited : gset string) (current_id : string) :
  current_id ∉ visited →
  (pending_edges rows ({[current_id]} ∪ visited)
   + length (select_to_ids current_id rows)
   = pending_edges rows visited)%nat.
Proof.
  intros Hc. unfold pending_edges, select_to_ids. rewrite length_fmap.
  induction rows as [|e rows' IH]; [done|].
  rewrite !filter_cons.
  destruct (decide (e_from_id e = current_id)) as [He|He].
  - rewrite decide_False by set_solver.
    rewrite decide_True by (by rewrite He).
    cbn [length]. lia.
  - destruct (decide (e_from_id e ∈ visited)) as [Hv|Hv].
    + rewrite decide_False by set_solver.
      rewrite decide_False by (intros ?; done). done.
    + rewrite decide_True
        by (by rewrite not_elem_of_union, not_elem_of_singleton).
      rewrite decide_True by done. cbn [length]. lia.
Qed.

Lemma find_dependents_loop_pop (fuel : nat) (visited : gset string)
    (current_id : string) (depth : Z) (to_visit : list (string * Z))
    (dependents : list string) :
  find_dependents_loop rows max_depth (S fuel) visited
    ((current_id, depth) :: to_visit) dependents
  = if bool_decide (current_id ∈ visited) || (max_depth <=? depth)
    then find_dependents_loop rows max_depth fuel visited to_visit dependents
    else
      let visited' := {[current_id]} ∪ visited in
      let found :=
        filter (λ dependent_id, dependent_id ∉ visited')
               (select_to_ids current_id rows) in
      find_dependents_loop rows max_depth fuel visited'
        (to_visit ++ ((λ dependent_id, (dependent_id, depth + 1)) <$> found))
        (dependents ++ found).
Proof. done. Qed.

(** Every iteration lowers [length to_visit + pending_edges], so the loop
    ends before that much fuel is spent. *)
Lemma find_dependents_loop_fuel (fuel : nat) :
  ∀ (visited : gset string) (to_visit : list (string * Z))
    (dependents : list string),
    (length to_visit + pending_edges rows visited < fuel)%nat →
    is_Some (find_dependents_loop rows max_depth fuel visited to_visit
               dependents).
Proof.
  induction fuel as [|fuel IH]; intros visited to_visit dependents Hfuel;
    [lia|].
  destruct to_visit as [|[current_id depth] to_visit]; [by eexists|].
  cbn [find_dependents_loop length] in *.
  destruct (bool_decide (current_id ∈ visited) || (max_depth <=? depth))
    eqn:Hskip.
  - apply IH. lia.
  - apply orb_false_iff in Hskip as [Hc _].
    apply bool_decide_eq_false in Hc.
    apply IH. rewrite length_app, length_fmap.
    pose proof (pending_edges_visit visited current_id Hc) as Hp.
    pose proof (length_filter
                  (λ dependent_id, dependent_id ∉ {[current_id]} ∪ visited)
                  (select_to_ids current_id rows)) as Hf.
    lia.
Qed.

(** More fuel does not change the result. *)
Lemma find_dependents_loop_more_fuel (fuel : nat) :
  ∀ (extra : nat) (visited : gset string) (to_visit : list (string * Z))
    (dependents result : list string),
    find_dependents_loop rows max_depth fuel visited to_visit dependents
    = Some result →
    find_dependents_loop rows max_depth (fuel + extra) visited to_visit
      dependents = Some result.
Proof.
  induction fuel as [|fuel IH];
    intros extra visited to_visit dependents result Hrun; [done|].
  destruct to_visit as [|[current_id depth] to_visit]; [done|].
  cbn [find_dependents_loop Nat.add] in *.
  destruct (bool_decide (current_id ∈ visited) || (max_depth <=? depth));
    by apply IH.
Qed.

(** Entries at or beyond the depth bound are popped without effect. *)
Lemma find_dependents_loop_too_deep (fuel : nat) :
  ∀ (visited : gset string) (to_visit : list (string * Z))
    (dependents : list string),
    Forall (λ entry, max_depth ≤ entry.2) to_visit →
    (length to_visit < fuel)%nat →
    find_dependents_loop rows max_depth fuel visited to_visit dependents
    = Some dependents.
Proof.
  induction fuel as [|fuel IH]; intros visited to_visit dependents Hdeep Hfuel;
    [lia|].
  destruct to_visit as [|[current_id depth] to_visit]; [done|].
  apply Forall_cons in Hdeep as [Hd Hdeep].
  cbn [find_dependents_loop length snd] in *.
  rewrite (proj2 (Z.leb_le max_depth depth) Hd), orb_true_r.
  apply IH; [done|lia].
Qed.

End TraversalFacts.

Lemma pending_edges_le (rows : list edge_row) (visited : gset string) :
  (pending_edges rows visited ≤ length rows)%nat.
Proof. apply length_filter. Qed.

Lemma select_dependents_is_Some (w : world) (node_id : string)
    (max_depth : Z) :
  is_Some (select_dependents node_id max_depth w).
Proof.
  apply find_dependents_loop_fuel. unfold find_dependents_fuel.
  pose proof (pending_edges_le (edges w) ∅). cbn [length]. lia.
Qed.

Lemma find_dependents_run (w : world) (node_id : string) (max_depth : Z)
    (dependents : list string) :
  select_dependents node_id max_depth w = Some dependents →
  find_dependents node_id max_depth w = (w, Returned dependents).
Proof. intros Hs. unfold find_dependents, bind, query. by rewrite Hs. Qed.

(** The six orders of three rows. *)
Lemma Permutation_three {A} (a b c : A) (l : list A) :
  l ≡ₚ [a; b; c] →
  l = [a; b; c] ∨ l = [a; c; b] ∨ l = [b; a; c]
  ∨ l = [b; c; a] ∨ l = [c; a; b] ∨ l = [c; b; a].
Proof.
  intros Hl. symmetry in Hl.
  apply Permutation_cons_inv_l in Hl as (l1 & l2 & -> & Hl).
  apply Permutation_cons_inv_l in Hl as (k1 & k2 & Hk & Hl).
  apply Permutation_singleton_l in Hl.
  destruct k1 as [|x [|y k1]]; cbn in Hl, Hk; simplify_eq;
    destruct l1 as [|x1 [|x2 [|x3 l1]]]; cbn in Hk; simplify_eq; tauto.
Qed.

(** Runs [find_dependents] on a table of at most four rows whose arrows are
    known. *)
Ltac run_on_known_rows Hrows :=
  match type of Hrows with
  | arrow <$> edges ?w = _ =>
      destruct w as [ns rows t out]; cbn [edges] in Hrows;
      destruct rows as [|[] [|[] [|[] [|[] [|? ?]]]]];
      cbn in Hrows; try discriminate Hrows;
      unfold arrow in Hrows; cbn in Hrows; simplify_eq;
      apply find_dependents_run; vm_compute; reflexivity
  end.

(** C5. [find_dependents] returns for every store, seed and depth bound:
    the loop ends within [find_dependents_fuel] iterations and more fuel
    gives the same list.  On the cycle A→B, B→C, C→A, whatever the order
    of the rows, the result from A with bound 5 is [B, C]. *)
Theorem find_dependents_terminates :
  (∀ (w : world) (node_id : string) (max_depth : Z),
     ∃ dependents : list string,
       find_dependents node_id max_depth w = (w, Returned dependents)
       ∧ ∀ fuel : nat,
           (find_dependents_fuel (edges w) ≤ fuel)%nat →
           find_dependents_loop (edges w) max_depth fuel ∅ [(node_id, 0)] []
           = Some dependents)
  ∧ (∀ w : world,
       arrow <$> edges w ≡ₚ [("A", "B"); ("B", "C"); ("C", "A")] →
       find_dependents "A" 5 w = (w, Returned ["B"; "C"])).
Proof.
  split.
  - intros w node_id max_depth.
    destruct (select_dependents_is_Some w node_id max_depth)
      as [dependents Hrun].
    exists dependents. split; [by apply find_dependents_run|].
    intros fuel Hfuel.
    replace fuel
      with (find_dependents_fuel (edges w)
            + (fuel - find_dependents_fuel (edges w)))%nat by lia.
    by apply find_dependents_loop_more_fuel.
  - intros w Hrows.
    apply Permutation_three in Hrows
      as [Hrows|[Hrows|[Hrows|[Hrows|[Hrows|Hrows]]]]];
      run_on_known_rows Hrows.
Qed.

Lemma find_dependents_terminates_witness :
  let w := World [] [EdgeRow 1 "A" "B" "INCLUDES" ∅ 0;
                     EdgeRow 2 "B" "C" "INCLUDES" ∅ 0;
                     EdgeRow 3 "C" "A" "INCLUDES" ∅ 0] 0 [] in
  arrow <$> edges w ≡ₚ [("A", "B"); ("B", "C"); ("C", "A")]
  ∧ find_dependents "A" 5 w = (w, Returned ["B"; "C"]).
Proof.
  intros w.
  assert (arrow <$> edges w ≡ₚ [("A", "B"); ("B", "C"); ("C", "A")]) as Hrows
    by reflexivity.
  split; [exact Hrows|].
  exact (proj2 find_dependents_terminates w Hrows).
Defined.

(** C8, as the claim states it, fails on the single edge A→B: with bound 0
    the result is empty although B is a direct successor of A. *)
Lemma max_depth_zero_counterexample :
  let w := World [] [EdgeRow 1 "A" "B" "INCLUDES" ∅ 0] 0 [] in
  select_to_ids "A" (edges w) = ["B"]
  ∧ find_dependents "A" 0 w = (w, Returned [])
  ∧ (find_dependents "A" 0 w).2 ≠ Returned (select_to_ids "A" (edges w)).
Proof. cbv zeta. split; [|split]; by vm_compute. Qed.

(** C8, amended. With bound 0 [find_dependents] returns the empty list for
    every store and seed: the seed is popped at depth 0, which is not below
    the bound.  One hop is explored with bound 1, and the result is then
    the targets of the seed's outgoing edges, the seed itself left out. *)
Theorem max_depth_zero_explores_nothing (w : world) (node_id : string) :
  find_dependents node_id 0 w = (w, Returned [])
  ∧ find_dependents node_id 1 w
    = (w, Returned (filter (λ dependent_id, dependent_id ≠ node_id)
                           (select_to_ids node_id (edges w)))).
Proof.
  split; apply find_dependents_run; unfold select_dependents.
  - apply find_dependents_loop_too_deep.
    + by repeat constructor.
    + unfold find_dependents_fuel. cbn [length]. lia.
  - unfold find_dependents_fuel. rewrite find_dependents_loop_pop.
    rewrite bool_decide_eq_false_2 by apply not_elem_of_empty.
    cbn [orb Z.leb Z.compare app]. cbv zeta.
    rewrite (list_filter_iff _ (λ dependent_id, dependent_id ≠ node_id)).
    2:{ intros x. rewrite not_elem_of_union, not_elem_of_singleton.
        split; [by intros [? _]|]. intros ?. split; [done|].
        apply not_elem_of_empty. }
    apply find_dependents_loop_too_deep.
    + apply Forall_fmap, Forall_forall. intros x _. cbn. lia.
    + rewrite length_fmap.
      pose proof (length_filter (λ dependent_id, dependent_id ≠ node_id)
                    (select_to_ids node_id (edges w))) as Hf.
      unfold select_to_ids in Hf at 2. rewrite length_fmap in Hf.
      pose proof (length_filter (λ e, e_from_id e = node_id) (edges w)).
      lia.
Qed.

(** C10. On the rows A→B, A→C, B→D, C→D, in this order,
    [find_dependents] from A with bound 3 returns [B, C, D, D]: D is
    appended once when B is visited and once more when C is visited. *)
Theorem find_dependents_repeats_node (w : world) :
  arrow <$> edges w = [("A", "B"); ("A", "C"); ("B", "D"); ("C", "D")] →
  find_dependents "A" 3 w = (w, Returned ["B"; "C"; "D"; "D"])
  ∧ ¬ NoDup ["B"; "C"; "D"; "D"].
Proof.
  intros Hrows. split.
  - run_on_known_rows Hrows.
  - intros Hnd. apply NoDup_cons in Hnd as [_ Hnd].
    apply NoDup_cons in Hnd as [_ Hnd]. apply NoDup_cons in Hnd as [Hd _].
    apply Hd. left.
Qed.

Lemma find_dependents_repeats_node_witness :
  let w := World [] [EdgeRow 1 "A" "B" "INCLUDES" ∅ 0;
                     EdgeRow 2 "A" "C" "INCLUDES" ∅ 0;
                     EdgeRow 3 "B" "D" "INCLUDES" ∅ 0;
                     EdgeRow 4 "C" "D" "INCLUDES" ∅ 0] 0 [] in
  arrow <$> edges w = [("A", "B"); ("A", "C"); ("B", "D"); ("C", "D")]
  ∧ find_dependents "A" 3 w = (w, Returned ["B"; "C"; "D"; "D"]).
Proof.
  intros w. split; [reflexivity|].
  exact (proj1 (find_dependents_repeats_node w eq_refl)).
Defined.

(** * Properties of the one-hop query *)

Section RelatedFacts.

Variable w : world.
Variable node_id : string.
Variable relationship : option string.

Lemma select_related_elem (found : related_node) :
  found ∈ select_related node_id relationship w
  ↔ ∃ e n, e ∈ edges w ∧ edge_selected node_id relationship e
           ∧ n ∈ nodes w ∧ edge_joins e n ∧ found = related_of n.
Proof.
  unfold select_related. rewrite list_elem_of_bind. split.
  - intros (e & Hn & He). apply list_elem_of_filter in He as [Hsel He].
    apply list_elem_of_bind in Hn as (n & Hf & Hn).
    apply list_elem_of_filter in Hn as [Hjoin Hn].
    apply list_elem_of_singleton in Hf. by exists e, n.
  - intros (e & n & He & Hsel & Hn & Hjoin & ->). exists e. split.
    + apply list_elem_of_bind. exists n. split; [left|].
      by apply list_elem_of_filter.
    + by apply list_elem_of_filter.
Qed.

(** What one selected edge contributes to the occurrences of [other]. *)
Lemma joined_rows_count (e : edge_row) (other : string)
    (rows : list node_row) :
  length (filter (λ found, r_id found = other)
            (n ← filter (edge_joins e) rows; [related_of n]))
  = if decide (e_to_id e = other ∨ e_from_id e = other)
    then length (filter (λ n, n_id n = other) rows)
    else 0%nat.
Proof.
  induction rows as [|n rows IH]; [by case_decide|].
  rewrite (filter_cons (λ n, n_id n = other)).
  rewrite filter_cons. destruct (decide (edge_joins e n)) as [Hj|Hj].
  - rewrite bind_cons, filter_app, length_app, IH.
    rewrite filter_cons. cbn [related_of r_id].
    destruct (decide (n_id n = other)) as [Hn|Hn],
      (decide (e_to_id e = other ∨ e_from_id e = other)) as [Ho|Ho];
      cbn [length filter list_filter]; try lia.
    exfalso. apply Ho. unfold edge_joins in Hj. by rewrite <- Hn.
  - rewrite IH.
    destruct (decide (n_id n = other)) as [Hn|Hn],
      (decide (e_to_id e = other ∨ e_from_id e = other)) as [Ho|Ho];
      cbn [length]; try lia.
    exfalso. apply Hj. unfold edge_joins. by rewrite Hn.
Qed.

Lemma selected_links (e : edge_row) (other : string) :
  other ≠ node_id → edge_selected node_id relationship e →
  (e_to_id e = other ∨ e_from_id e = other) ↔ links node_id other e.
Proof.
  unfold edge_selected, links. intros Hne [Hinc _]. split.
  - intros [Ho|Ho]; destruct Hinc as [Hi|Hi]; try congruence; tauto.
  - tauto.
Qed.

Lemma select_related_count (other : string) :
  other ≠ node_id →
  length (filter (λ found, r_id found = other)
            (select_related node_id relationship w))
  = (length (filter (λ n, n_id n = other) (nodes w))
     * length (filter (λ e, edge_selected node_id relationship e
                            ∧ links node_id other e) (edges w)))%nat.
Proof.
  intros Hne. unfold select_related.
  induction (edges w) as [|e rows IH]; [cbn; lia|].
  rewrite !filter_cons.
  destruct (decide (edge_selected node_id relationship e)) as [Hsel|Hsel].
  - rewrite bind_cons, filter_app, length_app, IH, joined_rows_count.
    destruct (decide (e_to_id e = other ∨ e_from_id e = other)) as [Ho|Ho].
    + rewrite decide_True by (split; [done|by apply selected_links]).
      cbn [length]. lia.
    + rewrite decide_False; [done|]. intros [_ Hl]. by apply selected_links in Hl.
  - rewrite decide_False by (by intros [? _]). done.
Qed.

End RelatedFacts.

(** C9, as the claim states it, fails on a store with nodes A and B and the
    edges A→B of two relationships: the result for A holds four entries, B
    twice and the queried node A itself twice. *)
Lemma find_related_counterexample :
  let w := World [NodeRow "A" "Document" ∅ 0 0; NodeRow "B" "Concept" ∅ 0 0]
                 [EdgeRow 1 "A" "B" "ABOUT" ∅ 0;
                  EdgeRow 2 "A" "B" "EXPLAINS" ∅ 0] 0 [] in
  r_id <$> select_related "A" None w = ["A"; "B"; "A"; "B"]
  ∧ find_related "A" None w = (w, Returned (select_related "A" None w))
  ∧ ¬ NoDup (r_id <$> select_related "A" None w).
Proof.
  intros w.
  assert (r_id <$> select_related "A" None w = ["A"; "B"; "A"; "B"]) as Hids
    by (by vm_compute).
  split; [exact Hids|]. split; [done|].
  rewrite Hids. intros Hnd.
  apply NoDup_cons in Hnd as [Ha _]. apply Ha. right. left.
Qed.

(** C9, amended. [find_related] returns a list and leaves the store as it
    is.  Every entry is a stored node.  A node other than the queried one
    is in the list exactly when it is stored and linked to the queried node
    by a selected edge (one that has the queried node at an end and, when a
    non-empty relationship is supplied, that relationship), and it occurs
    once for each such edge (times the number of rows that carry its id,
    which the primary key keeps at one), so a node id can occur more than
    once.  Nothing is said of entries for the queried node itself. *)
Theorem find_related_lists_linked_nodes (w : world) (node_id : string)
    (relationship : option string) (other : string) :
  other ≠ node_id →
  ∃ found : list related_node,
    find_related node_id relationship w = (w, Returned found)
    ∧ (∀ entry, entry ∈ found → ∃ n, n ∈ nodes w ∧ entry = related_of n)
    ∧ (other ∈ r_id <$> found
       ↔ other ∈ n_id <$> nodes w
         ∧ ∃ e, e ∈ edges w ∧ edge_selected node_id relationship e
                ∧ links node_id other e)
    ∧ length (filter (λ entry, r_id entry = other) found)
      = (length (filter (λ n, n_id n = other) (nodes w))
         * length (filter (λ e, edge_selected node_id relationship e
                                ∧ links node_id other e) (edges w)))%nat.
Proof.
  intros Hne. exists (select_related node_id relationship w).
  split; [done|]. split; [|split].
  - intros entry Hentry.
    apply select_related_elem in Hentry as (e & n & _ & _ & Hn & _ & ->).
    by exists n.
  - rewrite !list_elem_of_fmap. split.
    + intros (entry & -> & Hentry).
      apply select_related_elem in Hentry
        as (e & n & He & Hsel & Hn & Hjoin & ->).
      cbn [related_of r_id] in *. split; [by exists n|].
      exists e. split; [done|]. split; [done|].
      by apply (selected_links node_id relationship e (n_id n)).
    + intros [(n & -> & Hn) (e & He & Hsel & Hl)].
      exists (related_of n). split; [done|].
      apply select_related_elem. exists e, n.
      repeat (split; [done|]). split; [|done].
      by apply (selected_links node_id relationship e (n_id n)) in Hl.
  - by apply select_related_count.
Qed.

Lemma find_related_lists_linked_nodes_witness :
  let w := World [NodeRow "A" "Document" ∅ 0 0; NodeRow "B" "Concept" ∅ 0 0]
                 [EdgeRow 1 "A" "B" "ABOUT" ∅ 0;
                  EdgeRow 2 "A" "B" "EXPLAINS" ∅ 0] 0 [] in
  "B" ≠ "A"
  ∧ ∃ found : list related_node,
      find_related "A" None w = (w, Returned found)
      ∧ length (filter (λ entry, r_id entry = "B") found)
        = (length (filter (λ n, n_id n = "B") (nodes w))
           * length (filter (λ e, edge_selected "A" None e ∧ links "A" "B" e)
                       (edges w)))%nat.
Proof.
  intros w.
  assert ("B" ≠ "A") as Hne by discriminate.
  split; [exact Hne|].
  destruct (find_related_lists_linked_nodes w "A" None "B" Hne)
    as (found & Hrun & _ & _ & Hcount).
  by exists found.
Defined.

(** * Running the handlers step by step *)

Section RunFacts.

Context {A B : Type}.
Implicit Types (w : world) (k : A → M B).

Lemma run_ret (a : A) k w : bind (ret a) k w = k a w.
Proof. done. Qed.

Lemma run_raise (x : exn) k w : bind (raise x) k w = (w, Raised x).
Proof. done. Qed.

Lemma run_query (q : world → A) k w : bind (query q) k w = k (q w) w.
Proof. done. Qed.

Lemma run_bind {C} (c : M C) (k1 : C → M A) k w :
  bind (bind c k1) k w = bind c (λ x, bind (k1 x) k) w.
Proof. unfold bind. by destruct (c w) as [w' [x|x]]. Qed.

End RunFacts.

Section RunUnitFacts.

Context {B : Type}.
Implicit Types (w : world) (k : unit → M B).

Lemma run_print line k w : bind (print line) k w = k tt (write_line line w).
Proof. done. Qed.

Lemma run_for_each_nil {C} (body : C → M unit) k w :
  bind (for_each [] body) k w = k tt w.
Proof. done. Qed.

Lemma run_for_each_cons {C} (x : C) (xs : list C) (body : C → M unit) k w :
  bind (for_each (x :: xs) body) k w
  = bind (body x) (λ _, bind (for_each xs body) k) w.
Proof. cbn [for_each]. by rewrite run_bind. Qed.

Lemma run_update_node node_id (properties : pydict) k w node :
  select_node node_id w = Some node →
  bind (update_node node_id properties) k w
  = k tt (update_node_row node_id (properties ∪ n_properties node) w).
Proof. intros Hn. by rewrite (bind_run _ _ _ _ _ (update_node_found _ _ _ _ Hn)). Qed.

End RunUnitFacts.

Create Rewrite HintDb py_run.
#[local] Hint Rewrite @run_ret @run_raise @run_query @run_bind
  @run_for_each_nil @run_for_each_cons : py_run.

(** What the statements leave alone. *)
Section FrameFacts.

Implicit Types (w : world).

Lemma nodes_write_line line w : nodes (write_line line w) = nodes w.
Proof. done. Qed.
Lemma now_write_line line w : now (write_line line w) = now w.
Proof. done. Qed.
Lemma select_node_write_line line w j :
  select_node j (write_line line w) = select_node j w.
Proof. done. Qed.

Lemma now_insert_or_replace_node i type (properties : pydict) w :
  now (insert_or_replace_node i type properties w) = now w.
Proof. done. Qed.

Lemma nodes_insert_or_ignore_edge f t r (properties : pydict) w :
  nodes (insert_or_ignore_edge f t r properties w) = nodes w.
Proof. unfold insert_or_ignore_edge. by case_decide. Qed.
Lemma now_insert_or_ignore_edge f t r (properties : pydict) w :
  now (insert_or_ignore_edge f t r properties w) = now w.
Proof. unfold insert_or_ignore_edge. by case_decide. Qed.
Lemma select_node_insert_or_ignore_edge f t r (properties : pydict) w j :
  select_node j (insert_or_ignore_edge f t r properties w) = select_node j w.
Proof. unfold select_node. by rewrite nodes_insert_or_ignore_edge. Qed.

Lemma now_update_node_row i (properties : pydict) w :
  now (update_node_row i properties w) = now w.
Proof. done. Qed.

Lemma node_ids_insert_or_replace_node i type (properties : pydict) w j :
  j ∈ n_id <$> nodes (insert_or_replace_node i type properties w)
  ↔ j = i ∨ j ∈ n_id <$> nodes w.
Proof.
  unfold insert_or_replace_node. cbn [nodes].
  rewrite fmap_app, elem_of_app, list_fmap_singleton, list_elem_of_singleton.
  cbn [n_id]. rewrite !list_elem_of_fmap. split.
  - intros [(r & -> & Hr)| ->]; [|by left].
    apply list_elem_of_filter in Hr as [_ Hr]. right. by exists r.
  - intros [-> |(r & -> & Hr)]; [by right|].
    destruct (decide (n_id r = i)) as [Hi|Hi]; [by right|].
    left. exists r. split; [done|]. by apply list_elem_of_filter.
Qed.

Lemma node_ids_update_node_row i (properties : pydict) w :
  n_id <$> nodes (update_node_row i properties w) = n_id <$> nodes w.
Proof.
  unfold update_node_row. cbn [nodes]. rewrite <- list_fmap_compose.
  apply list_fmap_ext. intros ? r _. cbn. by case_decide.
Qed.

End FrameFacts.

Lemma Permutation_two {A} (a b : A) (l : list A) :
  l ≡ₚ [a; b] → l = [a; b] ∨ l = [b; a].
Proof.
  intros Hl. symmetry in Hl.
  apply Permutation_cons_inv_l in Hl as (l1 & l2 & -> & Hl).
  apply Permutation_singleton_l in Hl.
  destruct l1 as [|x [|y l1]]; cbn in Hl; simplify_eq; tauto.
Qed.

(** The statements keep the constraints of the database. *)
Section ConstraintFacts.

Implicit Types (w : world).

Lemma unique_nodes_insert_or_replace_node i type (properties : pydict) w :
  unique_nodes w → unique_nodes (insert_or_replace_node i type properties w).
Proof.
  unfold unique_nodes, insert_or_replace_node. cbn [nodes]. intros Hw.
  rewrite fmap_app. apply NoDup_app. split; [|split].
  - induction (nodes w) as [|r rows IH]; [constructor|].
    rewrite fmap_cons in Hw. apply NoDup_cons in Hw as [Hr Hw].
    rewrite filter_cons. case_decide; [|by apply IH].
    rewrite fmap_cons. apply NoDup_cons. split; [|by apply IH].
    intros Hin. apply Hr. apply list_elem_of_fmap in Hin as (r' & -> & Hr').
    apply list_elem_of_filter in Hr' as [_ Hr'].
    by apply list_elem_of_fmap_2.
  - intros j Hj Hj'. apply list_elem_of_singleton in Hj'. subst j.
    apply list_elem_of_fmap in Hj as (r & Hi & Hr).
    apply list_elem_of_filter in Hr as [Hne _]. cbn in Hi. congruence.
  - apply NoDup_singleton.
Qed.

Lemma unique_nodes_insert_or_ignore_edge f t r (properties : pydict) w :
  unique_nodes w → unique_nodes (insert_or_ignore_edge f t r properties w).
Proof. unfold unique_nodes. by rewrite nodes_insert_or_ignore_edge. Qed.

Lemma unique_nodes_update_node_row i (properties : pydict) w :
  unique_nodes w → unique_nodes (update_node_row i properties w).
Proof. unfold unique_nodes. by rewrite node_ids_update_node_row. Qed.

End ConstraintFacts.

Section StraightLineFacts.

Implicit Types (w : world) (ss : list stmt).

Lemma now_apply_stmts ss w : now (apply_stmts ss w) = now_after ss (now w).
Proof.
  induction ss as [|s ss IH]; [done|].
  destruct s; cbn [apply_stmts foldr apply_stmt now_after];
    fold (apply_stmts ss w);
    rewrite ?now_write_line, ?now_insert_or_replace_node,
      ?now_insert_or_ignore_edge, ?now_update_node_row; done.
Qed.

Lemma select_node_apply_stmts ss w j :
  select_node j (apply_stmts ss w)
  = node_after ss j (now w) (select_node j w).
Proof.
  induction ss as [|s ss IH]; [done|].
  destruct s; cbn [apply_stmts foldr apply_stmt node_after];
    fold (apply_stmts ss w).
  - by rewrite select_node_write_line.
  - done.
  - rewrite select_node_insert_or_replace, now_apply_stmts.
    destruct (String.eqb_spec id j) as [->|Hne].
    + by rewrite decide_True.
    + by rewrite decide_False.
  - by rewrite select_node_insert_or_ignore_edge.
  - destruct (String.eqb_spec id j) as [->|Hne].
    + by rewrite select_node_update_node_row, now_apply_stmts, IH.
    + by rewrite select_node_update_node_row_ne.
  - by rewrite select_node_at_time.
Qed.

Lemma node_ids_apply_stmts ss w j :
  j ∈ n_id <$> nodes (apply_stmts ss w)
  ↔ j ∈ upserted ss ∨ j ∈ n_id <$> nodes w.
Proof.
  induction ss as [|s ss IH].
  - cbn. rewrite elem_of_nil. tauto.
  - destruct s; cbn [apply_stmts foldr apply_stmt upserted];
      fold (apply_stmts ss w);
      rewrite ?nodes_write_line, ?nodes_insert_or_ignore_edge,
        ?node_ids_update_node_row; try done.
    rewrite node_ids_insert_or_replace_node, elem_of_cons, IH. tauto.
Qed.

Lemma edge_keys_apply_stmts ss w k :
  k ∈ edge_key <$> edges (apply_stmts ss w)
  ↔ k ∈ linked ss ∨ k ∈ edge_key <$> edges w.
Proof.
  induction ss as [|s ss IH].
  - cbn. rewrite elem_of_nil. tauto.
  - destruct s; cbn [apply_stmts foldr apply_stmt linked];
      fold (apply_stmts ss w); try done.
    rewrite insert_or_ignore_edge_keys, elem_of_cons, IH. tauto.
Qed.

Lemma unique_nodes_apply_stmts ss w :
  unique_nodes w → unique_nodes (apply_stmts ss w).
Proof.
  intros Hw. induction ss as [|s ss IH]; [done|].
  destruct s; cbn [apply_stmts foldr apply_stmt]; fold (apply_stmts ss w).
  - done.
  - done.
  - by apply unique_nodes_insert_or_replace_node.
  - by apply unique_nodes_insert_or_ignore_edge.
  - by apply unique_nodes_update_node_row.
  - done.
Qed.

Lemma unique_edges_apply_stmts ss w :
  unique_edges w → unique_edges (apply_stmts ss w).
Proof.
  intros Hw. induction ss as [|s ss IH]; [done|].
  destruct s; cbn [apply_stmts foldr apply_stmt]; fold (apply_stmts ss w);
    try done.
  by apply insert_or_ignore_edge_unique.
Qed.

End StraightLineFacts.

(** Running a statement on a straight-line world extends the list. *)
Section StraightLineRuns.

Context {B : Type}.
Implicit Types (w : world) (ss : list stmt).

Lemma at_time_apply_stmts t ss w :
  at_time t (apply_stmts ss w) = apply_stmts (Clock t :: ss) w.
Proof. done. Qed.

Lemma line_print line (k : unit → M B) ss w :
  bind (print line) k (apply_stmts ss w)
  = k tt (apply_stmts (Line line :: ss) w).
Proof. done. Qed.

Lemma line_add_node node_type node_id (properties : pydict)
    (k : string → M B) ss w :
  bind (add_node node_type node_id properties) k (apply_stmts ss w)
  = k (node_type +:+ ":" +:+ node_id)
      (apply_stmts
         (Upsert (node_type +:+ ":" +:+ node_id) node_type properties :: ss)
         w).
Proof. done. Qed.

Lemma line_add_edge from_id to_id relationship (properties : pydict)
    (k : unit → M B) ss w :
  bind (add_edge from_id to_id relationship properties) k (apply_stmts ss w)
  = k tt (apply_stmts (Link from_id to_id relationship properties :: ss) w).
Proof. done. Qed.

Lemma line_update_node node_id (properties : pydict) (k : unit → M B) ss w
    node :
  node_after ss node_id (now w) (select_node node_id w) = Some node →
  bind (update_node node_id properties) k (apply_stmts ss w)
  = k tt (apply_stmts
            (Update node_id (properties ∪ n_properties node) :: ss) w).
Proof.
  intros Hn. rewrite <- select_node_apply_stmts in Hn.
  by rewrite (run_update_node _ _ _ _ _ Hn).
Qed.

End StraightLineRuns.

Lemma last_print line ss w :
  print line (apply_stmts ss w)
  = (apply_stmts (Line line :: ss) w, Returned tt).
Proof. done. Qed.

Ltac is_string_literal s :=
  lazymatch s with
  | EmptyString => idtac
  | String _ ?s' => is_string_literal s'
  end.

(** Evaluates [split] and [+:+] on string literals. *)
Ltac eval_strings_in H :=
  repeat once match type of H with
  | context [split ?c ?s] =>
      is_string_literal s;
      let v := eval vm_compute in (split c s) in
      progress change (split c s) with v in H
  | context [String.append ?a ?b] =>
      is_string_literal a; is_string_literal b;
      let v := eval vm_compute in (String.append a b) in
      progress change (String.append a b) with v in H
  end.

(** Runs straight-line handler code on a symbolic world. *)
Ltac run_statements_in H :=
  repeat once (progress (autorewrite with py_run in H;
                         rewrite ?@line_print, ?@line_add_node,
                           ?@line_add_edge, ?@last_print in H;
                         eval_strings_in H;
                         cbn [py_format py_iter comprehension py_getitem
                              assoc list_item lookup list_lookup] in H)).

(** Reads one row off a straight-line run. *)
Ltac read_node :=
  rewrite select_node_apply_stmts;
  cbn [node_after now_after String.eqb Ascii.eqb Bool.eqb fmap option_fmap
       option_map].

(** * Properties of the event handlers *)

Section OrderFacts.

Variable set_order : gset string → list string.
Hypothesis set_order_elements : ∀ s, set_order s ≡ₚ elements s.

Lemma set_order_two (a b : string) :
  a ≠ b → set_order {[a; b]} = [a; b] ∨ set_order {[a; b]} = [b; a].
Proof.
  intros Hab. apply Permutation_two. rewrite set_order_elements.
  rewrite elements_union_singleton by (by rewrite elem_of_singleton).
  by rewrite elements_singleton.
Qed.

Lemma set_order_one (a : string) : set_order {[a]} = [a].
Proof.
  apply Permutation_singleton_r.
  by rewrite set_order_elements, elements_singleton.
Qed.

End OrderFacts.

Lemma extract_concepts_example :
  extract_concepts_from_text "Storage API token error See docs/keboola/auth.md"
  = {["Concept:StorageAPI"; "Concept:Authentication"]}.
Proof.
  unfold extract_concepts_from_text.
  assert (snd <$> filter
            (λ kw, contains (lower kw.1)
                     (lower "Storage API token error See docs/keboola/auth.md")
                   = true) keywords
          = ["Concept:StorageAPI"; "Concept:Authentication"]) as ->
    by (vm_compute; reflexivity).
  cbn [list_to_set]. by rewrite (right_id_L ∅ (∪)).
Qed.

Lemma extract_files_example :
  extract_files_from_text "Storage API token error See docs/keboola/auth.md"
  = {["docs/keboola/auth.md"]}.
Proof.
  unfold extract_files_from_text.
  assert (findall match_file 0
            "Storage API token error See docs/keboola/auth.md"
          = ["docs/keboola/auth.md"]) as -> by (vm_compute; reflexivity).
  cbn [list_to_set]. by rewrite (right_id_L ∅ (∪)).
Qed.

(** C7. For every payload with the given title and body, an empty list of
    labels and the fields [html_url] and [created_at] present, for every
    order in which Python walks its sets and every store,
    [handle_issue_created 42] returns normally; afterwards node [Issue:42]
    holds the payload with status ["open"], the nodes
    [Concept:StorageAPI], [Concept:Authentication] and
    [Document:docs/keboola/auth.md] are stored, no other node id and no
    other edge has appeared, the edges that have appeared are the three
    [ABOUT] edges from [Issue:42], and the constraints of the database are
    kept (so that from an empty store these are all the nodes and edges). *)
Theorem issue_created_end_to_end (set_order : gset string → list string)
    (w : world) (issue_data : pydict) (url created : pyval) :
  (∀ s, set_order s ≡ₚ elements s) →
  issue_data !! "title" = Some (PStr "Storage API token error") →
  issue_data !! "body" = Some (PStr "See docs/keboola/auth.md") →
  issue_data !! "labels" = Some (PList []) →
  issue_data !! "html_url" = Some url →
  issue_data !! "created_at" = Some created →
  let run := handle_issue_created set_order 42 issue_data w in
  run.2 = Returned tt
  ∧ select_node "Issue:42" run.1
    = Some (NodeRow "Issue:42" "Issue"
              (kwargs [("number", PInt 42);
                       ("title", PStr "Storage API token error");
                       ("body", PStr "See docs/keboola/auth.md");
                       ("status", PStr "open"); ("labels", PList []);
                       ("url", url); ("created_at", created)])
              (now w) (now w))
  ∧ select_node "Concept:StorageAPI" run.1
    = Some (NodeRow "Concept:StorageAPI" "Concept"
              (kwargs [("name", PStr "StorageAPI")]) (now w) (now w))
  ∧ select_node "Concept:Authentication" run.1
    = Some (NodeRow "Concept:Authentication" "Concept"
              (kwargs [("name", PStr "Authentication")]) (now w) (now w))
  ∧ select_node "Document:docs/keboola/auth.md" run.1
    = Some (NodeRow "Document:docs/keboola/auth.md" "Document"
              (kwargs [("path", PStr "docs/keboola/auth.md")])
              (now w) (now w))
  ∧ (∀ id, id ∈ n_id <$> nodes run.1
           ↔ id ∈ ["Issue:42"; "Concept:StorageAPI";
                   "Concept:Authentication";
                   "Document:docs/keboola/auth.md"]
             ∨ id ∈ n_id <$> nodes w)
  ∧ (∀ k, k ∈ edge_key <$> edges run.1
          ↔ k ∈ [("Issue:42", "Concept:StorageAPI", "ABOUT");
                 ("Issue:42", "Concept:Authentication", "ABOUT");
                 ("Issue:42", "Document:docs/keboola/auth.md", "ABOUT")]
            ∨ k ∈ edge_key <$> edges w)
  ∧ (unique_nodes w → unique_nodes run.1)
  ∧ (unique_edges w → unique_edges run.1).
Proof.
  intros Horder Htitle Hbody Hlabels Hurl Hcreated run.
  assert (run = handle_issue_created set_order 42 issue_data
                  (apply_stmts [] w)) as Hrun by done.
  clearbody run.
  unfold handle_issue_created, label_names, title_and_body, subscript,
    dict_get in Hrun.
  rewrite Htitle, Hbody, Hlabels, Hurl, Hcreated in Hrun.
  assert (pretty 42 = "42") as Hp by (vm_compute; reflexivity).
  rewrite Hp in Hrun. run_statements_in Hrun.
  rewrite extract_concepts_example, extract_files_example in Hrun.
  rewrite (set_order_one _ Horder) in Hrun.
  destruct (set_order_two set_order Horder "Concept:StorageAPI"
              "Concept:Authentication") as [Ho|Ho]; [discriminate|..];
    rewrite Ho in Hrun; run_statements_in Hrun; subst run; cbn [fst snd].
  all: split; [done|].
  all: do 4 (split; [by read_node|]).
  all: split; [intros id; rewrite node_ids_apply_stmts; cbn [upserted];
               rewrite !elem_of_cons, !elem_of_nil; tauto|].
  all: split; [intros k; rewrite edge_keys_apply_stmts; cbn [linked];
               rewrite !elem_of_cons, !elem_of_nil; tauto|].
  all: split; [apply unique_nodes_apply_stmts|apply unique_edges_apply_stmts].
Qed.

Lemma issue_created_end_to_end_witness :
  let issue_data :=
    kwargs [("title", PStr "Storage API token error");
            ("body", PStr "See docs/keboola/auth.md");
            ("labels", PList []);
            ("html_url", PStr "https://github.com/keboola/xmas/issues/42");
            ("created_at", PStr "2025-12-01T08:00:00Z")] in
  (∀ s : gset string, elements s ≡ₚ elements s)
  ∧ issue_data !! "title" = Some (PStr "Storage API token error")
  ∧ issue_data !! "body" = Some (PStr "See docs/keboola/auth.md")
  ∧ issue_data !! "labels" = Some (PList [])
  ∧ (handle_issue_created elements 42 issue_data (empty_world 0)).2
    = Returned tt.
Proof.
  intros issue_data.
  assert (∀ s : gset string, elements s ≡ₚ elements s) as Horder
    by (intros s; reflexivity).
  split; [exact Horder|].
  do 3 (split; [reflexivity|]).
  apply (issue_created_end_to_end elements (empty_world 0) issue_data
           (PStr "https://github.com/keboola/xmas/issues/42")
           (PStr "2025-12-01T08:00:00Z") Horder eq_refl eq_refl eq_refl
           eq_refl eq_refl).
Defined.

(** * The merge cascade *)

Section CascadeFacts.

Implicit Types (w : world) (ss : list stmt).

Lemma write_lines_nil w : write_lines [] w = w.
Proof. destruct w. unfold write_lines. cbn. by rewrite app_nil_r. Qed.

Lemma for_each_print {A} (xs : list A) (f : A → string) w :
  for_each xs (λ x, print (f x)) w = (write_lines (f <$> xs) w, Returned tt).
Proof.
  revert w. induction xs as [|x xs IH]; intros w.
  - cbn. by rewrite write_lines_nil.
  - cbn [for_each]. rewrite run_print, IH.
    unfold write_lines, write_line. cbn. by rewrite <- app_assoc.
Qed.

Lemma line_for_each_print {A B} (xs : list A) (f : A → string)
    (k : unit → M B) ss w :
  bind (for_each xs (λ x, print (f x))) k (apply_stmts ss w)
  = k tt (apply_stmts (Lines (f <$> xs) :: ss) w).
Proof. by rewrite (bind_run _ _ _ _ _ (for_each_print _ _ _)). Qed.

Lemma find_dependents_runs w node_id max_depth :
  ∃ dependents : list string,
    ∀ B (k : list string → M B),
      bind (find_dependents node_id max_depth) k w = k dependents w.
Proof.
  destruct (select_dependents_is_Some w node_id max_depth) as [ds Hds].
  exists ds. intros B k.
  by rewrite (bind_run _ _ _ _ _ (find_dependents_run _ _ _ _ Hds)).
Qed.

Lemma NoDup_fmap_elem_inj {A B} (f : A → B) (l : list A) (x y : A) :
  NoDup (f <$> l) → x ∈ l → y ∈ l → f x = f y → x = y.
Proof.
  induction l as [|z l IH]; intros Hnd Hx Hy Hxy.
  - by apply elem_of_nil in Hx.
  - rewrite fmap_cons in Hnd. apply NoDup_cons in Hnd as [Hz Hnd].
    apply elem_of_cons in Hx as [->|Hx]; apply elem_of_cons in Hy as [->|Hy].
    + done.
    + exfalso. apply Hz. rewrite Hxy. by apply list_elem_of_fmap_2.
    + exfalso. apply Hz. rewrite <- Hxy. by apply list_elem_of_fmap_2.
    + by apply IH.
Qed.

Lemma select_node_elem node_id w node :
  select_node node_id w = Some node → node ∈ nodes w ∧ n_id node = node_id.
Proof.
  unfold select_node. intros Hn. apply head_Some_elem_of in Hn.
  apply list_elem_of_filter in Hn as [? ?]. done.
Qed.

(** A query that selects the single edge [a → b] returns the rows of [a]
    and [b], in some order. *)
Lemma select_related_two_ends w node_id relationship a b r na nb :
  unique_nodes w → unique_edges w →
  (a, b, r) ∈ edge_key <$> edges w →
  (∀ e, e ∈ edges w →
        edge_selected node_id relationship e → edge_key e = (a, b, r)) →
  (∀ e, edge_key e = (a, b, r) → edge_selected node_id relationship e) →
  a ≠ b →
  select_node a w = Some na → select_node b w = Some nb →
  select_related node_id relationship w ≡ₚ [related_of na; related_of nb].
Proof.
  intros Hnodes Hedges Hin Honly Hsel Hab Ha Hb.
  apply list_elem_of_fmap in Hin as (e0 & Hk0 & He0).
  assert (filter (edge_selected node_id relationship) (edges w) ≡ₚ [e0])
    as Hone.
  { apply NoDup_Permutation.
    - apply NoDup_filter. by apply (NoDup_fmap_1 edge_key).
    - apply NoDup_singleton.
    - intros e. rewrite list_elem_of_filter, list_elem_of_singleton. split.
      + intros [He Hin]. apply (NoDup_fmap_elem_inj edge_key (edges w)); try done.
        rewrite <- Hk0. by apply Honly.
      + intros ->. split; [|done]. apply Hsel. by rewrite Hk0. }
  apply Permutation_singleton_r in Hone.
  unfold select_related. rewrite Hone. cbn [mbind list_bind]. rewrite app_nil_r.
  apply select_node_elem in Ha as [Ha Hida], Hb as [Hb Hidb].
  assert (e_from_id e0 = a ∧ e_to_id e0 = b) as [Hfrom Hto].
  { unfold edge_key in Hk0. by simplify_eq. }
  transitivity (related_of <$> filter (edge_joins e0) (nodes w)).
  { induction (filter (edge_joins e0) (nodes w)) as [|n l IH]; [done|].
    cbn. by rewrite IH. }
  change [related_of na; related_of nb] with (related_of <$> [na; nb]).
  apply fmap_Permutation. apply NoDup_Permutation.
  - apply NoDup_filter. by apply (NoDup_fmap_1 n_id).
  - apply NoDup_cons. split; [|apply NoDup_singleton].
    rewrite list_elem_of_singleton. intros ->. congruence.
  - intros n. rewrite list_elem_of_filter, !elem_of_cons, elem_of_nil.
    unfold edge_joins. rewrite Hfrom, Hto. split.
    + intros [[Hn|Hn] Hin].
      * right. left. apply (NoDup_fmap_elem_inj n_id (nodes w)); try done.
        congruence.
      * left. apply (NoDup_fmap_elem_inj n_id (nodes w)); try done.
        congruence.
    + intros [->|[->|[]]]; split; auto.
Qed.

End CascadeFacts.

Lemma dict_get_Some (d : pydict) (key : string) (default v : pyval) :
  d !! key = Some v → dict_get d key default = v.
Proof. unfold dict_get. by intros ->. Qed.

(** After a straight-line run on a store in which no edge touches
    [node_id], a query that selects one of the inserted edges, [a → b],
    returns the rows of [a] and [b]. *)
Lemma select_related_after (ss : list stmt) (w : world)
    (node_id : string) (relationship : option string) (a b r : string)
    (na nb : node_row) :
  unique_nodes w → unique_edges w →
  (∀ e, e ∈ edges w → e_from_id e ≠ node_id ∧ e_to_id e ≠ node_id) →
  (a, b, r) ∈ linked ss →
  Forall (λ k, key_selected node_id relationship k → k = (a, b, r))
         (linked ss) →
  key_selected node_id relationship (a, b, r) →
  a ≠ b →
  node_after ss a (now w) (select_node a w) = Some na →
  node_after ss b (now w) (select_node b w) = Some nb →
  select_related node_id relationship (apply_stmts ss w)
  ≡ₚ [related_of na; related_of nb].
Proof.
  intros Hnodes Hedges Hfree Hin Honly Hsel Hab Ha Hb.
  apply (select_related_two_ends _ _ _ a b r).
  - by apply unique_nodes_apply_stmts.
  - by apply unique_edges_apply_stmts.
  - apply edge_keys_apply_stmts. by left.
  - intros e He Hse.
    assert (key_selected node_id relationship (edge_key e)) as Hk by exact Hse.
    apply (list_elem_of_fmap_2 edge_key) in He.
    apply edge_keys_apply_stmts in He as [He|He].
    + rewrite Forall_forall in Honly. by apply Honly.
    + apply list_elem_of_fmap in He as (e' & Hkey & He').
      destruct (Hfree e' He') as [Hf Ht]. destruct Hk as [[Hk|Hk] _];
        rewrite Hkey in Hk; cbn in Hk; congruence.
  - intros e Hkey. unfold key_selected in Hsel. rewrite <- Hkey in Hsel.
    exact Hsel.
  - done.
  - by rewrite select_node_apply_stmts.
  - by rewrite select_node_apply_stmts.
Qed.

Lemma edges_apply_stmts_unlinked (s : stmt) (ss : list stmt) (w : world) :
  linked [s] = [] →
  edges (apply_stmts (s :: ss) w) = edges (apply_stmts ss w).
Proof. by destruct s. Qed.

Lemma status_overlay (status : pyval) (properties : pydict) :
  kwargs [("status", status)] ∪ properties = <["status" := status]> properties.
Proof.
  unfold kwargs. rewrite list_to_map_cons, list_to_map_nil, insert_empty.
  symmetry. apply insert_union_singleton_l.
Qed.

(** Closing an issue after a straight-line run overlays its status. *)
Lemma issue_closed_row (ss : list stmt) (w : world) (issue : node_row) :
  node_after ss "Issue:42" (now w) (select_node "Issue:42" w) = Some issue →
  select_node "Issue:42" (handle_issue_closed 42 (apply_stmts ss w)).1
  = Some (NodeRow "Issue:42" (n_type issue)
            (kwargs [("status", PStr "closed")] ∪ n_properties issue)
            (n_created_at issue) (now_after ss (now w))).
Proof.
  intros Hissue.
  assert (pretty 42 = "42") as Hp by (vm_compute; reflexivity).
  assert (n_id issue = "Issue:42") as Hid.
  { apply (select_node_id _ (apply_stmts ss w)).
    by rewrite select_node_apply_stmts. }
  assert (∃ run, run = handle_issue_closed 42 (apply_stmts ss w))
    as [run Hrun] by by eexists.
  rewrite <- Hrun. unfold handle_issue_closed in Hrun. rewrite Hp in Hrun.
  run_statements_in Hrun.
  erewrite line_update_node in Hrun by (cbn [node_after]; exact Hissue).
  run_statements_in Hrun. subst run. cbn [fst].
  rewrite select_node_apply_stmts.
  cbn [node_after now_after String.eqb Ascii.eqb Bool.eqb].
  rewrite Hissue. cbn [fmap option_fmap option_map]. by rewrite Hid.
Qed.

Ltac cascade_steps Hm Hid Htype Hnumber Hissue :=
  repeat once first
    [ progress run_statements_in Hm
    | progress cbn [related_of r_id r_type r_properties n_id n_type
                    n_properties n_created_at length for_fold] in Hm
    | rewrite Htype in Hm
    | rewrite Hid in Hm
    | rewrite Hnumber in Hm
    | rewrite bool_decide_eq_true_2 in Hm by reflexivity
    | rewrite bool_decide_eq_false_2 in Hm by discriminate
    | erewrite line_update_node in Hm
        by (cbn [node_after now_after String.eqb Ascii.eqb Bool.eqb fmap
                 option_fmap option_map];
            rewrite ?Hissue; reflexivity)
    | match type of Hm with
      | context [bind (find_dependents ?n ?d) _ ?W] =>
          let ds := fresh "dependents" in
          let Hds := fresh "Hds" in
          destruct (find_dependents_runs W n d) as [ds Hds];
          rewrite Hds in Hm; clear Hds
      end
    | rewrite line_for_each_print in Hm ].


(** Finds the rows a query returns after a straight-line run, in both
    orders. *)
Ltac related_rows Hm a b r Hissue :=
  match type of Hm with
  | context [select_related ?x ?rel (apply_stmts ?ss ?w0)] =>
      let Hrel := fresh "Hrel" in
      eassert (select_related x rel (apply_stmts ss w0)
               ≡ₚ [related_of _; related_of _]) as Hrel;
      [ apply (select_related_after ss w0 x rel a b r);
        [ assumption | assumption | assumption
        | cbn [linked]; rewrite !elem_of_cons; tauto
        | cbn [linked]; compute_done
        | compute_done
        | discriminate
        | cbn [node_after now_after String.eqb Ascii.eqb Bool.eqb fmap
               option_fmap option_map];
          rewrite ?Hissue; reflexivity
        | cbn [node_after now_after String.eqb Ascii.eqb Bool.eqb fmap
               option_fmap option_map];
          rewrite ?Hissue; reflexivity ]
      | apply Permutation_two in Hrel as [Hrel|Hrel];
        rewrite Hrel in Hm; clear Hrel ]
  end.


(** C6. Let the store hold node [Issue:42] of type [Issue] with status
    ["open"] (and the number the correlator gave it), and no edge that
    touches [PullRequest:7].  Let the payload of PR 7 have a title and a
    body in which the references found are exactly [#42], and a list of
    changed files that names [docs/keboola/auth.md].  Then
    [handle_pr_created 7] returns normally, stores [PullRequest:7] with
    status ["open"], and adds exactly the edges
    [Issue:42 --FIXED_BY--> PullRequest:7] and
    [PullRequest:7 --MODIFIES--> Document:docs/keboola/auth.md].  A later
    [handle_pr_merged 7], at any time and for any iteration order of sets,
    returns normally, leaves [PullRequest:7] with status ["merged"], and
    leaves [Issue:42] with status ["closed"], every other property, the id,
    the type and the creation time as before: the very row that
    [handle_issue_closed 42] would have left.  The merge adds no edge. *)
Theorem pr_merge_cascade (set_order : gset string → list string) (w : world)
    (issue : node_row) (number : Z) (pr_data : pydict) (title body : string)
    (url created : pyval) (file_info : list (string * pyval)) (t : Z) :
  unique_nodes w → unique_edges w →
  select_node "Issue:42" w = Some issue →
  n_type issue = "Issue" →
  n_properties issue !! "status" = Some (PStr "open") →
  n_properties issue !! "number" = Some (PInt number) →
  (∀ e, e ∈ edges w →
        e_from_id e ≠ "PullRequest:7" ∧ e_to_id e ≠ "PullRequest:7") →
  pr_data !! "title" = Some (PStr title) →
  pr_data !! "body" = Some (PStr body) →
  findall match_fixes 0 (lower (title +:+ " " +:+ body)) = ["42"] →
  pr_data !! "html_url" = Some url →
  pr_data !! "created_at" = Some created →
  pr_data !! "changed_files" = Some (PList [PDict file_info]) →
  assoc "filename" file_info = Some (PStr "docs/keboola/auth.md") →
  let created_run := handle_pr_created 7 pr_data w in
  let merged_run := handle_pr_merged set_order 7 (at_time t created_run.1) in
  created_run.2 = Returned tt
  ∧ (∀ k, k ∈ edge_key <$> edges created_run.1
          ↔ k ∈ [("PullRequest:7", "Document:docs/keboola/auth.md",
                  "MODIFIES");
                 ("Issue:42", "PullRequest:7", "FIXED_BY")]
            ∨ k ∈ edge_key <$> edges w)
  ∧ (∃ properties : pydict,
       select_node "PullRequest:7" created_run.1
       = Some (NodeRow "PullRequest:7" "PullRequest" properties (now w)
                       (now w))
       ∧ properties !! "status" = Some (PStr "open"))
  ∧ merged_run.2 = Returned tt
  ∧ (∃ properties : pydict,
       select_node "PullRequest:7" merged_run.1
       = Some (NodeRow "PullRequest:7" "PullRequest" properties (now w) t)
       ∧ properties !! "status" = Some (PStr "merged"))
  ∧ select_node "Issue:42" merged_run.1
    = Some (NodeRow "Issue:42" "Issue"
              (<["status" := PStr "closed"]> (n_properties issue))
              (n_created_at issue) t)
  ∧ select_node "Issue:42" merged_run.1
    = select_node "Issue:42"
        (handle_issue_closed 42 (at_time t created_run.1)).1
  ∧ edges merged_run.1 = edges created_run.1.
Proof.
  intros Hnodes Hedges Hissue Htype Hstatus Hnumber Hfree Htitle Hbody Hfixes
    Hurl Hcreated Hfiles Hfile created_run merged_run.
  assert (pretty 7 = "7") as Hp7 by (vm_compute; reflexivity).
  assert (pretty 2%nat = "2") as Hp2 by (vm_compute; reflexivity).
  assert (n_id issue = "Issue:42") as Hid by by apply (select_node_id _ w).
  assert (created_run = handle_pr_created 7 pr_data (apply_stmts [] w))
    as Hrun by done.
  clearbody created_run.
  unfold handle_pr_created, title_and_body, subscript in Hrun.
  rewrite Htitle, Hurl, Hcreated, Hfiles, Hp7 in Hrun.
  rewrite !(dict_get_Some _ _ _ _ Hbody) in Hrun.
  run_statements_in Hrun. rewrite Hfixes in Hrun.
  run_statements_in Hrun. rewrite Hfile in Hrun. run_statements_in Hrun.
  subst created_run. cbn [fst snd] in merged_run |- *.
  split; [done|].
  split.
  { intros k. rewrite edge_keys_apply_stmts. cbn [linked]. done. }
  split.
  { eexists. split; [read_node; reflexivity|].
    unfold kwargs. rewrite !list_to_map_cons.
    by do 3 (rewrite lookup_insert_ne by discriminate). }
  rewrite at_time_apply_stmts.
  assert (merged_run = merged_run) as Hm by done.
  unfold merged_run at 2 in Hm. clearbody merged_run.
  rewrite at_time_apply_stmts in Hm.
  unfold handle_pr_merged, find_related, subscript in Hm. rewrite Hp7 in Hm.
  cascade_steps Hm Hid Htype Hnumber Hissue.
  related_rows Hm "Issue:42" "PullRequest:7" "FIXED_BY" Hissue;
    cascade_steps Hm Hid Htype Hnumber Hissue;
    (related_rows Hm "PullRequest:7" "Document:docs/keboola/auth.md"
       "MODIFIES" Hissue);
    cascade_steps Hm Hid Htype Hnumber Hissue;
    rewrite Hp2 in Hm;
    cascade_steps Hm Hid Htype Hnumber Hissue;
    destruct (bool_decide _) in Hm;
    cascade_steps Hm Hid Htype Hnumber Hissue;
    subst merged_run; cbn [fst snd].
  all: split; [done|].
  all: split;
    [eexists; split; [read_node; reflexivity|];
     apply lookup_union_Some_l; unfold kwargs;
     rewrite list_to_map_cons; apply lookup_insert_eq|].
  all: split;
    [read_node; rewrite Hissue; cbn [fmap option_fmap option_map];
     by rewrite Hid, Htype, status_overlay|].
  all: split;
    [read_node; rewrite Hissue; cbn [fmap option_fmap option_map];
     erewrite issue_closed_row
       by (cbn [node_after now_after String.eqb Ascii.eqb Bool.eqb];
           exact Hissue);
     by rewrite Hid|].
  all: rewrite !edges_apply_stmts_unlinked by reflexivity; reflexivity.
Qed.

Lemma pr_merge_cascade_witness :
  let issue :=
    NodeRow "Issue:42" "Issue"
      (kwargs [("number", PInt 42); ("title", PStr "Token rejected");
               ("status", PStr "open")]) 0 0 in
  let w := World [issue] [] 1 [] in
  let pr_data :=
    kwargs [("title", PStr "Fix auth docs"); ("body", PStr "fixes #42");
            ("html_url", PStr "https://github.com/keboola/xmas/pull/7");
            ("created_at", PStr "2025-12-02T09:00:00Z");
            ("changed_files",
             PList [PDict [("filename", PStr "docs/keboola/auth.md")]])] in
  select_node "Issue:42" w = Some issue
  ∧ findall match_fixes 0 (lower ("Fix auth docs" +:+ " " +:+ "fixes #42"))
    = ["42"]
  ∧ (handle_pr_merged elements 7
       (at_time 2 (handle_pr_created 7 pr_data w).1)).2 = Returned tt.
Proof.
  intros issue w pr_data.
  assert (findall match_fixes 0
            (lower ("Fix auth docs" +:+ " " +:+ "fixes #42")) = ["42"])
    as Hfixes by (vm_compute; reflexivity).
  assert (unique_nodes w) as Hnodes by apply NoDup_singleton.
  assert (unique_edges w) as Hedges by apply NoDup_nil_2.
  assert (∀ e, e ∈ edges w →
               e_from_id e ≠ "PullRequest:7" ∧ e_to_id e ≠ "PullRequest:7")
    as Hfree by (intros e He; by apply elem_of_nil in He).
  split; [reflexivity|]. split; [exact Hfixes|].
  apply (pr_merge_cascade elements w issue 42 pr_data "Fix auth docs"
           "fixes #42" (PStr "https://github.com/keboola/xmas/pull/7")
           (PStr "2025-12-02T09:00:00Z")
           [("filename", PStr "docs/keboola/auth.md")] 2
           Hnodes Hedges eq_refl eq_refl eq_refl eq_refl Hfree eq_refl
           eq_refl Hfixes eq_refl eq_refl eq_refl eq_refl).
Defined.

(** * Further properties of the graph store *)

(** X1. Looking up a node right after upserting it gives the row just
    written: the id, the type, the properties and both timestamps at the
    time of the call.  Any other id is looked up as before the upsert. *)
Theorem get_node_after_add_node (w : world) (node_type node_id : string)
    (properties : pydict) (other : string) :
  let full_id := node_type +:+ ":" +:+ node_id in
  let run := add_node node_type node_id properties w in
  get_node full_id run.1
  = (run.1, Returned (Some (NodeRow full_id node_type properties (now w)
                                    (now w))))
  ∧ (other ≠ full_id →
     get_node other run.1 = (run.1, Returned (select_node other w))).
Proof.
  intros full_id run. subst run. rewrite add_node_run. cbn [fst].
  unfold get_node, query. fold full_id. split.
  - by rewrite select_node_insert_or_replace, decide_True.
  - intros Hne. by rewrite select_node_insert_or_replace, decide_False.
Qed.

Lemma get_node_after_add_node_witness :
  let w := (add_node "Concept" "Flows" ∅ (empty_world 0)).1 in
  "Concept:Flows" ≠ "Issue:1"
  ∧ get_node "Concept:Flows"
      (add_node "Issue" "1" (kwargs [("title", PStr "A")]) (at_time 5 w)).1
    = ((add_node "Issue" "1" (kwargs [("title", PStr "A")]) (at_time 5 w)).1,
       Returned (select_node "Concept:Flows" (at_time 5 w))).
Proof.
  intros w.
  assert ("Concept:Flows" ≠ "Issue:1") as Hne by discriminate.
  split; [exact Hne|].
  exact (proj2 (get_node_after_add_node (at_time 5 w) "Issue" "1"
                  (kwargs [("title", PStr "A")]) "Concept:Flows") Hne).
Defined.

(** X2. Two merge-updates of a stored node, at any times, succeed and
    leave the node as one merge-update with the second mapping laid over
    the first would: later keys win, the creation time stays, and
    [updated_at] is the time of the second call. *)
Theorem update_node_twice_composes (w : world) (node_id : string)
    (P1 P2 : pydict) (node : node_row) (t : Z) :
  select_node node_id w = Some node →
  let first := update_node node_id P1 w in
  let second := update_node node_id P2 (at_time t first.1) in
  first.2 = Returned tt
  ∧ second.2 = Returned tt
  ∧ select_node node_id second.1
    = Some (NodeRow node_id (n_type node) (P2 ∪ P1 ∪ n_properties node)
                    (n_created_at node) t)
  ∧ select_node node_id second.1
    = select_node node_id (update_node node_id (P2 ∪ P1) (at_time t w)).1.
Proof.
  intros Hn first second. subst first second.
  assert (n_id node = node_id) as Hid by by apply (select_node_id _ w).
  rewrite (update_node_found _ _ _ _ Hn). cbn [fst snd].
  assert (select_node node_id
            (at_time t (update_node_row node_id (P1 ∪ n_properties node) w))
          = Some (NodeRow node_id (n_type node) (P1 ∪ n_properties node)
                          (n_created_at node) (now w))) as Hn1.
  { rewrite select_node_at_time, select_node_update_node_row, Hn. cbn.
    by rewrite Hid. }
  rewrite (update_node_found _ _ _ _ Hn1). cbn [fst snd n_properties].
  split; [done|]. split; [done|].
  assert (select_node node_id (at_time t w) = Some node) as Hn2 by done.
  rewrite (update_node_found _ _ _ _ Hn2). cbn [fst].
  rewrite !select_node_update_node_row, Hn1, Hn2. cbn.
  rewrite Hid, (assoc_L (∪)). done.
Qed.

Lemma update_node_twice_composes_witness :
  let w := (add_node "Issue" "1" (kwargs [("title", PStr "B")])
              (empty_world 0)).1 in
  select_node "Issue:1" w
  = Some (NodeRow "Issue:1" "Issue" (kwargs [("title", PStr "B")]) 0 0)
  ∧ (update_node "Issue:1" (kwargs [("status", PStr "closed")])
       (at_time 2 (update_node "Issue:1" (kwargs [("status", PStr "open")])
                     w).1)).2 = Returned tt.
Proof.
  intros w. split; [reflexivity|].
  apply (update_node_twice_composes w "Issue:1"
           (kwargs [("status", PStr "open")])
           (kwargs [("status", PStr "closed")])
           (NodeRow "Issue:1" "Issue" (kwargs [("title", PStr "B")]) 0 0) 2
           eq_refl).
Defined.

Section StatsFacts.

Implicit Types (w : world) (rows : list node_row).

Lemma count_by_type_lookup rows (node_type : string) :
  count_by_type rows !! node_type
  = match length (filter (λ r, n_type r = node_type) rows) with
    | O => None
    | S n => Some (S n)
    end.
Proof.
  induction rows as [|r rows IH]; [done|].
  cbn [count_by_type foldr]. fold (count_by_type rows).
  rewrite filter_cons. destruct (decide (n_type r = node_type)) as [->|Hne].
  - rewrite lookup_insert_eq, IH. cbn [length].
    by destruct (length (filter _ rows)).
  - by rewrite lookup_insert_ne.
Qed.

Lemma sum_counts_insert (type_counts : gmap string nat) (k : string)
    (count : nat) :
  (sum_counts (<[k := count]> type_counts)
   + default 0 (type_counts !! k)
   = count + sum_counts type_counts)%nat.
Proof.
  unfold sum_counts. destruct (type_counts !! k) as [old|] eqn:Hk.
  - rewrite <- insert_delete_eq.
    rewrite map_fold_insert_L; [|intros; lia|apply lookup_delete_eq].
    rewrite (map_fold_delete_L _ _ k old type_counts); [|intros; lia|done].
    cbn. lia.
  - rewrite map_fold_insert_L; [|intros; lia|done]. cbn. lia.
Qed.

Lemma sum_counts_by_type rows : sum_counts (count_by_type rows) = length rows.
Proof.
  induction rows as [|r rows IH]; [done|].
  cbn [count_by_type foldr length]. fold (count_by_type rows).
  pose proof (sum_counts_insert (count_by_type rows) (n_type r)
                (S (default 0%nat (count_by_type rows !! n_type r)))).
  lia.
Qed.

Lemma count_by_type_types rows rows' :
  n_type <$> rows = n_type <$> rows' → count_by_type rows = count_by_type rows'.
Proof.
  revert rows'. induction rows as [|r rows IH]; intros [|r' rows'] Heq;
    try done.
  rewrite !fmap_cons in Heq. injection Heq as Hr Hrows.
  cbn [count_by_type foldr]. fold (count_by_type rows) (count_by_type rows').
  by rewrite (IH rows' Hrows), Hr.
Qed.

Lemma length_filter_id rows (i : string) :
  NoDup (n_id <$> rows) →
  (length (filter (λ r, n_id r ≠ i) rows)
   + (if decide (i ∈ n_id <$> rows) then 1 else 0)
   = length rows)%nat.
Proof.
  induction rows as [|r rows IH]; intros Hnd; [done|].
  rewrite fmap_cons in Hnd. apply NoDup_cons in Hnd as [Hr Hnd].
  specialize (IH Hnd). rewrite filter_cons, fmap_cons.
  destruct (decide (n_id r ≠ i)) as [Hne|Heq].
  - cbn [length]. destruct (decide (i ∈ n_id <$> rows)) as [Hin|Hin].
    + rewrite decide_True by (by right). lia.
    + rewrite decide_False; [lia|].
      intros [->|?]%elem_of_cons; [congruence|done].
  - apply dec_stable in Heq. subst i.
    rewrite decide_True by left. rewrite decide_False in IH by done.
    cbn [length]. lia.
Qed.

End StatsFacts.

(** X3. [get_stats] reads the store without changing it.  The count it
    reports for a type is the number of rows [query_by_type] returns for
    that type, a type with no row is absent from the dictionary, and the
    counts add up to the total number of nodes. *)
Theorem get_stats_counts_rows_by_type (w : world) (node_type : string) :
  let s := select_stats w in
  get_stats w = (w, Returned s)
  ∧ total_nodes s = length (nodes w)
  ∧ total_edges s = length (edges w)
  ∧ nodes_by_type s !! node_type
    = match length (select_by_type node_type w) with
      | O => None
      | S n => Some (S n)
      end
  ∧ sum_counts (nodes_by_type s) = total_nodes s.
Proof.
  cbn. split; [done|]. split; [done|]. split; [done|]. split.
  - rewrite count_by_type_lookup. unfold select_by_type.
    by rewrite length_fmap, merge_sort_Permutation.
  - apply sum_counts_by_type.
Qed.

(** X4. How the statistics move with the writes, in a store that satisfies
    its primary key: an upsert adds one node exactly when the id was not
    stored and never changes the number of edges; an edge insert adds one
    edge exactly when the triple was not stored and never changes the
    nodes; a merge-update, whether it succeeds or raises, changes no
    statistic at all. *)
Theorem stats_follow_writes (w : world) :
  unique_nodes w →
  (∀ node_type node_id (properties : pydict),
     let s := select_stats (add_node node_type node_id properties w).1 in
     total_nodes s
     = (if decide (node_type +:+ ":" +:+ node_id ∈ n_id <$> nodes w)
        then total_nodes (select_stats w)
        else S (total_nodes (select_stats w)))
     ∧ total_edges s = total_edges (select_stats w))
  ∧ (∀ from_id to_id relationship (properties : pydict),
       let s := select_stats
                  (add_edge from_id to_id relationship properties w).1 in
       total_edges s
       = (if decide ((from_id, to_id, relationship) ∈ edge_key <$> edges w)
          then total_edges (select_stats w)
          else S (total_edges (select_stats w)))
       ∧ total_nodes s = total_nodes (select_stats w)
       ∧ nodes_by_type s = nodes_by_type (select_stats w))
  ∧ (∀ node_id (properties : pydict),
       select_stats (update_node node_id properties w).1 = select_stats w).
Proof.
  intros Hw. split; [|split].
  - intros node_type node_id properties. rewrite add_node_run. cbn.
    split; [|done]. rewrite length_app. cbn [length].
    pose proof (length_filter_id (nodes w) (node_type +:+ ":" +:+ node_id) Hw).
    case_decide; lia.
  - intros from_id to_id relationship properties. cbn.
    case_decide as Hin.
    + by rewrite insert_or_ignore_edge_present.
    + rewrite insert_or_ignore_edge_absent by done. cbn.
      rewrite length_app. cbn. split; [lia|done].
  - intros node_id properties.
    destruct (select_node node_id w) as [node|] eqn:Hn.
    + rewrite (update_node_found _ _ _ _ Hn). cbn. unfold select_stats.
      cbn. rewrite length_fmap. f_equal. apply count_by_type_types.
      rewrite <- list_fmap_compose. apply list_fmap_ext.
      intros ? r _. cbn. by case_decide.
    + by rewrite (update_node_missing _ _ _ Hn).
Qed.

Lemma stats_follow_writes_witness :
  let w := (add_node "Issue" "1" ∅ (empty_world 0)).1 in
  unique_nodes w
  ∧ total_nodes (select_stats (add_node "Issue" "1" ∅ w).1) = 1%nat
  ∧ total_nodes (select_stats (add_node "Issue" "2" ∅ w).1) = 2%nat.
Proof.
  intros w.
  assert (unique_nodes w) as Hw by apply NoDup_singleton.
  split; [exact Hw|]. split.
  - exact (proj1 (proj1 (stats_follow_writes w Hw) "Issue" "1" ∅)).
  - exact (proj1 (proj1 (stats_follow_writes w Hw) "Issue" "2" ∅)).
Defined.

(** X5. [query_by_type] reads the store without changing it and returns
    exactly the stored rows of the requested type, each once, the most
    recently created first. *)
Theorem query_by_type_lists_newest_first (w : world) (node_type : string) :
  let found := select_by_type node_type w in
  query_by_type node_type w = (w, Returned found)
  ∧ found ≡ₚ listed_of <$> filter (λ r, n_type r = node_type) (nodes w)
  ∧ Forall (λ entry, l_type entry = node_type) found
  ∧ StronglySorted (λ a b, l_created_at b ≤ l_created_at a) found.
Proof.
  intros found. subst found. unfold select_by_type.
  split; [done|]. split; [|split].
  - by rewrite merge_sort_Permutation.
  - rewrite merge_sort_Permutation. apply Forall_fmap, Forall_forall.
    intros r Hr. by apply list_elem_of_filter in Hr as [? _].
  - apply (StronglySorted_fmap _ newer_first); [done|].
    apply StronglySorted_merge_sort.
    + intros a b c. unfold newer_first. lia.
    + intros a b. unfold newer_first. lia.
Qed.

(** * Further properties of the traversal *)

Section TraversalReach.

Variable rows : list edge_row.
Variable max_depth : Z.
Variable seed : string.

Lemma select_to_ids_elem (current_id y : string) :
  y ∈ select_to_ids current_id rows
  ↔ ∃ e, e ∈ rows ∧ e_from_id e = current_id ∧ e_to_id e = y.
Proof.
  unfold select_to_ids. rewrite list_elem_of_fmap. split.
  - intros (e & -> & He). apply list_elem_of_filter in He as [? ?].
    by exists e.
  - intros (e & He & Hf & <-). exists e. split; [done|].
    by apply list_elem_of_filter.
Qed.

Lemma find_dependents_loop_sound (fuel : nat) :
  ∀ (visited : gset string) (to_visit : list (string * Z))
    (dependents result : list string),
    (∀ c d, (c, d) ∈ to_visit → 0 ≤ d ∧ path rows seed (Z.to_nat d) c) →
    (∀ x, x ∈ dependents → within_bound rows max_depth seed x) →
    find_dependents_loop rows max_depth fuel visited to_visit dependents
    = Some result →
    ∀ x, x ∈ result → within_bound rows max_depth seed x.
Proof.
  induction fuel as [|fuel IH];
    intros visited to_visit dependents result Hq Hdeps Hrun; [done|].
  destruct to_visit as [|[current_id depth] to_visit].
  { cbn in Hrun. by simplify_eq. }
  rewrite find_dependents_loop_pop in Hrun.
  destruct (bool_decide (current_id ∈ visited) || (max_depth <=? depth))
    eqn:Hskip.
  - revert Hrun. apply IH; [|done].
    intros c d Hcd. apply Hq. by right.
  - apply orb_false_iff in Hskip as [_ Hdepth].
    apply Z.leb_gt in Hdepth.
    destruct (Hq current_id depth) as [Hd Hpath]; [left|].
    cbv zeta in Hrun. revert Hrun. apply IH.
    + intros c d [Hcd|Hcd]%elem_of_app.
      * apply Hq. by right.
      * apply list_elem_of_fmap in Hcd as (y & [= -> ->] & Hy).
        apply list_elem_of_filter in Hy as [_ Hy].
        apply select_to_ids_elem in Hy as (e & He & Hfrom & <-).
        split; [lia|].
        replace (Z.to_nat (depth + 1)) with (S (Z.to_nat depth)) by lia.
        by apply (path_step _ _ _ current_id).
    + intros x [Hx|Hx]%elem_of_app; [by apply Hdeps|].
      apply list_elem_of_filter in Hx as [_ Hx].
      apply select_to_ids_elem in Hx as (e & He & Hfrom & <-).
      exists (S (Z.to_nat depth)). split; [lia|]. split; [lia|].
      by apply (path_step _ _ _ current_id).
Qed.

(** Once the seed is visited it is never appended. *)
Lemma find_dependents_loop_skips_visited (fuel : nat) (v : string) :
  ∀ (visited : gset string) (to_visit : list (string * Z))
    (dependents result : list string),
    v ∈ visited → v ∉ dependents →
    find_dependents_loop rows max_depth fuel visited to_visit dependents
    = Some result →
    v ∉ result.
Proof.
  induction fuel as [|fuel IH];
    intros visited to_visit dependents result Hv Hdeps Hrun; [done|].
  destruct to_visit as [|[current_id depth] to_visit].
  { cbn in Hrun. by simplify_eq. }
  rewrite find_dependents_loop_pop in Hrun.
  destruct (bool_decide (current_id ∈ visited) || (max_depth <=? depth)).
  - by apply (IH _ _ _ _ Hv Hdeps Hrun).
  - cbv zeta in Hrun. revert Hrun. apply IH.
    + apply elem_of_union. by right.
    + intros [Hin|Hin]%elem_of_app; [done|].
      apply list_elem_of_filter in Hin as [Hnew _]. apply Hnew.
      apply elem_of_union. by right.
Qed.

(** Every edge is followed at most once. *)
Lemma find_dependents_loop_length (fuel : nat) :
  ∀ (visited : gset string) (to_visit : list (string * Z))
    (dependents result : list string),
    find_dependents_loop rows max_depth fuel visited to_visit dependents
    = Some result →
    (length result ≤ length dependents + pending_edges rows visited)%nat.
Proof.
  induction fuel as [|fuel IH];
    intros visited to_visit dependents result Hrun; [done|].
  destruct to_visit as [|[current_id depth] to_visit].
  { cbn in Hrun. simplify_eq. lia. }
  rewrite find_dependents_loop_pop in Hrun.
  destruct (bool_decide (current_id ∈ visited) || (max_depth <=? depth))
    eqn:Hskip.
  - by apply IH in Hrun.
  - apply orb_false_iff in Hskip as [Hc _].
    apply bool_decide_eq_false in Hc.
    cbv zeta in Hrun. apply IH in Hrun.
    rewrite length_app in Hrun.
    pose proof (pending_edges_visit rows visited current_id Hc) as Hp.
    pose proof (length_filter
                  (λ dependent_id, dependent_id ∉ {[current_id]} ∪ visited)
                  (select_to_ids current_id rows)) as Hf.
    lia.
Qed.



(** Entries at or beyond the bound leave the result as it is. *)
Lemma find_dependents_loop_deep_result (fuel : nat) :
  ∀ (visited : gset string) (to_visit : list (string * Z))
    (dependents result : list string),
    Forall (λ entry, max_depth ≤ entry.2) to_visit →
    find_dependents_loop rows max_depth fuel visited to_visit dependents
    = Some result →
    result = dependents.
Proof.
  induction fuel as [|fuel IH];
    intros visited to_visit dependents result Hdeep Hrun; [done|].
  destruct to_visit as [|[current_id depth] to_visit].
  { cbn in Hrun. by simplify_eq. }
  apply Forall_cons in Hdeep as [Hd Hdeep]. cbn [snd] in Hd.
  rewrite find_dependents_loop_pop in Hrun.
  rewrite (proj2 (Z.leb_le max_depth depth) Hd), orb_true_r in Hrun.
  by apply IH in Hrun.
Qed.

Lemma bfs_inv_start : bfs_inv rows max_depth seed 0 ∅ [(seed, 0)] [] [].
Proof.
  split.
  - intros m x Hm. lia.
  - intros x Hx. inversion Hx; subst. right. by left.
  - intros e _ He. by apply elem_of_empty in He.
  - intros x [Hx|Hx]; [by apply elem_of_empty in Hx|].
    cbn in Hx. apply list_elem_of_singleton in Hx. by left.
  - by repeat constructor.
  - constructor.
  - by left.
Qed.

Lemma path_last (n : nat) (x : string) :
  path rows seed (S n) x →
  ∃ e, path rows seed n (e_from_id e) ∧ e ∈ rows ∧ e_to_id e = x.
Proof.
  intros Hx. inversion Hx as [|n' y e Hy He Hfrom]; subst.
  by exists e.
Qed.

Lemma bfs_inv_next_level (h : nat) (visited : gset string)
    (q2 : list (string * Z)) (dependents : list string) :
  bfs_inv rows max_depth seed h visited [] q2 dependents →
  bfs_inv rows max_depth seed (S h) visited q2 [] dependents.
Proof.
  intros [Hbelow Hlevel Hsucc Hseen _ Hq2 Hroom].
  assert (∀ m x, (m < S h)%nat → path rows seed m x → x ∈ visited)
    as Hbelow'.
  { intros m x Hm Hx. destruct (decide (m = h)) as [->|Hne].
    - destruct (Hlevel x Hx) as [?|Hin]; [done|].
      by apply elem_of_nil in Hin.
    - apply (Hbelow m); [lia|done]. }
  split.
  - exact Hbelow'.
  - intros x Hx. apply path_last in Hx as (e & Hy & He & <-).
    destruct (Hsucc e He) as [?|Hin]; [by apply (Hbelow' h); [lia|]|by left|].
    right. cbn [app] in Hin.
    apply list_elem_of_fmap in Hin as ([y d] & Hy' & Hin). cbn in Hy'.
    subst y. rewrite Forall_forall in Hq2. specialize (Hq2 _ Hin).
    cbn in Hq2. subst d.
    by replace (Z.of_nat (S h)) with (Z.of_nat h + 1) by lia.
  - by rewrite app_nil_r.
  - by rewrite app_nil_r.
  - eapply Forall_impl; [exact Hq2|]. intros entry ->. lia.
  - constructor.
  - by left.
Qed.

Lemma bfs_inv_skip_visited (h : nat) (visited : gset string)
    (c : string) (d : Z) (q1 q2 : list (string * Z))
    (dependents : list string) :
  c ∈ visited →
  bfs_inv rows max_depth seed h visited ((c, d) :: q1) q2 dependents →
  bfs_inv rows max_depth seed h visited q1 q2 dependents.
Proof.
  intros Hc [Hbelow Hlevel Hsucc Hseen Hq1 Hq2 Hroom].
  apply Forall_cons in Hq1 as [Hd Hq1]. cbn in Hd. subst d.
  split; try done.
  - intros x Hx. destruct (Hlevel x Hx) as [?|Hin]; [by left|].
    apply elem_of_cons in Hin as [[= ->]|Hin]; [by left|by right].
  - intros e He Hfrom. destruct (Hsucc e He Hfrom) as [?|Hin]; [by left|].
    cbn in Hin. apply elem_of_cons in Hin as [->|Hin]; [by left|by right].
  - intros x [Hx|Hx]; apply Hseen; [by left|].
    right. cbn. by right.
Qed.

Lemma bfs_inv_visit (h : nat) (visited : gset string)
    (c : string) (d : Z) (q1 q2 : list (string * Z))
    (dependents : list string) :
  d < max_depth →
  bfs_inv rows max_depth seed h visited ((c, d) :: q1) q2 dependents →
  let visited' := {[c]} ∪ visited in
  let found := filter (λ dependent_id, dependent_id ∉ visited')
                      (select_to_ids c rows) in
  bfs_inv rows max_depth seed h visited' q1
    (q2 ++ ((λ dependent_id, (dependent_id, d + 1)) <$> found))
    (dependents ++ found).
Proof.
  intros Hd [Hbelow Hlevel Hsucc Hseen Hq1 Hq2 Hroom] visited' found.
  apply Forall_cons in Hq1 as [Hdh Hq1]. cbn in Hdh. subst d.
  assert (∀ x, x ∈ found →
               x ∈ ((q1 ++ q2 ++ ((λ dependent_id,
                                     (dependent_id, Z.of_nat h + 1))
                                  <$> found))%list).*1) as Hnew.
  { intros x Hx. rewrite !fmap_app, !elem_of_app. right. right.
    rewrite <- list_fmap_compose. apply list_elem_of_fmap. by exists x. }
  assert (∀ x, x ∈ ((q1 ++ q2)%list).*1 →
               x ∈ ((q1 ++ q2 ++ ((λ dependent_id,
                                     (dependent_id, Z.of_nat h + 1))
                                  <$> found))%list).*1) as Hold.
  { intros x. rewrite !fmap_app, !elem_of_app. tauto. }
  split.
  - intros m x Hm Hx. apply elem_of_union. right. by apply (Hbelow m).
  - intros x Hx. destruct (Hlevel x Hx) as [?|Hin].
    + left. apply elem_of_union. by right.
    + apply elem_of_cons in Hin as [[= ->]|Hin]; [|by right].
      left. apply elem_of_union. left. by apply elem_of_singleton.
  - intros e He Hfrom.
    destruct (decide (e_to_id e ∈ visited')) as [?|Hfresh]; [by left|].
    right. apply elem_of_union in Hfrom as [Hfrom|Hfrom].
    + apply elem_of_singleton in Hfrom. apply Hnew.
      apply list_elem_of_filter. split; [done|].
      apply select_to_ids_elem. by exists e.
    + destruct (Hsucc e He Hfrom) as [Hin|Hin].
      * destruct Hfresh. apply elem_of_union. by right.
      * cbn in Hin. apply elem_of_cons in Hin as [Heq|Hin]; [|by apply Hold].
        destruct Hfresh. apply elem_of_union. left.
        by apply elem_of_singleton.
  - intros x Hx. rewrite elem_of_app.
    assert (x ∈ visited ∨ x ∈ ((c, Z.of_nat h) :: (q1 ++ q2)%list).*1 ∨ x ∈ found)
      as [Hin|[Hin|Hin]].
    { destruct Hx as [Hx|Hx].
      - apply elem_of_union in Hx as [Hx|Hx]; [|by left].
        apply elem_of_singleton in Hx as ->. right. left. cbn. by left.
      - rewrite !fmap_app, !elem_of_app in Hx.
        destruct Hx as [Hx|[Hx|Hx]].
        + right. left. cbn. right. rewrite fmap_app, elem_of_app. by left.
        + right. left. cbn. right. rewrite fmap_app, elem_of_app. by right.
        + right. right. rewrite <- list_fmap_compose in Hx.
          apply list_elem_of_fmap in Hx as (y & -> & Hy). done. }
    + destruct (Hseen x) as [?|?]; [by left|by left|right; by left].
    + destruct (Hseen x) as [?|?]; [by right|by left|right; by left].
    + right. by right.
  - done.
  - apply Forall_app. split; [done|].
    apply Forall_fmap, Forall_forall. by intros y _.
  - right. done.
Qed.

(** With nothing queued, everything that can be reached has been seen. *)
Lemma bfs_inv_done (h : nat) (visited : gset string)
    (dependents : list string) (n : nat) (x : string) :
  bfs_inv rows max_depth seed h visited [] [] dependents →
  path rows seed n x → x = seed ∨ x ∈ dependents.
Proof.
  intros [Hbelow Hlevel Hsucc Hseen _ _ _] Hx.
  apply Hseen. left. induction Hx as [|n x e Hx IH He Hfrom].
  - destruct h as [|h].
    + destruct (Hlevel seed) as [?|Hin]; [constructor|done|].
      by apply elem_of_nil in Hin.
    + apply (Hbelow 0%nat); [lia|constructor].
  - subst x. destruct (Hsucc e He IH) as [?|Hin]; [done|].
    by apply elem_of_nil in Hin.
Qed.

Lemma find_dependents_loop_complete (fuel : nat) :
  ∀ (h : nat) (visited : gset string) (q1 q2 : list (string * Z))
    (dependents result : list string),
    Z.of_nat h ≤ max_depth →
    bfs_inv rows max_depth seed h visited q1 q2 dependents →
    find_dependents_loop rows max_depth fuel visited (q1 ++ q2)%list
      dependents
    = Some result →
    ∀ (n : nat) (x : string),
      Z.of_nat n ≤ max_depth → path rows seed n x →
      x = seed ∨ x ∈ result.
Proof.
  induction fuel as [|fuel IH]; [done|].
  assert (∀ (h : nat) (visited : gset string) (c : string) (d : Z)
            (q1 q2 : list (string * Z)) (dependents result : list string),
            Z.of_nat h ≤ max_depth →
            bfs_inv rows max_depth seed h visited ((c, d) :: q1) q2
              dependents →
            find_dependents_loop rows max_depth (S fuel) visited
              ((c, d) :: (q1 ++ q2)%list) dependents = Some result →
            ∀ (n : nat) (x : string),
              Z.of_nat n ≤ max_depth → path rows seed n x →
              x = seed ∨ x ∈ result) as Hpop.
  { intros h visited c d q1 q2 dependents result Hh Hinv Hrun n x Hn Hx.
    rewrite find_dependents_loop_pop in Hrun.
    pose proof (inv_q1 _ _ _ _ _ _ _ _ Hinv) as Hq1.
    apply Forall_cons in Hq1 as [Hd Hq1]. cbn in Hd.
    destruct (decide (max_depth ≤ d)) as [Hdeep|Hshallow].
    - rewrite (proj2 (Z.leb_le max_depth d) Hdeep), orb_true_r in Hrun.
      apply find_dependents_loop_deep_result in Hrun as ->.
      + apply (inv_seen _ _ _ _ _ _ _ _ Hinv).
        destruct (decide (n = h)) as [->|Hne].
        * destruct (inv_level _ _ _ _ _ _ _ _ Hinv x Hx) as [?|Hin]; [by left|].
          right. rewrite fmap_app, elem_of_app. left.
          apply list_elem_of_fmap. by exists (x, Z.of_nat h).
        * left. apply (inv_below _ _ _ _ _ _ _ _ Hinv n); [lia|done].
      + apply Forall_app. split.
        * eapply Forall_impl; [exact Hq1|]. intros entry ->. lia.
        * destruct (inv_room _ _ _ _ _ _ _ _ Hinv) as [->|?]; [constructor|lia].
    - destruct (bool_decide (c ∈ visited)) eqn:Hc.
      + apply bool_decide_eq_true in Hc. cbn [orb] in Hrun.
        by apply (IH h visited q1 q2 dependents result Hh
                    (bfs_inv_skip_visited _ _ _ _ _ _ _ Hc Hinv) Hrun n x).
      + rewrite (proj2 (Z.leb_gt max_depth d)) in Hrun by lia.
        cbn [orb] in Hrun. cbv zeta in Hrun.
        rewrite <- app_assoc in Hrun.
        assert (d < max_depth) as Hd' by lia.
        pose proof (bfs_inv_visit h visited c d q1 q2 dependents Hd' Hinv)
          as Hinv'.
        cbv zeta in Hinv'.
        by apply (IH h _ _ _ _ result Hh Hinv' Hrun n x). }
  intros h visited q1 q2 dependents result Hh Hinv Hrun n x Hn Hx.
  destruct q1 as [|[c d] q1].
  - destruct q2 as [|[c d] q2].
    + cbn in Hrun. simplify_eq. by apply (bfs_inv_done h visited _ n).
    + destruct (inv_room _ _ _ _ _ _ _ _ Hinv) as [?|Hroom]; [done|].
      apply bfs_inv_next_level in Hinv.
      cbn [app] in Hrun. rewrite <- (app_nil_r q2) in Hrun.
      apply (Hpop (S h) visited c d q2 [] dependents result ltac:(lia)
               Hinv Hrun n x Hn Hx).
  - apply (Hpop h visited c d q1 q2 dependents result Hh Hinv Hrun n x Hn Hx).
Qed.

End TraversalReach.

Lemma select_dependents_members (w : world) (node_id : string)
    (max_depth : Z) (dependents : list string) :
  select_dependents node_id max_depth w = Some dependents →
  ∀ x, x ∈ dependents
       ↔ x ≠ node_id ∧ within_bound (edges w) max_depth node_id x.
Proof.
  unfold select_dependents. intros Hds x. split.
  - intros Hx. split.
    + intros ->. revert Hx. unfold find_dependents_fuel in Hds.
      rewrite find_dependents_loop_pop in Hds.
      destruct (bool_decide (node_id ∈ (∅ : gset string))
                || (max_depth <=? 0)).
      * destruct (length (edges w)); cbn in Hds; simplify_eq;
          apply not_elem_of_nil.
      * cbv zeta in Hds. revert Hds.
        apply find_dependents_loop_skips_visited.
        -- apply elem_of_union. left. by apply elem_of_singleton.
        -- intros [Hin|Hin]%elem_of_app; [by apply elem_of_nil in Hin|].
           apply list_elem_of_filter in Hin as [Hnew _]. apply Hnew.
           apply elem_of_union. left. by apply elem_of_singleton.
    + revert x Hx. revert Hds. apply find_dependents_loop_sound.
      * intros c d Hcd. apply list_elem_of_singleton in Hcd as [= -> ->].
        split; [done|]. constructor.
      * intros y Hy. by apply elem_of_nil in Hy.
  - intros [Hne (n & Hn & Hle & Hpath)].
    destruct (find_dependents_loop_complete (edges w) max_depth node_id
                _ 0%nat ∅ [(node_id, 0)] [] [] dependents ltac:(lia)
                (bfs_inv_start _ _ _) Hds n x Hle Hpath); done.
Qed.

(** X6. Whatever the store, the seed and the bound, [find_dependents]
    returns, leaving the store as it is, a list whose members are exactly
    the ids other than the seed that end a forward path of at least one and
    at most [max_depth] edges starting at the seed. *)
Theorem find_dependents_reaches_exactly (w : world) (node_id : string)
    (max_depth : Z) :
  ∃ dependents : list string,
    find_dependents node_id max_depth w = (w, Returned dependents)
    ∧ ∀ x, x ∈ dependents
           ↔ x ≠ node_id ∧ within_bound (edges w) max_depth node_id x.
Proof.
  destruct (select_dependents_is_Some w node_id max_depth)
    as [dependents Hds].
  exists dependents. split; [by apply find_dependents_run|].
  by apply select_dependents_members.
Qed.

(** X7. The list [find_dependents] returns has at most one entry for each
    stored edge, however often a node is repeated in it. *)
Theorem find_dependents_length_bound (w : world) (node_id : string)
    (max_depth : Z) :
  ∃ dependents : list string,
    find_dependents node_id max_depth w = (w, Returned dependents)
    ∧ (length dependents ≤ length (edges w))%nat.
Proof.
  destruct (select_dependents_is_Some w node_id max_depth)
    as [dependents Hds].
  exists dependents. split; [by apply find_dependents_run|].
  apply find_dependents_loop_length in Hds. cbn [length] in Hds.
  pose proof (pending_edges_le (edges w) ∅). lia.
Qed.

(** * What no handler undoes *)

Section GrowthFacts.

Implicit Types (w : world).

Lemma grows_refl w : grows w w.
Proof. by repeat split. Qed.

Lemma grows_trans w1 w2 w3 : grows w1 w2 → grows w2 w3 → grows w1 w3.
Proof.
  intros (Hn1 & He1 & Ho1 & Ht1 & Hun1 & Hue1)
         (Hn2 & He2 & Ho2 & Ht2 & Hun2 & Hue2).
  repeat split; [auto|by etrans|by etrans|congruence|auto|auto].
Qed.

Lemma grows_write_line line w : grows w (write_line line w).
Proof.
  repeat split; try done. cbn. by apply prefix_app_r.
Qed.

Lemma grows_insert_or_replace_node i type (properties : pydict) w :
  grows w (insert_or_replace_node i type properties w).
Proof.
  repeat split; try done.
  - intros j Hj. apply node_ids_insert_or_replace_node. by right.
  - apply unique_nodes_insert_or_replace_node.
Qed.

Lemma grows_insert_or_ignore_edge f t r (properties : pydict) w :
  grows w (insert_or_ignore_edge f t r properties w).
Proof.
  repeat split.
  - by rewrite nodes_insert_or_ignore_edge.
  - unfold insert_or_ignore_edge. case_decide; [done|].
    cbn. by apply prefix_app_r.
  - unfold insert_or_ignore_edge. by case_decide.
  - apply now_insert_or_ignore_edge.
  - apply unique_nodes_insert_or_ignore_edge.
  - apply insert_or_ignore_edge_unique.
Qed.

Lemma grows_update_node_row i (properties : pydict) w :
  grows w (update_node_row i properties w).
Proof.
  repeat split; try done.
  - by rewrite node_ids_update_node_row.
  - apply unique_nodes_update_node_row.
Qed.

Lemma only_adds_pure {A} (c : M A) : (∀ w, (c w).1 = w) → only_adds c.
Proof. intros Hc w. rewrite Hc. apply grows_refl. Qed.

Lemma only_adds_ret {A} (a : A) : only_adds (ret a).
Proof. by apply only_adds_pure. Qed.

Lemma only_adds_raise {A} (e : exn) : only_adds (@raise A e).
Proof. by apply only_adds_pure. Qed.

Lemma only_adds_query {A} (q : world → A) : only_adds (query q).
Proof. by apply only_adds_pure. Qed.

Lemma only_adds_bind {A B} (c : M A) (k : A → M B) :
  only_adds c → (∀ a, only_adds (k a)) → only_adds (bind c k).
Proof.
  intros Hc Hk w. unfold bind. specialize (Hc w).
  destruct (c w) as [w' [a|e]]; [|done].
  apply (grows_trans _ w'); [done|apply Hk].
Qed.

Lemma only_adds_for_each {A} (xs : list A) (body : A → M unit) :
  (∀ x, only_adds (body x)) → only_adds (for_each xs body).
Proof.
  intros Hbody. induction xs as [|x xs IH]; [apply only_adds_ret|].
  apply only_adds_bind; [apply Hbody|done].
Qed.

Lemma only_adds_comprehension {A B} (xs : list A) (body : A → M B) :
  (∀ x, only_adds (body x)) → only_adds (comprehension xs body).
Proof.
  intros Hbody. induction xs as [|x xs IH]; [apply only_adds_ret|].
  apply only_adds_bind; [apply Hbody|]. intros y.
  apply only_adds_bind; [done|]. intros ys. apply only_adds_ret.
Qed.

Lemma only_adds_for_fold {A S} (xs : list A) (s : S) (body : A → S → M S) :
  (∀ x s, only_adds (body x s)) → only_adds (for_fold xs s body).
Proof.
  intros Hbody. revert s. induction xs as [|x xs IH]; intros s;
    [apply only_adds_ret|].
  apply only_adds_bind; [apply Hbody|done].
Qed.

Lemma only_adds_print line : only_adds (print line).
Proof. intros w. apply grows_write_line. Qed.

Lemma only_adds_add_node node_type node_id (properties : pydict) :
  only_adds (add_node node_type node_id properties).
Proof. intros w. apply grows_insert_or_replace_node. Qed.

Lemma only_adds_add_edge f t r (properties : pydict) :
  only_adds (add_edge f t r properties).
Proof. intros w. apply grows_insert_or_ignore_edge. Qed.

Lemma only_adds_update_node node_id (properties : pydict) :
  only_adds (update_node node_id properties).
Proof.
  intros w. unfold update_node, get_node, bind, query.
  destruct (select_node node_id w); [|apply grows_refl].
  apply grows_update_node_row.
Qed.

Lemma only_adds_find_dependents node_id max_depth :
  only_adds (find_dependents node_id max_depth).
Proof.
  apply only_adds_bind; [apply only_adds_query|].
  intros [?|]; [apply only_adds_ret|apply only_adds_raise].
Qed.

Lemma only_adds_subscript (d : pydict) key : only_adds (subscript d key).
Proof. unfold subscript. destruct (d !! key); by apply only_adds_pure. Qed.

Lemma only_adds_py_format v : only_adds (py_format v).
Proof. destruct v as [| [|] | | | |]; by apply only_adds_pure. Qed.

Lemma only_adds_py_iter v : only_adds (py_iter v).
Proof. destruct v; by apply only_adds_pure. Qed.

Lemma only_adds_py_getitem v key : only_adds (py_getitem v key).
Proof.
  destruct v; try by apply only_adds_pure.
  unfold py_getitem. destruct (assoc key _); by apply only_adds_pure.
Qed.

Lemma only_adds_list_item {A} (xs : list A) i : only_adds (list_item xs i).
Proof. unfold list_item. destruct (xs !! i); by apply only_adds_pure. Qed.

End GrowthFacts.

(** Splits a handler into its statements. *)
Ltac only_adds_steps :=
  repeat first
    [ apply only_adds_print | apply only_adds_add_node
    | apply only_adds_add_edge | apply only_adds_update_node
    | apply only_adds_find_dependents | apply only_adds_subscript
    | apply only_adds_py_format | apply only_adds_py_iter
    | apply only_adds_py_getitem | apply only_adds_list_item
    | apply only_adds_ret | apply only_adds_raise | apply only_adds_query
    | apply only_adds_for_each; intros ?
    | apply only_adds_comprehension; intros ?
    | apply only_adds_for_fold; intros ? ?
    | apply only_adds_bind; [|intros ?]
    | case_match ].

(** X8. Whatever the payload, the store and the order in which sets are
    walked, and whether it returns or raises, no handler removes a node id,
    removes or rewrites a row of [edges], retracts a line it has printed or
    breaks the primary key of [nodes] or the [UNIQUE] constraint of
    [edges]. *)
Theorem handlers_only_add (set_order : gset string → list string)
    (number : Z) (data : pydict) :
  only_adds (handle_issue_created set_order number data)
  ∧ only_adds (handle_issue_closed number)
  ∧ only_adds (handle_pr_created number data)
  ∧ only_adds (handle_pr_merged set_order number).
Proof.
  split; [|split; [|split]].
  - unfold handle_issue_created, label_names, title_and_body.
    only_adds_steps.
  - unfold handle_issue_closed. only_adds_steps.
  - unfold handle_pr_created, title_and_body. only_adds_steps.
  - unfold handle_pr_merged, find_related. only_adds_steps.
Qed.

(** * Further properties of the event handlers *)

(** X9. [handle_issue_closed] on any store: when [Issue:<n>] is not stored
    it prints its first line and raises [ValueError] with the message of
    [update_node]; when it is stored the handler returns, the row keeps its
    id, type, creation time and every property but [status], which becomes
    ["closed"], no other node and no edge changes, two lines are printed,
    and closing the issue once more at a later time changes nothing but
    [updated_at]. *)
Theorem handle_issue_closed_outcome (w : world) (issue_number t : Z) :
  let issue_id := "Issue:" +:+ pretty issue_number in
  let run := handle_issue_closed issue_number w in
  match select_node issue_id w with
  | None =>
      run = (write_line ("🔒 Closing Issue #" +:+ pretty issue_number) w,
             Raised (ValueError ("Node not found: " +:+ issue_id)))
  | Some issue =>
      run.2 = Returned tt
      ∧ select_node issue_id run.1
        = Some (NodeRow issue_id (n_type issue)
                  (<["status" := PStr "closed"]> (n_properties issue))
                  (n_created_at issue) (now w))
      ∧ (∀ j, j ≠ issue_id → select_node j run.1 = select_node j w)
      ∧ edges run.1 = edges w
      ∧ stdout run.1
        = (stdout w
           ++ ["🔒 Closing Issue #" +:+ pretty issue_number;
               "  ✅ Issue #" +:+ pretty issue_number
               +:+ " marked as closed"])%list
      ∧ select_node issue_id
          (handle_issue_closed issue_number (at_time t run.1)).1
        = Some (NodeRow issue_id (n_type issue)
                  (<["status" := PStr "closed"]> (n_properties issue))
                  (n_created_at issue) t)
  end.
Proof.
  intros issue_id run.
  assert (∀ w0 issue,
            select_node issue_id w0 = Some issue →
            handle_issue_closed issue_number w0
            = (apply_stmts
                 [Line ("  ✅ Issue #" +:+ pretty issue_number
                        +:+ " marked as closed");
                  Update issue_id
                    (<["status" := PStr "closed"]> (n_properties issue));
                  Line ("🔒 Closing Issue #" +:+ pretty issue_number)] w0,
               Returned tt)) as Hfound.
  { intros w0 issue Hissue. unfold handle_issue_closed, print, bind.
    fold issue_id.
    rewrite (update_node_found issue_id _ (write_line _ w0) issue Hissue).
    by rewrite status_overlay. }
  destruct (select_node issue_id w) as [issue|] eqn:Hissue.
  - assert (n_id issue = issue_id) as Hid by by apply (select_node_id _ w).
    subst run. rewrite (Hfound w issue Hissue). cbn [fst snd].
    assert (select_node issue_id
              (apply_stmts
                 [Line ("  ✅ Issue #" +:+ pretty issue_number
                        +:+ " marked as closed");
                  Update issue_id
                    (<["status" := PStr "closed"]> (n_properties issue));
                  Line ("🔒 Closing Issue #" +:+ pretty issue_number)] w)
            = Some (NodeRow issue_id (n_type issue)
                      (<["status" := PStr "closed"]> (n_properties issue))
                      (n_created_at issue) (now w))) as Hrow.
    { rewrite select_node_apply_stmts. cbn [node_after now_after].
      rewrite String.eqb_refl, Hissue. cbn. by rewrite Hid. }
    split; [done|]. split; [exact Hrow|]. split; [|split; [|split]].
    + intros j Hj. rewrite select_node_apply_stmts. cbn [node_after].
      by rewrite (proj2 (String.eqb_neq issue_id j)) by done.
    + done.
    + cbn. by rewrite <- app_assoc.
    + rewrite <- (select_node_at_time t) in Hrow.
      rewrite (Hfound _ _ Hrow). cbn [fst].
      rewrite select_node_apply_stmts. cbn [node_after now_after].
      rewrite String.eqb_refl, Hrow. cbn.
      by rewrite insert_insert_eq.
  - subst run. unfold handle_issue_closed, print, bind. fold issue_id.
    by rewrite (update_node_missing issue_id _ (write_line _ w) Hissue).
Qed.

(** X10. Merging a pull request that was never recorded prints the first
    line, raises the [ValueError] of [update_node] and does nothing else:
    no issue is closed and nothing further is printed. *)
Theorem handle_pr_merged_unknown_pr (set_order : gset string → list string)
    (w : world) (pr_number : Z) :
  select_node ("PullRequest:" +:+ pretty pr_number) w = None →
  handle_pr_merged set_order pr_number w
  = (write_line ("✅ Merging PR #" +:+ pretty pr_number) w,
     Raised (ValueError ("Node not found: PullRequest:"
                         +:+ pretty pr_number))).
Proof.
  intros Hpr. unfold handle_pr_merged, print.
  unfold bind at 1. unfold bind at 1.
  rewrite (update_node_missing _ _ (write_line _ w) Hpr).
  do 2 f_equal.
Qed.

Lemma handle_pr_merged_unknown_pr_witness :
  let w := (add_node "PullRequest" "8" ∅ (empty_world 0)).1 in
  select_node ("PullRequest:" +:+ pretty 7) w = None
  ∧ (handle_pr_merged elements 7 w).2
    = Raised (ValueError "Node not found: PullRequest:7").
Proof.
  intros w.
  assert (select_node ("PullRequest:" +:+ pretty 7) w = None) as Hpr
    by (vm_compute; reflexivity).
  split; [exact Hpr|].
  rewrite (handle_pr_merged_unknown_pr elements w 7 Hpr). cbn [snd].
  vm_compute. reflexivity.
Defined.

Section ReferenceFacts.

Implicit Types (w : world) (ss : list stmt).

Lemma for_each_fixes {B} (pr_id : string) (matches : list string)
    (k : unit → M B) ss w :
  bind (for_each matches (λ issue_num,
          let issue_id := "Issue:" +:+ issue_num in
          add_edge issue_id pr_id "FIXED_BY" ∅ ;;
          print ("  ✓ Links to Issue #" +:+ issue_num))) k
       (apply_stmts ss w)
  = k tt (apply_stmts (fixes_stmts pr_id matches ++ ss) w).
Proof.
  unfold fixes_stmts. revert ss.
  induction matches as [|m matches IH]; intros ss; [done|].
  cbn [for_each flat_map app]. rewrite run_bind, run_bind.
  rewrite line_add_edge, line_print, IH.
  cbn [rev]. by rewrite <- !app_assoc.
Qed.

Lemma upserted_app ss1 ss2 :
  upserted (ss1 ++ ss2) = (upserted ss1 ++ upserted ss2)%list.
Proof.
  induction ss1 as [|s ss1 IH]; [done|]. destruct s; cbn; by rewrite ?IH.
Qed.

Lemma linked_app ss1 ss2 :
  linked (ss1 ++ ss2) = (linked ss1 ++ linked ss2)%list.
Proof.
  induction ss1 as [|s ss1 IH]; [done|]. destruct s; cbn; by rewrite ?IH.
Qed.

Lemma node_after_app_unwritten ss1 ss2 j t0 before :
  j ∉ upserted ss1 → Forall plain ss1 →
  node_after (ss1 ++ ss2) j t0 before = node_after ss2 j t0 before.
Proof.
  intros Hup Hss. induction Hss as [|s ss1 Hs Hss IH]; [done|].
  destruct s; cbn in *; try done; try by apply IH.
  apply not_elem_of_cons in Hup as [Hne Hup].
  rewrite (proj2 (String.eqb_neq id j)) by done. by apply IH.
Qed.

Lemma elem_of_upserted_rev ss j : j ∈ upserted (rev ss) ↔ j ∈ upserted ss.
Proof.
  induction ss as [|s ss IH]; [done|]. cbn [rev].
  rewrite upserted_app, elem_of_app, IH.
  destruct s; cbn [upserted]; rewrite ?elem_of_cons, ?elem_of_nil; tauto.
Qed.

Lemma elem_of_linked_rev ss k : k ∈ linked (rev ss) ↔ k ∈ linked ss.
Proof.
  induction ss as [|s ss IH]; [done|]. cbn [rev].
  rewrite linked_app, elem_of_app, IH.
  destruct s; cbn [linked]; rewrite ?elem_of_cons, ?elem_of_nil; tauto.
Qed.

Lemma elem_of_upserted_flat_map {A} (f : A → list stmt) (xs : list A) j :
  j ∈ upserted (flat_map f xs) ↔ ∃ x, x ∈ xs ∧ j ∈ upserted (f x).
Proof.
  induction xs as [|x xs IH]; cbn [flat_map].
  - cbn. rewrite elem_of_nil. split; [done|]. intros (? & Hin & _).
    by apply elem_of_nil in Hin.
  - rewrite upserted_app, elem_of_app, IH. split.
    + intros [Hj|(y & Hy & Hj)]; [exists x|exists y]; split; try done;
        [by left|by right].
    + intros (y & [->|Hy]%elem_of_cons & Hj); [by left|right; by exists y].
Qed.

Lemma elem_of_linked_flat_map {A} (f : A → list stmt) (xs : list A) k :
  k ∈ linked (flat_map f xs) ↔ ∃ x, x ∈ xs ∧ k ∈ linked (f x).
Proof.
  induction xs as [|x xs IH]; cbn [flat_map].
  - cbn. rewrite elem_of_nil. split; [done|]. intros (? & Hin & _).
    by apply elem_of_nil in Hin.
  - rewrite linked_app, elem_of_app, IH. split.
    + intros [Hj|(y & Hy & Hj)]; [exists x|exists y]; split; try done;
        [by left|by right].
    + intros (y & [->|Hy]%elem_of_cons & Hj); [by left|right; by exists y].
Qed.

Lemma plain_rev_flat_map {A} (f : A → list stmt) (xs : list A) :
  (∀ x, Forall plain (f x)) → Forall plain (rev (flat_map f xs)).
Proof.
  intros Hf. apply Forall_rev.
  induction xs as [|x xs IH]; [constructor|].
  cbn [flat_map]. apply Forall_app. split; [apply Hf|done].
Qed.

Lemma for_each_changed {B} (pr_id : string) (infos : list pyval)
    (names : list string) (k : unit → M B) ss w :
  file_infos infos names →
  bind (for_each infos (λ file_info,
          let* file_path := py_getitem file_info "filename" in
          let* name := py_format file_path in
          add_node "Document" name (kwargs [("path", file_path)]) ;;
          let doc_id := "Document:" +:+ name in
          add_edge pr_id doc_id "MODIFIES" ∅ ;;
          print ("  ✓ Modifies: " +:+ name))) k
       (apply_stmts ss w)
  = k tt (apply_stmts (changed_stmts pr_id names ++ ss) w).
Proof.
  unfold changed_stmts. intros Hinfos. revert ss.
  induction Hinfos as [|info name infos names (items & -> & Hname) _ IH];
    intros ss; [done|].
  cbn [for_each flat_map app py_getitem]. rewrite Hname.
  rewrite !run_bind, run_ret. cbn [py_format].
  rewrite run_bind, run_ret, ?run_bind, line_add_node, ?run_bind,
    line_add_edge, line_print, IH.
  cbn [rev]. by rewrite <- !app_assoc.
Qed.

Lemma upserted_changed_stmts pr_id names j :
  j ∈ upserted (changed_stmts pr_id names)
  ↔ ∃ name, name ∈ names ∧ j = "Document:" +:+ name.
Proof.
  unfold changed_stmts.
  rewrite elem_of_upserted_rev, elem_of_upserted_flat_map. cbn [upserted].
  by setoid_rewrite list_elem_of_singleton.
Qed.

Lemma linked_changed_stmts pr_id names k :
  k ∈ linked (changed_stmts pr_id names)
  ↔ ∃ name, name ∈ names ∧ k = (pr_id, "Document:" +:+ name, "MODIFIES").
Proof.
  unfold changed_stmts.
  rewrite elem_of_linked_rev, elem_of_linked_flat_map. cbn [linked].
  by setoid_rewrite list_elem_of_singleton.
Qed.

Lemma plain_changed_stmts pr_id names :
  Forall plain (changed_stmts pr_id names).
Proof. apply plain_rev_flat_map. intros f. by repeat constructor. Qed.

Lemma upserted_fixes_stmts pr_id matches :
  upserted (fixes_stmts pr_id matches) = [].
Proof.
  unfold fixes_stmts. induction matches as [|m matches IH]; [done|].
  cbn [flat_map app rev]. rewrite <- app_assoc, upserted_app, IH. done.
Qed.

Lemma fixes_stmts_plain pr_id matches :
  Forall plain (fixes_stmts pr_id matches).
Proof.
  unfold fixes_stmts. induction matches as [|m matches IH]; [constructor|].
  cbn [flat_map app rev]. rewrite <- app_assoc. apply Forall_app.
  split; [done|]. by repeat constructor.
Qed.

Lemma linked_fixes_stmts pr_id matches k :
  k ∈ linked (fixes_stmts pr_id matches)
  ↔ ∃ issue_num, issue_num ∈ matches
                 ∧ k = ("Issue:" +:+ issue_num, pr_id, "FIXED_BY").
Proof.
  unfold fixes_stmts. induction matches as [|m matches IH].
  - cbn. rewrite elem_of_nil. split; [done|]. intros (? & Hin & _).
    by apply elem_of_nil in Hin.
  - cbn [flat_map app rev]. rewrite <- app_assoc, linked_app, elem_of_app, IH.
    cbn [linked app]. rewrite list_elem_of_singleton. split.
    + intros [(i & Hi & ->)| ->].
      * exists i. split; [by right|done].
      * exists m. split; [by left|done].
    + intros (i & Hi & ->). apply elem_of_cons in Hi as [->|Hi].
      * by right.
      * left. by exists i.
Qed.

Lemma stdout_fixes_stmts pr_id matches ss w :
  stdout (apply_stmts (fixes_stmts pr_id matches ++ ss) w)
  = (stdout (apply_stmts ss w)
     ++ ((λ issue_num, "  ✓ Links to Issue #" +:+ issue_num) <$> matches))%list.
Proof.
  unfold fixes_stmts. revert ss.
  induction matches as [|m matches IH]; intros ss.
  - cbn. by rewrite app_nil_r.
  - cbn [flat_map app rev]. rewrite <- !app_assoc. cbn [app].
    rewrite IH. cbn [apply_stmts foldr apply_stmt fmap list_fmap].
    fold (apply_stmts ss w). cbn [write_line stdout].
    rewrite <- app_assoc. cbn [app]. f_equal.
    unfold insert_or_ignore_edge. by case_decide.
Qed.

End ReferenceFacts.

(** X11. For a payload whose title is a string and whose body is a string
    or absent, with [html_url] and [created_at] present and with
    [changed_files] absent or a list of dictionaries that name a file,
    [handle_pr_created] returns on any store; the pull request is stored
    with status ["open"]; the node ids that appear are the pull request's
    and [Document:<name>] for every changed file, whatever its directory;
    the edges that appear are one [FIXED_BY] edge from [Issue:<m>] for
    every reference [m] found in the lower-cased text, whether or not such
    an issue is stored, and one [MODIFIES] edge to each document. *)
Theorem handle_pr_created_links_references_and_files (w : world)
    (pr_number : Z) (pr_data : pydict) (title body : string)
    (url created : pyval) (names : list string) :
  pr_data !! "title" = Some (PStr title) →
  dict_get pr_data "body" (PStr "") = PStr body →
  pr_data !! "html_url" = Some url →
  pr_data !! "created_at" = Some created →
  match pr_data !! "changed_files" with
  | None => names = []
  | Some changed_files =>
      ∃ infos, changed_files = PList infos ∧ file_infos infos names
  end →
  let pr_id := "PullRequest:" +:+ pretty pr_number in
  let matches := findall match_fixes 0 (lower (title +:+ " " +:+ body)) in
  let run := handle_pr_created pr_number pr_data w in
  run.2 = Returned tt
  ∧ (∃ properties : pydict,
       select_node pr_id run.1
       = Some (NodeRow pr_id "PullRequest" properties (now w) (now w))
       ∧ properties !! "status" = Some (PStr "open")
       ∧ properties !! "title" = Some (PStr title))
  ∧ (∀ id, id ∈ n_id <$> nodes run.1
           ↔ id = pr_id
             ∨ (∃ name, name ∈ names ∧ id = "Document:" +:+ name)
             ∨ id ∈ n_id <$> nodes w)
  ∧ (∀ k, k ∈ edge_key <$> edges run.1
          ↔ (∃ issue_num, issue_num ∈ matches
                          ∧ k = ("Issue:" +:+ issue_num, pr_id, "FIXED_BY"))
            ∨ (∃ name, name ∈ names
                       ∧ k = (pr_id, "Document:" +:+ name, "MODIFIES"))
            ∨ k ∈ edge_key <$> edges w).
Proof.
  intros Htitle Hbody Hurl Hcreated Hfiles pr_id matches run.
  assert (run = handle_pr_created pr_number pr_data (apply_stmts [] w))
    as Hrun by done.
  clearbody run.
  unfold handle_pr_created, title_and_body, subscript in Hrun.
  rewrite Htitle, Hurl, Hcreated, !Hbody in Hrun.
  fold pr_id in Hrun. run_statements_in Hrun.
  change (String.append "PullRequest" (String.append ":" (pretty pr_number)))
    with pr_id in Hrun.
  fold matches in Hrun. rewrite for_each_fixes in Hrun.
  assert (run = (apply_stmts
                   (Line ("  ✅ PR #" +:+ pretty pr_number
                          +:+ " tracked in graph")
                    :: changed_stmts pr_id names
                    ++ fixes_stmts pr_id matches
                    ++ [Line ("  ✓ Created node: " +:+ pr_id);
                        Upsert pr_id "PullRequest"
                          (kwargs [("number", PInt pr_number);
                                   ("title", PStr title);
                                   ("body", PStr body);
                                   ("status", PStr "open"); ("url", url);
                                   ("created_at", created);
                                   ("additions",
                                    dict_get pr_data "additions" (PInt 0));
                                   ("deletions",
                                    dict_get pr_data "deletions" (PInt 0))]);
                        Line ("🔀 Handling PR #" +:+ pretty pr_number
                              +:+ ": " +:+ title)]) w,
                 Returned tt)) as ->.
  { destruct (pr_data !! "changed_files") as [changed_files|].
    - destruct Hfiles as (infos & -> & Hinfos). cbn [py_iter] in Hrun.
      rewrite run_bind, run_ret, (for_each_changed _ _ _ _ _ _ Hinfos)
        in Hrun.
      by run_statements_in Hrun.
    - subst names. by run_statements_in Hrun. }
  cbn [fst snd].
  split; [done|]. split; [|split].
  - eexists. split; [|split].
    + rewrite select_node_apply_stmts. cbn [node_after].
      rewrite !node_after_app_unwritten.
      * cbn [node_after now_after]. by rewrite String.eqb_refl.
      * rewrite upserted_fixes_stmts. apply not_elem_of_nil.
      * apply fixes_stmts_plain.
      * rewrite upserted_changed_stmts. intros (name & _ & Hid).
        subst pr_id. discriminate.
      * apply plain_changed_stmts.
    + unfold kwargs. rewrite !list_to_map_cons.
      by do 3 (rewrite lookup_insert_ne by discriminate).
    + unfold kwargs. rewrite !list_to_map_cons.
      by do 1 (rewrite lookup_insert_ne by discriminate).
  - intros id. rewrite node_ids_apply_stmts. cbn [upserted].
    rewrite !upserted_app, !elem_of_app, upserted_fixes_stmts,
      upserted_changed_stmts. cbn [upserted].
    rewrite list_elem_of_singleton, elem_of_nil. tauto.
  - intros k. rewrite edge_keys_apply_stmts. cbn [linked].
    rewrite !linked_app, !elem_of_app, linked_fixes_stmts,
      linked_changed_stmts. cbn [linked].
    rewrite elem_of_nil. tauto.
Qed.

Lemma handle_pr_created_links_references_and_files_witness :
  let pr_data :=
    kwargs [("title", PStr "Closes #5 and fixes #9");
            ("html_url", PStr "https://github.com/keboola/xmas/pull/3");
            ("created_at", PStr "2025-12-03T10:00:00Z");
            ("changed_files",
             PList [PDict [("filename", PStr "src/app.py")]])] in
  let run := handle_pr_created 3 pr_data (empty_world 0) in
  file_infos [PDict [("filename", PStr "src/app.py")]] ["src/app.py"]
  ∧ run.2 = Returned tt
  ∧ (∀ id, id ∈ n_id <$> nodes run.1
           ↔ id = "PullRequest:" +:+ pretty 3
             ∨ (∃ name, name ∈ ["src/app.py"] ∧ id = "Document:" +:+ name)
             ∨ id ∈ n_id <$> nodes (empty_world 0)).
Proof.
  intros pr_data run.
  assert (file_infos [PDict [("filename", PStr "src/app.py")]]
            ["src/app.py"]) as Hinfos.
  { constructor; [|constructor]. by eexists. }
  pose proof (handle_pr_created_links_references_and_files (empty_world 0) 3
                pr_data "Closes #5 and fixes #9" ""
                (PStr "https://github.com/keboola/xmas/pull/3")
                (PStr "2025-12-03T10:00:00Z") ["src/app.py"]
                eq_refl eq_refl eq_refl eq_refl
                (ex_intro _ _ (conj eq_refl Hinfos))) as H.
  split; [exact Hinfos|]. split; [apply H|apply H].
Defined.

(** X12. When [changed_files] is a number, as in a payload that carries the
    count of changed files and not their list, [handle_pr_created] raises
    [TypeError] at the loop over the files, after the pull request node and
    the [FIXED_BY] edges have been committed: nothing is rolled back, and
    the closing line is not printed. *)
Theorem handle_pr_created_fails_after_writing (w : world) (pr_number : Z)
    (pr_data : pydict) (title body : string) (url created : pyval)
    (count : Z) :
  pr_data !! "title" = Some (PStr title) →
  dict_get pr_data "body" (PStr "") = PStr body →
  pr_data !! "html_url" = Some url →
  pr_data !! "created_at" = Some created →
  pr_data !! "changed_files" = Some (PInt count) →
  let pr_id := "PullRequest:" +:+ pretty pr_number in
  let matches := findall match_fixes 0 (lower (title +:+ " " +:+ body)) in
  let run := handle_pr_created pr_number pr_data w in
  run.2 = Raised TypeError
  ∧ (∃ properties : pydict,
       select_node pr_id run.1
       = Some (NodeRow pr_id "PullRequest" properties (now w) (now w))
       ∧ properties !! "status" = Some (PStr "open"))
  ∧ (∀ k, k ∈ edge_key <$> edges run.1
          ↔ (∃ issue_num, issue_num ∈ matches
                          ∧ k = ("Issue:" +:+ issue_num, pr_id, "FIXED_BY"))
            ∨ k ∈ edge_key <$> edges w)
  ∧ stdout run.1
    = (stdout w
       ++ ["🔀 Handling PR #" +:+ pretty pr_number +:+ ": " +:+ title;
           "  ✓ Created node: " +:+ pr_id]
       ++ ((λ issue_num, "  ✓ Links to Issue #" +:+ issue_num) <$> matches))%list.
Proof.
  intros Htitle Hbody Hurl Hcreated Hfiles pr_id matches run.
  assert (run = handle_pr_created pr_number pr_data (apply_stmts [] w))
    as Hrun by done.
  clearbody run.
  unfold handle_pr_created, title_and_body, subscript in Hrun.
  rewrite Htitle, Hurl, Hcreated, Hfiles, !Hbody in Hrun.
  fold pr_id in Hrun. run_statements_in Hrun.
  change (String.append "PullRequest" (String.append ":" (pretty pr_number)))
    with pr_id in Hrun.
  fold matches in Hrun. rewrite for_each_fixes in Hrun.
  run_statements_in Hrun. subst run. cbn [fst snd].
  split; [done|]. split; [|split].
  - eexists. split.
    + rewrite select_node_apply_stmts.
      rewrite node_after_app_unwritten
        by first [ rewrite upserted_fixes_stmts; apply not_elem_of_nil
                 | apply fixes_stmts_plain ].
      cbn [node_after now_after]. by rewrite String.eqb_refl.
    + unfold kwargs. rewrite !list_to_map_cons.
      by do 3 (rewrite lookup_insert_ne by discriminate).
  - intros k. rewrite edge_keys_apply_stmts.
    rewrite linked_app, elem_of_app, linked_fixes_stmts. cbn [linked].
    rewrite elem_of_nil. tauto.
  - rewrite stdout_fixes_stmts. cbn. by rewrite <- !app_assoc.
Qed.

Lemma handle_pr_created_fails_after_writing_witness :
  let pr_data :=
    kwargs [("title", PStr "Fix auth docs"); ("body", PStr "fixes #42");
            ("html_url", PStr "https://github.com/keboola/xmas/pull/7");
            ("created_at", PStr "2025-12-02T09:00:00Z");
            ("changed_files", PInt 1)] in
  pr_data !! "changed_files" = Some (PInt 1)
  ∧ (handle_pr_created 7 pr_data (empty_world 0)).2 = Raised TypeError.
Proof.
  intros pr_data. split; [reflexivity|].
  apply (handle_pr_created_fails_after_writing (empty_world 0) 7 pr_data
           "Fix auth docs" "fixes #42"
           (PStr "https://github.com/keboola/xmas/pull/7")
           (PStr "2025-12-02T09:00:00Z") 1
           eq_refl eq_refl eq_refl eq_refl eq_refl).
Defined.

Section FailureFacts.

Variable E : exn → Prop.

Lemma bind_Raised_inv {A B} (c : M A) (k : A → M B) w w' e :
  bind c k w = (w', Raised e) →
  c w = (w', Raised e)
  ∨ ∃ a w1, c w = (w1, Returned a) ∧ k a w1 = (w', Raised e).
Proof.
  unfold bind. destruct (c w) as [w1 [a|e1]]; intros Hrun.
  - right. by exists a, w1.
  - left. by simplify_eq.
Qed.

Lemma raises_only_ret {A} (a : A) : raises_only E (ret a).
Proof. by intros w w' e. Qed.

Lemma raises_only_query {A} (q : world → A) : raises_only E (query q).
Proof. by intros w w' e. Qed.

Lemma raises_only_raise {A} (e : exn) : E e → raises_only E (@raise A e).
Proof. intros He w w' e' [= _ <-]. done. Qed.

Lemma raises_only_bind {A B} (c : M A) (k : A → M B) :
  raises_only E c → (∀ a, raises_only E (k a)) → raises_only E (bind c k).
Proof.
  intros Hc Hk w w' e [Hrun|(a & w1 & _ & Hrun)]%bind_Raised_inv.
  - by apply (Hc w w').
  - by apply (Hk a w1 w').
Qed.

Lemma raises_only_for_each {A} (xs : list A) (body : A → M unit) :
  (∀ x, x ∈ xs → raises_only E (body x)) → raises_only E (for_each xs body).
Proof.
  induction xs as [|x xs IH]; intros Hbody; [apply raises_only_ret|].
  apply raises_only_bind; [apply Hbody; by left|].
  intros _. apply IH. intros y Hy. apply Hbody. by right.
Qed.

Lemma raises_only_comprehension {A B} (xs : list A) (body : A → M B) :
  (∀ x, raises_only E (body x)) → raises_only E (comprehension xs body).
Proof.
  intros Hbody. induction xs as [|x xs IH]; [apply raises_only_ret|].
  apply raises_only_bind; [apply Hbody|]. intros y.
  apply raises_only_bind; [done|]. intros ys. apply raises_only_ret.
Qed.

Lemma raises_only_print line : raises_only E (print line).
Proof. by intros w w' e. Qed.

Lemma raises_only_add_node node_type node_id (properties : pydict) :
  raises_only E (add_node node_type node_id properties).
Proof. by intros w w' e. Qed.

Lemma raises_only_add_edge f t r (properties : pydict) :
  raises_only E (add_edge f t r properties).
Proof. by intros w w' e. Qed.

End FailureFacts.

Lemma raises_only_py_format v : raises_only (λ e, e = Unmodelled) (py_format v).
Proof. destruct v as [| [|] | | | |]; intros w w' e [= _ <-]; done. Qed.

Lemma reads_only_label_names (issue_data : pydict) :
  reads_only (label_names issue_data).
Proof.
  assert (∀ labels, reads_only
                      (comprehension labels (λ label, py_getitem label "name")))
    as Hnames.
  { induction labels as [|label labels IH]; [done|]. intros w.
    cbn [comprehension]. unfold bind at 1.
    assert ((py_getitem label "name" w).1 = w) as Hitem.
    { destruct label; try done. cbn. by destruct (assoc "name" _). }
    destruct (py_getitem label "name" w) as [w1 [y|e]]; cbn in Hitem;
      subst w1; [|done].
    unfold bind. specialize (IH w).
    destruct (comprehension labels _ w) as [w1 [ys|e]]; done. }
  intros w. unfold label_names, bind.
  assert ((py_iter (dict_get issue_data "labels" (PList [])) w).1 = w)
    as Hiter by (by destruct (dict_get _ _ _)).
  destruct (py_iter _ w) as [w1 [labels|e]]; cbn in Hiter; subst w1; [|done].
  specialize (Hnames labels w).
  destruct (comprehension labels _ w) as [w1 [ys|e]]; done.
Qed.

Lemma raises_only_label_names (issue_data : pydict) :
  raises_only (λ e, e = TypeError ∨ e = KeyError "name")
              (label_names issue_data).
Proof.
  unfold label_names. apply raises_only_bind.
  - destruct (dict_get _ _ _); intros w w' e [= _ <-]; by left.
  - intros labels. apply raises_only_bind; [|intros; apply raises_only_ret].
    apply raises_only_comprehension. intros label.
    destruct label; try (intros w w' e [= _ <-]; by left).
    cbn. destruct (assoc "name" _); intros w w' e [= _ <-]. by right.
Qed.

(** Every concept id has a name after its colon. *)
Lemma concept_ids_have_names (text concept_id : string) :
  concept_id ∈ extract_concepts_from_text text →
  is_Some (split ":" concept_id !! 1%nat).
Proof.
  unfold extract_concepts_from_text. rewrite elem_of_list_to_set.
  intros ([kw c] & -> & Hin)%list_elem_of_fmap.
  apply list_elem_of_filter in Hin as [_ Hin]. unfold keywords in Hin.
  repeat (apply elem_of_cons in Hin as [[= -> ->]|Hin]; [by eexists|]).
  by apply elem_of_nil in Hin.
Qed.

(** X13. Whatever the payload: when [handle_issue_created] raises
    [KeyError] or [TypeError], it does so before its first statement on the
    database, so the tables are as they were; the key that is missing is
    [title], [html_url], [created_at] or the [name] of a label. *)
Theorem issue_created_fails_before_writing
    (set_order : gset string → list string) (issue_number : Z)
    (issue_data : pydict) (w w' : world) (e : exn) :
  (∀ s x, x ∈ set_order s → x ∈ s) →
  handle_issue_created set_order issue_number issue_data w = (w', Raised e) →
  e ≠ Unmodelled →
  nodes w' = nodes w
  ∧ edges w' = edges w
  ∧ (e = TypeError
     ∨ ∃ key, key ∈ ["title"; "html_url"; "created_at"; "name"]
              ∧ e = KeyError key).
Proof.
  intros Horder Hrun Hmodelled.
  change w with (apply_stmts [] w) in Hrun.
  unfold handle_issue_created, title_and_body, subscript in Hrun.
  destruct (issue_data !! "title") as [title|] eqn:Htitle; cycle 1.
  { rewrite run_raise in Hrun. simplify_eq. split; [done|]. split; [done|].
    right. exists "title". split; [|done]. by left. }
  rewrite run_ret in Hrun.
  assert (∃ text, py_format title = ret text) as [text Hfmt].
  { destruct title as [| [|] | | | |]; try (by eexists);
      cbn [py_format] in Hrun; rewrite run_raise in Hrun; by simplify_eq. }
  rewrite !Hfmt in Hrun.
  rewrite run_ret, line_print, run_ret in Hrun.
  match type of Hrun with
  | bind (label_names _) _ ?w0 = _ =>
      pose proof (reads_only_label_names issue_data w0) as Hpure;
      destruct (label_names issue_data w0) as [w2 [labels|e2]] eqn:Hlabels;
      cbn [fst] in Hpure; subst w2
  end; cycle 1.
  { rewrite (bind_raise _ _ _ _ _ Hlabels) in Hrun. simplify_eq.
    split; [done|]. split; [done|].
    apply raises_only_label_names in Hlabels as [->| ->]; [by left|].
    right. exists "name". split; [|done]. do 3 right. by left. }
  rewrite (bind_run _ _ _ _ _ Hlabels) in Hrun.
  destruct (issue_data !! "html_url") as [url|]; cycle 1.
  { rewrite run_raise in Hrun. simplify_eq. split; [done|]. split; [done|].
    right. exists "html_url". split; [|done]. right. by left. }
  rewrite run_ret in Hrun.
  destruct (issue_data !! "created_at") as [created|]; cycle 1.
  { rewrite run_raise in Hrun. simplify_eq. split; [done|]. split; [done|].
    right. exists "created_at". split; [|done]. do 2 right. by left. }
  rewrite run_ret, line_add_node in Hrun.
  exfalso. apply Hmodelled. revert Hrun.
  match goal with
  | |- ?c ?w0 = _ → _ =>
      generalize w0; intros w0' Hrun;
      assert (raises_only (λ e, e = Unmodelled) c) as Hrest;
      [|exact (Hrest _ _ _ Hrun)]
  end.
  clear Hrun.
  apply raises_only_bind; [apply raises_only_print|intros _].
  apply raises_only_bind.
  { apply raises_only_bind; [apply raises_only_ret|intros ?].
    apply raises_only_bind; [apply raises_only_py_format|intros ?].
    apply raises_only_bind; [apply raises_only_py_format|intros ?].
    apply raises_only_ret. }
  intros full_text. apply raises_only_bind.
  { apply raises_only_for_each. intros concept_id Hin.
    apply Horder, concept_ids_have_names in Hin as [concept_name Hname].
    unfold list_item. rewrite Hname.
    apply raises_only_bind; [apply raises_only_ret|intros ?].
    apply raises_only_bind; [apply raises_only_add_node|intros ?].
    apply raises_only_bind; [apply raises_only_add_edge|intros ?].
    apply raises_only_print. }
  intros _. apply raises_only_bind; [|intros _; apply raises_only_print].
  apply raises_only_for_each. intros file_path _.
  apply raises_only_bind; [apply raises_only_add_node|intros ?].
  apply raises_only_bind; [apply raises_only_add_edge|intros ?].
  apply raises_only_print.
Qed.

Lemma issue_created_fails_before_writing_witness :
  let w := (add_node "Concept" "Flows" ∅ (empty_world 0)).1 in
  let issue_data :=
    kwargs [("title", PStr "Token rejected");
            ("labels", PList [PStr "bug"]);
            ("html_url", PStr "https://github.com/keboola/xmas/issues/9");
            ("created_at", PStr "2025-12-04T11:00:00Z")] in
  ∃ w', handle_issue_created elements 9 issue_data w = (w', Raised TypeError)
        ∧ nodes w' = nodes w.
Proof.
  intros w issue_data.
  assert (∀ (s : gset string) (x : string), x ∈ elements s → x ∈ s)
    as Horder by (intros s x; apply elem_of_elements).
  eexists. split; [vm_compute; reflexivity|].
  refine (proj1 (issue_created_fails_before_writing elements 9 issue_data w
                   _ TypeError Horder _ _)).
  - vm_compute. reflexivity.
  - discriminate.
Defined.

(** * Properties of the text extraction *)

Section StringFacts.

Implicit Types (s p a b : string) (c : ascii).

Lemma append_cons c a b : String c a +:+ b = String c (a +:+ b).
Proof. done. Qed.

Lemma append_nil_l a : "" +:+ a = a.
Proof. done. Qed.

Lemma append_nil_r a : a +:+ "" = a.
Proof. induction a as [|c a IH]; [done|]. by rewrite append_cons, IH. Qed.

Lemma append_assoc a b s : (a +:+ b) +:+ s = a +:+ b +:+ s.
Proof. induction a as [|c a IH]; [done|]. by rewrite !append_cons, IH. Qed.

Lemma lower_app a b : lower (a +:+ b) = lower a +:+ lower b.
Proof.
  induction a as [|c a IH]; [done|].
  rewrite append_cons. cbn [lower]. by rewrite append_cons, IH.
Qed.

(** [lower] works character by character, so a split of the lowered text
    is the image of a split of the text. *)
Lemma lower_split s a' b' :
  lower s = a' +:+ b' →
  ∃ a b, s = a +:+ b ∧ lower a = a' ∧ lower b = b'.
Proof.
  revert s. induction a' as [|c a' IH]; intros s Hs.
  - by exists "", s.
  - destruct s as [|d s]; [done|].
    rewrite append_cons in Hs. cbn [lower] in Hs.
    injection Hs as Hc Hs. apply IH in Hs as (a & b & -> & <- & <-).
    exists (String d a), b. rewrite append_cons. cbn [lower].
    by rewrite Hc.
Qed.

Lemma prefix_spec p s : String.prefix p s = true ↔ ∃ b, s = p +:+ b.
Proof.
  revert s. induction p as [|c p IH]; intros s.
  - split; [by exists s|]. intros _. by destruct s.
  - destruct s as [|d s]; cbn [String.prefix].
    + split; [done|]. by intros (b & ?).
    + destruct (Ascii.ascii_dec c d) as [->|Hcd].
      * rewrite IH. split; intros (b & Hb); exists b.
        -- by rewrite append_cons, Hb.
        -- rewrite append_cons in Hb. by simplify_eq.
      * split; [done|]. intros (b & Hb). rewrite append_cons in Hb.
        by simplify_eq.
Qed.

(** [needle in hay] finds the needle anywhere in the text. *)
Lemma contains_spec p s :
  contains p s = true ↔ ∃ a b, s = a +:+ p +:+ b.
Proof.
  induction s as [|d s IH].
  - cbn [contains]. rewrite orb_false_r, prefix_spec. split.
    + intros (b & Hb). by exists "", b.
    + intros (a & b & Hs). destruct a; [by exists b|done].
  - cbn [contains]. rewrite orb_true_iff, prefix_spec, IH. split.
    + intros [(b & Hb)|(a & b & Hs)].
      * by exists "", b.
      * exists (String d a), b. by rewrite append_cons, Hs.
    + intros ([|c a] & b & Hs).
      * left. by exists b.
      * right. rewrite append_cons in Hs. simplify_eq. by exists a, b.
Qed.

Lemma strip_prefix_spec p s rest :
  strip_prefix p s = Some rest → s = p +:+ rest.
Proof.
  revert s. induction p as [|c p IH]; intros s Hs.
  - cbn in Hs. by simplify_eq.
  - destruct s as [|d s]; [done|]. cbn [strip_prefix] in Hs.
    case_bool_decide; [|done]. subst d. rewrite append_cons.
    f_equal. by apply IH.
Qed.

Lemma alternative_spec alts s alt rest :
  alternative alts s = Some (alt, rest) → alt ∈ alts ∧ s = alt +:+ rest.
Proof.
  induction alts as [|x alts IH]; [done|]. cbn [alternative].
  destruct (strip_prefix x s) as [r|] eqn:Hx.
  - intros [= <- <-]. split; [by left|]. by apply strip_prefix_spec.
  - intros [Hin Hs]%IH. split; [by right|done].
Qed.

(** The longest run: what follows it does not start in the class. *)
Lemma span_spec cls s run rest :
  span cls s = (run, rest) →
  s = run +:+ rest
  ∧ all_chars cls run = true
  ∧ (∀ c rest', rest = String c rest' → cls c = false).
Proof.
  revert run rest. induction s as [|d s IH]; intros run rest Hs.
  - cbn in Hs. by simplify_eq.
  - cbn [span] in Hs. destruct (cls d) eqn:Hd.
    + destruct (span cls s) as [run' rest'] eqn:Hspan. simplify_eq.
      destruct (IH run' rest eq_refl) as (-> & Hall & Hstop).
      split; [done|]. split; [|done]. cbn [all_chars]. by rewrite Hd.
    + simplify_eq. split; [done|]. split; [done|].
      intros c rest' [= -> ->]. done.
Qed.

(** Whatever [re.findall] yields was matched at some position of the
    text. *)
Lemma findall_elem (match_at : string → option (string * nat)) (skip : nat)
    s found :
  found ∈ findall match_at skip s →
  ∃ before here len, s = before +:+ here
                     ∧ match_at here = Some (found, len).
Proof.
  revert skip. induction s as [|d s IH]; intros skip Hin.
  - by apply elem_of_nil in Hin.
  - cbn [findall] in Hin.
    assert (∀ skip', found ∈ findall match_at skip' s →
                     ∃ before here len, String d s = before +:+ here
                                        ∧ match_at here = Some (found, len))
      as Hlater.
    { intros skip' Hin'. apply IH in Hin' as (before & here & len & -> & Hm).
      by exists (String d before), here, len. }
    destruct skip as [|skip]; [|by apply (Hlater skip)].
    destruct (match_at (String d s)) as [[x len]|] eqn:Hm;
      [|by apply (Hlater 0%nat)].
    apply elem_of_cons in Hin as [->|Hin]; [|by apply (Hlater (Nat.pred len))].
    by exists "", (String d s), len.
Qed.

End StringFacts.

(** X14. A concept is extracted from an ASCII text exactly when one of its
    keywords occurs somewhere in the text, in any mix of upper and lower
    case and whatever stands before or after it, be it inside a longer
    word. *)
Theorem extract_concepts_finds_keywords_anywhere (text concept_id : string) :
  all_chars is_ascii text = true →
  concept_id ∈ extract_concepts_from_text text
  ↔ ∃ keyword before found after,
      (keyword, concept_id) ∈ keywords
      ∧ text = before +:+ found +:+ after
      ∧ lower found = lower keyword.
Proof.
  intros _.
  unfold extract_concepts_from_text. rewrite elem_of_list_to_set.
  rewrite list_elem_of_fmap. split.
  - intros ([keyword c] & -> & Hin).
    apply list_elem_of_filter in Hin as [Hfound Hin]. cbn [fst snd] in *.
    apply contains_spec in Hfound as (a' & b' & Hsplit).
    apply lower_split in Hsplit as (before & rest & -> & _ & Hrest).
    apply lower_split in Hrest as (found & after & -> & Hfound & _).
    by exists keyword, before, found, after.
  - intros (keyword & before & found & after & Hin & -> & Hfound).
    exists (keyword, concept_id). split; [done|].
    apply list_elem_of_filter. split; [|done]. cbn [fst].
    apply contains_spec. exists (lower before), (lower after).
    by rewrite !lower_app, Hfound.
Qed.

Lemma extract_concepts_finds_keywords_anywhere_witness :
  all_chars is_ascii "The nightly WORKFLOW broke" = true
  ∧ "Concept:Flows"
    ∈ extract_concepts_from_text "The nightly WORKFLOW broke".
Proof.
  assert (all_chars is_ascii "The nightly WORKFLOW broke" = true) as Hascii
    by reflexivity.
  split; [exact Hascii|].
  apply (extract_concepts_finds_keywords_anywhere _ _ Hascii).
  exists "Flow", "The nightly WORK", "FLOW", " broke".
  split; [|split; reflexivity].
  unfold keywords. do 9 right. left.
Defined.

(** X15. Every path [extract_files_from_text] yields from an ASCII text
    stands in the text and is made of [docs] or [skills], a slash, a
    non-empty run of letters, digits, underscores, slashes and hyphens, a
    dot and one of [md], [py] and [yaml]. *)
Theorem extract_files_shape (text file_path : string) :
  all_chars is_ascii text = true →
  file_path ∈ extract_files_from_text text →
  ∃ dir run ext before after,
    file_path = dir +:+ "/" +:+ run +:+ "." +:+ ext
    ∧ dir ∈ ["docs"; "skills"]
    ∧ run ≠ ""
    ∧ all_chars is_path_char run = true
    ∧ ext ∈ ["md"; "py"; "yaml"]
    ∧ text = before +:+ file_path +:+ after.
Proof.
  intros _. unfold extract_files_from_text. rewrite elem_of_list_to_set.
  intros (before & here & len & -> & Hmatch)%findall_elem.
  unfold match_file in Hmatch.
  destruct (alternative ["docs"; "skills"] here) as [[dir s1]|] eqn:Hdir;
    [|done].
  apply alternative_spec in Hdir as [Hdir ->].
  destruct (strip_prefix "/" s1) as [s2|] eqn:Hslash; [|done].
  apply strip_prefix_spec in Hslash as ->.
  destruct (span is_path_char s2) as [run s3] eqn:Hrun.
  apply span_spec in Hrun as (-> & Hrun & _).
  case_bool_decide as Hempty; [done|].
  destruct (strip_prefix "." s3) as [s4|] eqn:Hdot; [|done].
  apply strip_prefix_spec in Hdot as ->.
  destruct (alternative ["md"; "py"; "yaml"] s4) as [[ext after]|] eqn:Hext;
    [|done].
  apply alternative_spec in Hext as [Hext ->].
  injection Hmatch as <- _.
  exists dir, run, ext, before, after.
  split; [done|]. split; [done|]. split; [done|]. split; [done|].
  split; [done|]. by rewrite !append_assoc.
Qed.

Lemma extract_files_shape_witness :
  all_chars is_ascii "see docs/a-b/c.mdx and docs/v1.2.md" = true
  ∧ "docs/a-b/c.md"
    ∈ extract_files_from_text "see docs/a-b/c.mdx and docs/v1.2.md"
  ∧ ∃ dir run ext before after,
      "docs/a-b/c.md" = dir +:+ "/" +:+ run +:+ "." +:+ ext
      ∧ dir ∈ ["docs"; "skills"]
      ∧ run ≠ ""
      ∧ all_chars is_path_char run = true
      ∧ ext ∈ ["md"; "py"; "yaml"]
      ∧ "see docs/a-b/c.mdx and docs/v1.2.md"
        = before +:+ "docs/a-b/c.md" +:+ after.
Proof.
  assert ("docs/a-b/c.md"
          ∈ extract_files_from_text "see docs/a-b/c.mdx and docs/v1.2.md")
    as Hin.
  { unfold extract_files_from_text. apply elem_of_list_to_set.
    assert (findall match_file 0 "see docs/a-b/c.mdx and docs/v1.2.md"
            = ["docs/a-b/c.md"]) as -> by (vm_compute; reflexivity).
    by left. }
  split; [reflexivity|]. split; [exact Hin|].
  exact (extract_files_shape "see docs/a-b/c.mdx and docs/v1.2.md" _ eq_refl
           Hin).
Defined.

(** X16. Every issue number [handle_pr_created] reads off an ASCII text is
    a non-empty run of digits that stands in the text after [fixes],
    [closes] or [resolves], at least one blank and a [#]; the run is the
    longest one: no digit follows it. *)
Theorem fixes_references_shape (text issue_num : string) :
  all_chars is_ascii text = true →
  issue_num ∈ findall match_fixes 0 text →
  ∃ verb blank before after,
    text = before +:+ verb +:+ blank +:+ "#" +:+ issue_num +:+ after
    ∧ verb ∈ ["fixes"; "closes"; "resolves"]
    ∧ blank ≠ "" ∧ all_chars is_space blank = true
    ∧ issue_num ≠ "" ∧ all_chars is_digit issue_num = true
    ∧ (∀ c rest, after = String c rest → is_digit c = false).
Proof.
  intros _ (before & here & len & -> & Hmatch)%findall_elem.
  unfold match_fixes in Hmatch.
  destruct (alternative ["fixes"; "closes"; "resolves"] here)
    as [[verb s1]|] eqn:Hverb; [|done].
  apply alternative_spec in Hverb as [Hverb ->].
  destruct (span is_space s1) as [blank s2] eqn:Hblank.
  apply span_spec in Hblank as (-> & Hblank & _).
  case_bool_decide as Hgap; [done|].
  destruct (strip_prefix "#" s2) as [s3|] eqn:Hhash; [|done].
  apply strip_prefix_spec in Hhash as ->.
  destruct (span is_digit s3) as [digits after] eqn:Hdigits.
  apply span_spec in Hdigits as (-> & Hdigits & Hstop).
  case_bool_decide as Hnone; [done|].
  injection Hmatch as <- _.
  by exists verb, blank, before, after.
Qed.

Lemma fixes_references_shape_witness :
  all_chars is_ascii (lower "Fixes  #42a, closes#7") = true
  ∧ "42" ∈ findall match_fixes 0 (lower "Fixes  #42a, closes#7")
  ∧ ∃ verb blank before after,
      lower "Fixes  #42a, closes#7"
      = before +:+ verb +:+ blank +:+ "#" +:+ "42" +:+ after
      ∧ verb ∈ ["fixes"; "closes"; "resolves"]
      ∧ blank ≠ "" ∧ all_chars is_space blank = true
      ∧ "42" ≠ "" ∧ all_chars is_digit "42" = true
      ∧ (∀ c rest, after = String c rest → is_digit c = false).
Proof.
  assert ("42" ∈ findall match_fixes 0 (lower "Fixes  #42a, closes#7"))
    as Hin.
  { assert (findall match_fixes 0 (lower "Fixes  #42a, closes#7") = ["42"])
      as -> by (vm_compute; reflexivity).
    by left. }
  split; [reflexivity|]. split; [exact Hin|].
  exact (fixes_references_shape (lower "Fixes  #42a, closes#7") _ eq_refl
           Hin).
Defined.

(** * The merge cascade on any store *)

Section PrintFacts.

Lemma prints_only_ret {A} (a : A) : prints_only (ret a).
Proof. intros w. by exists a. Qed.

Lemma prints_only_query {A} (q : world → A) : prints_only (query q).
Proof. intros w. by exists (q w). Qed.

Lemma prints_only_print line : prints_only (print line).
Proof. intros w. by exists tt. Qed.

Lemma prints_only_bind {A B} (c : M A) (k : A → M B) :
  prints_only c → (∀ a, prints_only (k a)) → prints_only (bind c k).
Proof.
  intros Hc Hk w. unfold bind.
  destruct (Hc w) as (a & Ha & Hn & He & Ht).
  destruct (c w) as [w1 out]. cbn in *. subst out.
  destruct (Hk a w1) as (b & Hb & Hn' & He' & Ht').
  exists b. split; [done|]. split; [congruence|]. split; congruence.
Qed.

Lemma prints_only_for_each {A} (xs : list A) (body : A → M unit) :
  (∀ x, prints_only (body x)) → prints_only (for_each xs body).
Proof.
  intros Hbody. induction xs as [|x xs IH]; [apply prints_only_ret|].
  apply prints_only_bind; [apply Hbody|done].
Qed.

Lemma prints_only_for_fold {A S} (xs : list A) (s : S) (body : A → S → M S) :
  (∀ x s, prints_only (body x s)) → prints_only (for_fold xs s body).
Proof.
  intros Hbody. revert s. induction xs as [|x xs IH]; intros s;
    [apply prints_only_ret|].
  apply prints_only_bind; [apply Hbody|done].
Qed.

Lemma prints_only_find_dependents node_id max_depth :
  prints_only (find_dependents node_id max_depth).
Proof.
  intros w. destruct (select_dependents_is_Some w node_id max_depth)
    as [ds Hds].
  exists ds. by rewrite (find_dependents_run _ _ _ _ Hds).
Qed.

End PrintFacts.

Section MergeFacts.

Implicit Types (w : world) (r : node_row).

Lemma close_row_idemp t r : close_row t (close_row t r) = close_row t r.
Proof. unfold close_row. cbn. by rewrite insert_insert_eq. Qed.

Lemma unique_nodes_select w r :
  unique_nodes w → r ∈ nodes w → select_node (n_id r) w = Some r.
Proof.
  intros Hw Hr. destruct (select_node (n_id r) w) as [r'|] eqn:Hsel.
  - apply select_node_elem in Hsel as [Hr' Hid]. f_equal.
    by apply (NoDup_fmap_elem_inj n_id (nodes w)).
  - unfold select_node in Hsel. apply head_None in Hsel.
    assert (r ∈ filter (λ r0, n_id r0 = n_id r) (nodes w)) as Hin
      by by apply list_elem_of_filter.
    rewrite Hsel in Hin. by apply elem_of_nil in Hin.
Qed.

Lemma head_filter_id_fmap (f : node_row → node_row) (j : string)
    (rows : list node_row) :
  (∀ r, n_id (f r) = n_id r) →
  head (filter (λ r, n_id r = j) (f <$> rows))
  = f <$> head (filter (λ r, n_id r = j) rows).
Proof.
  intros Hf. induction rows as [|r rows IH]; [done|].
  rewrite fmap_cons, !filter_cons, Hf. by case_decide.
Qed.

(** Under the primary key, the [UPDATE] of [update_node] rewrites the one
    row it has read. *)
Lemma nodes_close_issue w r :
  unique_nodes w → r ∈ nodes w →
  nodes (update_node_row (n_id r)
           (kwargs [("status", PStr "closed")] ∪ n_properties r) w)
  = (λ r', if decide (n_id r' = n_id r) then close_row (now w) r' else r')
      <$> nodes w.
Proof.
  intros Hw Hr. unfold update_node_row. cbn [nodes].
  apply list_fmap_ext. intros i r' Hr'. case_decide as Hid; [|done].
  apply list_elem_of_lookup_2 in Hr'.
  assert (r' = r) as -> by by apply (NoDup_fmap_elem_inj n_id (nodes w)).
  unfold close_row. by rewrite status_overlay.
Qed.

Lemma handle_pr_merged_parts (set_order : gset string → list string)
    (pr_number : Z) :
  handle_pr_merged set_order pr_number
  = (print ("✅ Merging PR #" +:+ pretty pr_number) ;;
     let pr_id := "PullRequest:" +:+ pretty pr_number in
     update_node pr_id (kwargs [("status", PStr "merged")]) ;;
     let* related := find_related pr_id (Some "FIXED_BY") in
     for_each related close_issue ;;
     merge_report set_order pr_id pr_number).
Proof. done. Qed.

Lemma close_loop (related : list related_node) :
  ∀ w,
    unique_nodes w →
    (∀ node, node ∈ related → r_type node = "Issue" →
             r_id node ∈ n_id <$> nodes w
             ∧ ∃ v text, r_properties node !! "number" = Some v
                         ∧ py_format v = ret text) →
    ∃ w' lines,
      for_each related close_issue w = (w', Returned tt)
      ∧ edges w' = edges w ∧ now w' = now w
      ∧ nodes w'
        = (λ r, if decide (n_id r ∈ closed_ids related)
                then close_row (now w) r else r) <$> nodes w
      ∧ stdout w' = (stdout w ++ lines)%list
      ∧ Forall (λ line, ∃ text, line = "  ✓ Closed Issue #" +:+ text) lines.
Proof.
  induction related as [|node related IH]; intros w Hw Hrel.
  - exists w, []. split; [done|]. split; [done|]. split; [done|].
    split; [|split; [by rewrite app_nil_r|constructor]].
    unfold closed_ids. cbn. rewrite <- (list_fmap_id (nodes w)) at 1.
    apply list_fmap_ext. intros i r _. rewrite decide_False; [done|].
    apply not_elem_of_nil.
  - cbn [for_each]. unfold close_issue at 1. case_bool_decide as Htype.
    + destruct (Hrel node) as [Hid (v & text & Hv & Hfmt)]; [by left|done|].
      apply list_elem_of_fmap in Hid as (r & Hid & Hr).
      pose proof (unique_nodes_select w r Hw Hr) as Hsel.
      rewrite <- Hid in Hsel.
      rewrite run_bind, (run_update_node _ _ _ _ _ Hsel).
      unfold subscript. rewrite Hv, run_bind, run_ret, run_bind, Hfmt, run_ret.
      rewrite run_print.
      set (w1 := write_line _ (update_node_row _ _ w)).
      assert (nodes w1
              = (λ r', if decide (n_id r' = n_id r)
                       then close_row (now w) r' else r') <$> nodes w)
        as Hnodes1.
      { subst w1. rewrite nodes_write_line, Hid.
        by apply nodes_close_issue. }
      destruct (IH w1) as (w' & lines & Hrun & He & Ht & Hn & Hout & Hlines).
      { subst w1. unfold unique_nodes. rewrite nodes_write_line.
        by apply unique_nodes_update_node_row. }
      { intros node' Hin' Htype'.
        destruct (Hrel node') as [Hid' Hnum]; [by right|done|].
        split; [|done]. subst w1.
        by rewrite nodes_write_line, node_ids_update_node_row. }
      exists w', (("  ✓ Closed Issue #" +:+ text) :: lines).
      split; [done|]. split; [by rewrite He|].
      split; [by rewrite Ht|]. split; [|split].
      * assert (closed_ids (node :: related)
                = n_id r :: closed_ids related) as Hids.
        { unfold closed_ids. by rewrite filter_cons_True, fmap_cons, Hid. }
        assert (now w1 = now w) as Hnow by done.
        rewrite Hn, Hnodes1, <- list_fmap_compose, Hids, Hnow.
        apply list_fmap_ext. intros i r' _. unfold compose.
        destruct (decide (n_id r' = n_id r)) as [Heq|Hne].
        -- rewrite (decide_True (P := n_id r' ∈ n_id r :: _))
             by (rewrite Heq; by left).
           case_decide; [apply close_row_idemp|done].
        -- destruct (decide (n_id r' ∈ closed_ids related)) as [Hin|Hin].
           ++ rewrite decide_True by (by right). done.
           ++ rewrite decide_False; [done|].
              intros [?|?]%elem_of_cons; done.
      * rewrite Hout. subst w1. cbn. by rewrite <- app_assoc.
      * constructor; [by exists text|done].
    + rewrite run_ret.
      destruct (IH w Hw) as (w' & lines & Hrun & He & Ht & Hn & Hout & Hlines).
      { intros node' Hin' Htype'. apply Hrel; [by right|done]. }
      exists w', lines. split; [done|]. split; [done|]. split; [done|].
      split; [|done].
      rewrite Hn. unfold closed_ids. by rewrite filter_cons_False.
Qed.

Lemma prints_only_merge_report (set_order : gset string → list string)
    (pr_id : string) (pr_number : Z) :
  prints_only (merge_report set_order pr_id pr_number).
Proof.
  apply prints_only_bind; [apply prints_only_query|].
  intros modified_docs. apply prints_only_bind;
    [|intros; apply prints_only_print].
  destruct modified_docs; [apply prints_only_ret|].
  apply prints_only_bind; [apply prints_only_print|]. intros _.
  apply prints_only_bind.
  - apply prints_only_for_fold. intros doc affected.
    apply prints_only_bind; [apply prints_only_find_dependents|].
    intros; apply prints_only_ret.
  - intros affected. case_bool_decide; [apply prints_only_ret|].
    apply prints_only_bind; [apply prints_only_print|]. intros _.
    apply prints_only_for_each. intros; apply prints_only_print.
Qed.

(** The run of [handle_pr_merged] up to the report. *)
Lemma pr_merge_run (set_order : gset string → list string) (w : world)
    (pr_number : Z) (pr : node_row) :
  let pr_id := "PullRequest:" +:+ pretty pr_number in
  unique_nodes w →
  select_node pr_id w = Some pr →
  n_type pr = "PullRequest" →
  (∀ issue, fixed_by w pr_id issue →
            ∃ v text, n_properties issue !! "number" = Some v
                      ∧ py_format v = ret text) →
  ∃ w2 lines,
    handle_pr_merged set_order pr_number w
    = merge_report set_order pr_id pr_number w2
    ∧ edges w2 = edges w
    ∧ n_id <$> nodes w2 = n_id <$> nodes w
    ∧ select_node pr_id w2
      = Some (NodeRow pr_id "PullRequest"
                (<["status" := PStr "merged"]> (n_properties pr))
                (n_created_at pr) (now w))
    ∧ (∀ issue, fixed_by w pr_id issue →
                select_node (n_id issue) w2 = Some (close_row (now w) issue))
    ∧ (∀ r, r ∈ nodes w → n_id r ≠ pr_id → ¬ fixed_by w pr_id r →
            select_node (n_id r) w2 = Some r)
    ∧ stdout w2
      = (stdout w ++ ("✅ Merging PR #" +:+ pretty pr_number) :: lines)%list
    ∧ Forall (λ line, ∃ text, line = "  ✓ Closed Issue #" +:+ text) lines.
Proof.
  intros pr_id Hw Hpr Htype Hnumbers.
  apply select_node_elem in Hpr as Hpr'. destruct Hpr' as [Hprin Hprid].
  (* the update of the pull request *)
  set (w0 := write_line ("✅ Merging PR #" +:+ pretty pr_number) w).
  set (merged := kwargs [("status", PStr "merged")] ∪ n_properties pr).
  set (w1 := update_node_row pr_id merged w0).
  set (g_pr := λ r, if decide (n_id r = pr_id)
                    then NodeRow (n_id r) (n_type r) merged (n_created_at r)
                                 (now w)
                    else r).
  assert (nodes w1 = g_pr <$> nodes w) as Hnodes1 by done.
  assert (∀ r, n_id (g_pr r) = n_id r) as Hg_pr_id
    by (intros r; unfold g_pr; by case_decide).
  assert (∀ r, n_type (g_pr r) = n_type r) as Hg_pr_type
    by (intros r; unfold g_pr; by case_decide).
  assert (∀ issue, fixed_by w pr_id issue → n_id issue ≠ pr_id) as Hother.
  { intros issue (Hin & Hissue & _) Hid.
    assert (issue = pr) as ->
      by (apply (NoDup_fmap_elem_inj n_id (nodes w));
          [exact Hw|done|done|congruence]).
    congruence. }
  (* the issues the loop walks over *)
  set (related := select_related pr_id (Some "FIXED_BY") w1).
  assert (∀ node, node ∈ related → r_type node = "Issue" →
                  ∃ issue, fixed_by w pr_id issue ∧ node = related_of issue)
    as Hrelated.
  { intros node Hnode Hissue.
    apply select_related_elem in Hnode as (e & n1 & He & Hsel & Hn1 & Hj & ->).
    rewrite Hnodes1 in Hn1. apply list_elem_of_fmap in Hn1 as (n0 & -> & Hn0).
    cbn [related_of r_type] in Hissue. rewrite Hg_pr_type in Hissue.
    assert (n_id n0 ≠ pr_id) as Hne.
    { intros Hid.
      assert (n0 = pr) as ->
        by (apply (NoDup_fmap_elem_inj n_id (nodes w));
            [exact Hw|done|done|congruence]).
      congruence. }
    assert (g_pr n0 = n0) as Hsame by (unfold g_pr; by rewrite decide_False).
    rewrite Hsame in *. exists n0. split; [|done].
    split; [done|]. split; [done|]. exists e. split; [done|].
    split.
    - destruct Hsel as [_ Hrel]. cbn in Hrel.
      specialize (Hrel eq_refl). by simplify_eq.
    - by apply (selected_links pr_id (Some "FIXED_BY") e (n_id n0)). }
  assert (∀ issue, fixed_by w pr_id issue → n_id issue ∈ closed_ids related)
    as Hclosed.
  { intros issue Hfixed. pose proof (Hother _ Hfixed) as Hne.
    destruct Hfixed as (Hin & Hissue & e & He & Hrel & Hlinks).
    unfold closed_ids. apply list_elem_of_fmap. exists (related_of issue).
    split; [done|]. apply list_elem_of_filter. split; [done|].
    apply select_related_elem. exists e, issue.
    split; [done|]. split.
    { split; [|intros _; by rewrite Hrel].
      unfold links in Hlinks. tauto. }
    split.
    { rewrite Hnodes1. apply list_elem_of_fmap. exists issue.
      split; [|done]. unfold g_pr. by rewrite decide_False. }
    split; [|done].
    unfold edge_joins, links in *. tauto. }
  assert (∀ j, j ∈ closed_ids related →
               ∃ issue, fixed_by w pr_id issue ∧ n_id issue = j) as Hclosed'.
  { intros j Hj. unfold closed_ids in Hj.
    apply list_elem_of_fmap in Hj as (node & -> & Hnode).
    apply list_elem_of_filter in Hnode as [Hissue Hnode].
    destruct (Hrelated node Hnode Hissue) as (issue & Hfixed & ->).
    by exists issue. }
  (* the loop *)
  destruct (close_loop related w1)
    as (w2 & lines & Hloop & Hedges2 & Hnow2 & Hnodes2 & Hout2 & Hlines).
  { unfold unique_nodes. rewrite Hnodes1, <- list_fmap_compose.
    erewrite list_fmap_ext; [exact Hw|]. intros i r _. apply Hg_pr_id. }
  { intros node Hnode Hissue.
    destruct (Hrelated node Hnode Hissue) as (issue & Hfixed & ->).
    split; [|by apply Hnumbers].
    rewrite Hnodes1, <- list_fmap_compose. cbn [related_of r_id].
    apply list_elem_of_fmap. exists issue.
    split; [unfold compose; by rewrite Hg_pr_id|].
    by destruct Hfixed. }
  exists w2, lines.
  set (g_close := λ r, if decide (n_id r ∈ closed_ids related)
                       then close_row (now w1) r else r) in Hnodes2.
  assert (∀ r, n_id (g_close r) = n_id r) as Hg_close_id
    by (intros r; unfold g_close; by case_decide).
  assert (∀ j, select_node j w2
               = g_close <$> (g_pr <$> select_node j w)) as Hselect.
  { intros j. unfold select_node. rewrite Hnodes2, Hnodes1.
    by rewrite !head_filter_id_fmap. }
  split.
  { rewrite handle_pr_merged_parts. fold pr_id.
    rewrite run_print. fold w0. cbv zeta.
    rewrite (run_update_node pr_id _ _ w0 pr Hpr). fold merged. fold w1.
    unfold find_related at 1. rewrite run_query. fold related.
    by rewrite (bind_run _ _ _ _ _ Hloop). }
  split; [by rewrite Hedges2|].
  split; [|split; [|split; [|split; [|split]]]].
  - rewrite Hnodes2, Hnodes1, <- !list_fmap_compose.
    apply list_fmap_ext. intros i r _. cbn. by rewrite Hg_close_id.
  - rewrite Hselect, Hpr. cbn [fmap option_fmap option_map]. f_equal.
    unfold g_pr. rewrite decide_True by done.
    unfold g_close. rewrite decide_False.
    + subst merged. by rewrite status_overlay, Hprid, Htype.
    + cbn [n_id]. rewrite Hprid. intros Hin.
      destruct (Hclosed' _ Hin) as (issue & Hfixed & Hid).
      by apply (Hother issue).
  - intros issue Hfixed. pose proof (Hother _ Hfixed) as Hne.
    rewrite Hselect, (unique_nodes_select w issue Hw) by by destruct Hfixed.
    cbn [fmap option_fmap option_map]. f_equal.
    unfold g_pr. rewrite decide_False by done.
    unfold g_close. by rewrite decide_True by by apply Hclosed.
  - intros r Hr Hne Hfree.
    rewrite Hselect, (unique_nodes_select w r Hw Hr).
    cbn [fmap option_fmap option_map]. f_equal.
    unfold g_pr. rewrite decide_False by done.
    unfold g_close. rewrite decide_False; [done|]. intros Hin.
    destruct (Hclosed' _ Hin) as (issue & Hfixed & Hid).
    assert (issue = r) as ->; [|done].
    apply (NoDup_fmap_elem_inj n_id (nodes w)); try done.
    by destruct Hfixed.
  - rewrite Hout2. subst w1 w0. cbn. by rewrite <- app_assoc.
  - done.
Qed.

End MergeFacts.

(** X17. Merging a recorded pull request on any store that keeps the
    primary key, when every issue linked to it by a [FIXED_BY] edge carries
    a [number] that can be printed: the handler returns; the pull request
    gets status ["merged"]; every such issue, however many there are, gets
    status ["closed"] and keeps its other properties, its type and its
    creation time; every other node is left as it was; no node is added or
    removed and no edge changes. *)
Theorem pr_merge_closes_every_linked_issue
    (set_order : gset string → list string) (w : world) (pr_number : Z)
    (pr : node_row) :
  let pr_id := "PullRequest:" +:+ pretty pr_number in
  unique_nodes w →
  select_node pr_id w = Some pr →
  n_type pr = "PullRequest" →
  (∀ issue, fixed_by w pr_id issue →
            ∃ v text, n_properties issue !! "number" = Some v
                      ∧ py_format v = ret text) →
  let run := handle_pr_merged set_order pr_number w in
  run.2 = Returned tt
  ∧ edges run.1 = edges w
  ∧ n_id <$> nodes run.1 = n_id <$> nodes w
  ∧ select_node pr_id run.1
    = Some (NodeRow pr_id "PullRequest"
              (<["status" := PStr "merged"]> (n_properties pr))
              (n_created_at pr) (now w))
  ∧ (∀ issue, fixed_by w pr_id issue →
              select_node (n_id issue) run.1 = Some (close_row (now w) issue))
  ∧ (∀ r, r ∈ nodes w → n_id r ≠ pr_id → ¬ fixed_by w pr_id r →
          select_node (n_id r) run.1 = Some r).
Proof.
  intros pr_id Hw Hpr Htype Hnumbers run.
  destruct (pr_merge_run set_order w pr_number pr Hw Hpr Htype Hnumbers)
    as (w2 & lines & Hrun & Hedges & Hids & Hmerged & Hclosed & Hothers & _).
  fold pr_id in Hrun, Hmerged, Hclosed, Hothers.
  destruct (prints_only_merge_report set_order pr_id pr_number w2)
    as ([] & Hret & Hnodes3 & Hedges3 & _).
  subst run. rewrite Hrun.
  assert (∀ j, select_node j (merge_report set_order pr_id pr_number w2).1
               = select_node j w2) as Hselect
    by (intros j; unfold select_node; by rewrite Hnodes3).
  split; [done|]. split; [by rewrite Hedges3|].
  split; [by rewrite Hnodes3|]. rewrite Hselect.
  split; [done|]. split.
  - intros issue Hfixed. rewrite Hselect. by apply Hclosed.
  - intros r Hr Hne Hfree. rewrite Hselect. by apply Hothers.
Qed.

Lemma pr_merge_closes_every_linked_issue_witness :
  let pr := NodeRow "PullRequest:7" "PullRequest"
              (kwargs [("status", PStr "open")]) 0 0 in
  let w :=
    World [pr;
           NodeRow "Issue:1" "Issue" (kwargs [("number", PInt 1)]) 0 0;
           NodeRow "Issue:2" "Issue"
             (kwargs [("number", PInt 2); ("status", PStr "open")]) 0 0;
           NodeRow "Issue:3" "Issue" ∅ 0 0]
          [EdgeRow 1 "Issue:1" "PullRequest:7" "FIXED_BY" ∅ 0;
           EdgeRow 2 "Issue:2" "PullRequest:7" "FIXED_BY" ∅ 0] 5 [] in
  unique_nodes w
  ∧ select_node ("PullRequest:" +:+ pretty 7) w = Some pr
  ∧ (handle_pr_merged elements 7 w).2 = Returned tt.
Proof.
  intros pr w.
  assert (unique_nodes w) as Hw by (unfold unique_nodes; compute_done).
  assert (select_node ("PullRequest:" +:+ pretty 7) w = Some pr) as Hpr
    by (vm_compute; reflexivity).
  assert (∀ issue, fixed_by w ("PullRequest:" +:+ pretty 7) issue →
                   ∃ v text, n_properties issue !! "number" = Some v
                             ∧ py_format v = ret text) as Hnumbers.
  { intros issue (Hin & Htype & e & He & _ & Hlinks).
    repeat (apply elem_of_cons in Hin as [->|Hin]).
    - discriminate.
    - by exists (PInt 1), (pretty 1).
    - by exists (PInt 2), (pretty 2).
    - exfalso. unfold links in Hlinks. cbn [n_id] in Hlinks.
      repeat (apply elem_of_cons in He as [->|He]); cbn in Hlinks.
      + destruct Hlinks as [[_ [=]]|[[=] _]].
      + destruct Hlinks as [[_ [=]]|[[=] _]].
      + by apply elem_of_nil in He.
    - by apply elem_of_nil in Hin. }
  split; [exact Hw|]. split; [exact Hpr|].
  apply (pr_merge_closes_every_linked_issue elements w 7 pr Hw Hpr eq_refl
           Hnumbers).
Defined.

Section ReportFacts.

Implicit Types (w : world).

Lemma write_line_lines line w : write_line line w = write_lines [line] w.
Proof. done. Qed.

Lemma write_lines_app lines1 lines2 w :
  write_lines lines2 (write_lines lines1 w) = write_lines (lines1 ++ lines2) w.
Proof. unfold write_lines. cbn. by rewrite <- app_assoc. Qed.

Lemma collect_skills_from (modified_docs : list related_node)
    (found : gset string) w :
  ∃ affected_skills,
    for_fold modified_docs found (λ doc affected_skills,
      let* dependents := find_dependents (r_id doc) default_max_depth in
      ret (list_to_set
             (filter (λ dep_id, String.prefix "Skill:" dep_id = true)
                     dependents)
           ∪ affected_skills)) w
    = (w, Returned affected_skills)
    ∧ ∀ skill_id,
        skill_id ∈ affected_skills
        ↔ skill_id ∈ found
          ∨ (String.prefix "Skill:" skill_id = true
             ∧ ∃ doc, doc ∈ modified_docs ∧ skill_id ≠ r_id doc
                      ∧ within_bound (edges w) default_max_depth (r_id doc)
                                     skill_id).
Proof.
  revert found. induction modified_docs as [|doc docs IH]; intros found.
  - exists found. split; [done|]. intros s. split; [by left|].
    intros [?|(_ & d & Hd & _)]; [done|]. by apply elem_of_nil in Hd.
  - cbn [for_fold].
    destruct (select_dependents_is_Some w (r_id doc) default_max_depth)
      as [dependents Hds].
    rewrite run_bind, (bind_run _ _ _ _ _ (find_dependents_run _ _ _ _ Hds)).
    rewrite run_ret.
    destruct (IH (list_to_set
                    (filter (λ dep_id, String.prefix "Skill:" dep_id = true)
                            dependents) ∪ found))
      as (affected & Hrun & Haffected).
    exists affected. split; [done|]. intros s. rewrite Haffected.
    rewrite elem_of_union, elem_of_list_to_set, list_elem_of_filter.
    rewrite (select_dependents_members _ _ _ _ Hds). split.
    + intros [[(Hp & Hne & Hin)|?]|(Hp & d & Hd & Hne & Hin)].
      * right. split; [done|]. exists doc. split; [by left|done].
      * by left.
      * right. split; [done|]. exists d. split; [by right|done].
    + intros [?|(Hp & d & [->|Hd]%elem_of_cons & Hne & Hin)].
      * left. by right.
      * left. left. done.
      * right. split; [done|]. by exists d.
Qed.

Lemma merge_report_lines (set_order : gset string → list string)
    (pr_id : string) (pr_number : Z) w :
  (∀ s x, x ∈ set_order s ↔ x ∈ s) →
  ∃ lines,
    merge_report set_order pr_id pr_number w
    = (write_lines lines w, Returned tt)
    ∧ ∀ skill_id,
        ("    • " +:+ skill_id) ∈ lines
        ↔ String.prefix "Skill:" skill_id = true
          ∧ ∃ doc, doc ∈ select_related pr_id (Some "MODIFIES") w
                   ∧ skill_id ≠ r_id doc
                   ∧ within_bound (edges w) default_max_depth (r_id doc)
                                  skill_id.
Proof.
  intros Horder. unfold merge_report, find_related. rewrite run_query.
  destruct (select_related pr_id (Some "MODIFIES") w) as [|doc docs] eqn:Hdocs.
  - rewrite run_ret.
    exists ["  ✅ PR #" +:+ pretty pr_number +:+ " merged"].
    split; [done|]. intros s. split.
    + intros Hin. apply list_elem_of_singleton in Hin. discriminate.
    + intros (_ & d & Hd & _). by apply elem_of_nil in Hd.
  - rewrite run_bind, run_print. unfold collect_skills.
    set (modified := "  📄 Modified " +:+ pretty (length (doc :: docs))
                     +:+ " documents").
    destruct (collect_skills_from (doc :: docs) ∅ (write_line modified w))
      as (affected & Hrun & Haffected).
    rewrite run_bind, (bind_run _ _ _ _ _ Hrun).
    assert (∀ s, s ∈ affected
                 ↔ String.prefix "Skill:" s = true
                   ∧ ∃ d, d ∈ doc :: docs ∧ s ≠ r_id d
                          ∧ within_bound (edges w) default_max_depth
                                         (r_id d) s) as Hskills.
    { intros s. rewrite Haffected. rewrite elem_of_empty. cbn [edges write_line].
      tauto. }
    case_bool_decide as Hnone.
    + rewrite run_ret.
      exists [modified; "  ✅ PR #" +:+ pretty pr_number +:+ " merged"].
      split.
      { unfold print. by rewrite !write_line_lines, !write_lines_app. }
      intros s. rewrite <- Hskills, Hnone. split.
      * intros [Hin|Hin]%elem_of_cons; [discriminate|].
        apply list_elem_of_singleton in Hin. discriminate.
      * intros Hin. by apply elem_of_empty in Hin.
    + rewrite run_bind, run_print.
      rewrite (bind_run _ _ _ _ _ (for_each_print _ _ _)).
      exists ([modified; "  🔄 Affected skills (should regenerate):"]
              ++ ((λ skill_id, "    • " +:+ skill_id) <$> set_order affected)
              ++ ["  ✅ PR #" +:+ pretty pr_number +:+ " merged"])%list.
      split.
      { unfold print. rewrite !write_line_lines, !write_lines_app.
        by do 2 f_equal. }
      intros s. rewrite <- Hskills, <- Horder.
      rewrite !elem_of_app, list_elem_of_fmap, list_elem_of_singleton. split.
      * intros [[Hin|Hin]%elem_of_cons|[(x & Hx & Hin)|Hin]];
          [discriminate| |by simplify_eq|discriminate].
        apply list_elem_of_singleton in Hin. discriminate.
      * intros Hin. right. left. by exists s.
Qed.

End ReportFacts.

(** X18. Merging a recorded pull request, on a store that keeps the
    primary key and in which every issue linked by [FIXED_BY] carries a
    [number] that can be printed, for any order in which a set is walked
    as long as it yields the members of the set: what the handler prints
    holds a line for a skill exactly when the id starts with [Skill:] and
    the node ends a path of one to three edges that starts at a stored node
    at an end of a [MODIFIES] edge of the pull request, that is at a
    document it modifies or at the pull request itself. *)
Theorem pr_merge_reports_dependent_skills
    (set_order : gset string → list string) (w : world) (pr_number : Z)
    (pr : node_row) :
  let pr_id := "PullRequest:" +:+ pretty pr_number in
  (∀ s x, x ∈ set_order s ↔ x ∈ s) →
  unique_nodes w →
  select_node pr_id w = Some pr →
  n_type pr = "PullRequest" →
  (∀ issue, fixed_by w pr_id issue →
            ∃ v text, n_properties issue !! "number" = Some v
                      ∧ py_format v = ret text) →
  ∃ lines,
    stdout (handle_pr_merged set_order pr_number w).1
    = (stdout w ++ lines)%list
    ∧ ∀ skill_id,
        ("    • " +:+ skill_id) ∈ lines
        ↔ String.prefix "Skill:" skill_id = true
          ∧ ∃ start, modified_by w pr_id start ∧ skill_id ≠ start
                     ∧ within_bound (edges w) default_max_depth start
                                    skill_id.
Proof.
  intros pr_id Horder Hw Hpr Htype Hnumbers.
  destruct (pr_merge_run set_order w pr_number pr Hw Hpr Htype Hnumbers)
    as (w2 & closed & Hrun & Hedges & Hids & _ & _ & _ & Hout & Hclosed).
  fold pr_id in Hrun.
  destruct (merge_report_lines set_order pr_id pr_number w2 Horder)
    as (report & Hreport & Hlines).
  exists ((("✅ Merging PR #" +:+ pretty pr_number) :: closed) ++ report)%list.
  split.
  { rewrite Hrun, Hreport. cbn. by rewrite Hout, <- app_assoc. }
  intros s. rewrite elem_of_app, Hlines, Hedges.
  assert (∀ start,
            (∃ doc, doc ∈ select_related pr_id (Some "MODIFIES") w2
                    ∧ r_id doc = start)
            ↔ modified_by w pr_id start) as Hstart.
  { intros start. unfold modified_by. rewrite <- Hids, <- Hedges. split.
    - intros (doc & Hdoc & <-).
      apply select_related_elem in Hdoc
        as (e & n & He & [Hends Hrel] & Hn & Hjoin & ->).
      cbn [related_of r_id]. split; [by apply list_elem_of_fmap_2|].
      exists e. split; [done|]. split; [|done].
      specialize (Hrel eq_refl). by simplify_eq.
    - intros [(n & -> & Hn)%list_elem_of_fmap (e & He & Hrel & Hends & Hjoin)].
      exists (related_of n). split; [|done].
      apply select_related_elem. exists e, n.
      split; [done|]. split; [|done].
      split; [done|]. intros _. by rewrite Hrel. }
  split.
  - intros [Hin|(Hp & doc & Hdoc & Hne & Hpath)].
    + exfalso. apply elem_of_cons in Hin as [Hin|Hin]; [discriminate|].
      rewrite Forall_forall in Hclosed.
      destruct (Hclosed _ Hin) as (text & Htext). discriminate.
    + split; [done|]. exists (r_id doc). split; [|done].
      apply Hstart. by exists doc.
  - intros (Hp & start & Hstart' & Hne & Hpath). right. split; [done|].
    apply Hstart in Hstart' as (doc & Hdoc & <-). by exists doc.
Qed.

Lemma pr_merge_reports_dependent_skills_witness :
  let pr := NodeRow "PullRequest:7" "PullRequest"
              (kwargs [("status", PStr "open")]) 0 0 in
  let w :=
    World [pr;
           NodeRow "Document:docs/api.md" "Document" ∅ 0 0;
           NodeRow "Skill:claude" "Skill" ∅ 0 0]
          [EdgeRow 1 "PullRequest:7" "Document:docs/api.md" "MODIFIES" ∅ 0;
           EdgeRow 2 "Document:docs/api.md" "Skill:claude" "INCLUDES" ∅ 0]
          5 [] in
  unique_nodes w
  ∧ select_node ("PullRequest:" +:+ pretty 7) w = Some pr
  ∧ ∃ lines,
      stdout (handle_pr_merged elements 7 w).1 = (stdout w ++ lines)%list
      ∧ ∀ skill_id,
          ("    • " +:+ skill_id) ∈ lines
          ↔ String.prefix "Skill:" skill_id = true
            ∧ ∃ start, modified_by w ("PullRequest:" +:+ pretty 7) start
                       ∧ skill_id ≠ start
                       ∧ within_bound (edges w) default_max_depth start
                                      skill_id.
Proof.
  intros pr w.
  assert (∀ (s : gset string) x, x ∈ elements s ↔ x ∈ s) as Horder
    by (intros s x; apply elem_of_elements).
  assert (unique_nodes w) as Hw by (unfold unique_nodes; compute_done).
  assert (select_node ("PullRequest:" +:+ pretty 7) w = Some pr) as Hpr
    by (vm_compute; reflexivity).
  assert (∀ issue, fixed_by w ("PullRequest:" +:+ pretty 7) issue →
                   ∃ v text, n_properties issue !! "number" = Some v
                             ∧ py_format v = ret text) as Hnumbers.
  { intros issue (Hin & Htype & _). exfalso.
    repeat (apply elem_of_cons in Hin as [->|Hin]); try discriminate.
    by apply elem_of_nil in Hin. }
  split; [exact Hw|]. split; [exact Hpr|].
  apply (pr_merge_reports_dependent_skills elements w 7 pr Horder Hw Hpr
           eq_refl Hnumbers).
Defined.

(** * Issue creation on any text *)

Section LoopFacts.

Implicit Types (w : world) (ss : list stmt).

Lemma upserted_concept_stmts issue_id concepts j :
  j ∈ upserted (concept_stmts issue_id concepts) ↔ j ∈ concepts.
Proof.
  unfold concept_stmts.
  rewrite elem_of_upserted_rev, elem_of_upserted_flat_map. cbn [upserted].
  split.
  - intros (c & Hc & Hj). apply list_elem_of_singleton in Hj. by subst.
  - intros Hj. exists j. split; [done|]. by left.
Qed.

Lemma linked_concept_stmts issue_id concepts k :
  k ∈ linked (concept_stmts issue_id concepts)
  ↔ ∃ concept_id, concept_id ∈ concepts
                  ∧ k = (issue_id, concept_id, "ABOUT").
Proof.
  unfold concept_stmts.
  rewrite elem_of_linked_rev, elem_of_linked_flat_map. cbn [linked].
  by setoid_rewrite list_elem_of_singleton.
Qed.

Lemma plain_concept_stmts issue_id concepts :
  Forall plain (concept_stmts issue_id concepts).
Proof. apply plain_rev_flat_map. intros c. by repeat constructor. Qed.

Lemma upserted_file_stmts issue_id files j :
  j ∈ upserted (file_stmts issue_id files)
  ↔ ∃ file_path, file_path ∈ files ∧ j = "Document:" +:+ file_path.
Proof.
  unfold file_stmts.
  rewrite elem_of_upserted_rev, elem_of_upserted_flat_map. cbn [upserted].
  by setoid_rewrite list_elem_of_singleton.
Qed.

Lemma linked_file_stmts issue_id files k :
  k ∈ linked (file_stmts issue_id files)
  ↔ ∃ file_path, file_path ∈ files
                 ∧ k = (issue_id, "Document:" +:+ file_path, "ABOUT").
Proof.
  unfold file_stmts.
  rewrite elem_of_linked_rev, elem_of_linked_flat_map. cbn [linked].
  by setoid_rewrite list_elem_of_singleton.
Qed.

Lemma plain_file_stmts issue_id files :
  Forall plain (file_stmts issue_id files).
Proof. apply plain_rev_flat_map. intros f. by repeat constructor. Qed.

(** The concept ids are ["Concept:"] and the name. *)
Lemma concept_ids_named (text concept_id : string) :
  concept_id ∈ extract_concepts_from_text text →
  split ":" concept_id !! 1%nat = Some (concept_name_of concept_id)
  ∧ "Concept" +:+ ":" +:+ concept_name_of concept_id = concept_id.
Proof.
  unfold extract_concepts_from_text. rewrite elem_of_list_to_set.
  intros ([kw c] & -> & Hin)%list_elem_of_fmap.
  apply list_elem_of_filter in Hin as [_ Hin]. unfold keywords in Hin.
  repeat (apply elem_of_cons in Hin as [[= -> ->]|Hin];
          [by vm_compute|]).
  by apply elem_of_nil in Hin.
Qed.

Lemma for_each_concepts {B} (issue_id : string) (concepts : list string)
    (k : unit → M B) ss w :
  Forall (λ concept_id,
            split ":" concept_id !! 1%nat
            = Some (concept_name_of concept_id)
            ∧ "Concept" +:+ ":" +:+ concept_name_of concept_id = concept_id)
         concepts →
  bind (for_each concepts (λ concept_id,
          let* concept_name := list_item (split ":" concept_id) 1 in
          add_node "Concept" concept_name
            (kwargs [("name", PStr concept_name)]) ;;
          add_edge issue_id concept_id "ABOUT" ∅ ;;
          print ("  ✓ Linked to concept: " +:+ concept_name))) k
       (apply_stmts ss w)
  = k tt (apply_stmts (concept_stmts issue_id concepts ++ ss) w).
Proof.
  unfold concept_stmts. intros Hnamed. revert ss.
  induction Hnamed as [|c concepts [Hname Hid] _ IH]; intros ss; [done|].
  cbn [for_each flat_map app]. rewrite run_bind, run_bind.
  unfold list_item at 1. rewrite Hname, run_ret, run_bind.
  rewrite line_add_node, run_bind, line_add_edge, line_print, IH, Hid.
  cbn [rev]. by rewrite <- !app_assoc.
Qed.

Lemma for_each_files {B} (issue_id : string) (files : list string)
    (k : unit → M B) ss w :
  bind (for_each files (λ file_path,
          add_node "Document" file_path (kwargs [("path", PStr file_path)]) ;;
          let doc_id := "Document:" +:+ file_path in
          add_edge issue_id doc_id "ABOUT" ∅ ;;
          print ("  ✓ Linked to document: " +:+ file_path))) k
       (apply_stmts ss w)
  = k tt (apply_stmts (file_stmts issue_id files ++ ss) w).
Proof.
  unfold file_stmts. revert ss.
  induction files as [|f files IH]; intros ss; [done|].
  cbn [for_each flat_map app]. rewrite run_bind, run_bind.
  rewrite line_add_node, run_bind, line_add_edge, line_print, IH.
  cbn [rev]. by rewrite <- !app_assoc.
Qed.

(** The names of well-formed labels. *)
Lemma label_names_run (issue_data : pydict) (labels names : list pyval) w :
  dict_get issue_data "labels" (PList []) = PList labels →
  Forall2 (λ label name, ∃ items, label = PDict items
                                  ∧ assoc "name" items = Some name)
          labels names →
  label_names issue_data w = (w, Returned (PList names)).
Proof.
  intros Hget Hlabels. unfold label_names. rewrite Hget. cbn [py_iter].
  rewrite run_ret. clear Hget.
  assert (comprehension labels (λ label, py_getitem label "name") w
          = (w, Returned names)) as Hnames.
  { induction Hlabels as [|label name labels names (items & -> & Hname) _ IH];
      [done|].
    cbn [comprehension py_getitem]. rewrite Hname, run_ret.
    by rewrite (bind_run _ _ _ _ _ IH). }
  by rewrite (bind_run _ _ _ _ _ Hnames).
Qed.

End LoopFacts.

(** X19. For any payload whose title is a string, whose body is a string or
    absent, whose labels are dictionaries with a [name], and that has
    [html_url] and [created_at], on any store and for any order in which a
    set is walked as long as it yields the members of the set:
    [handle_issue_created] returns; the issue is stored with status
    ["open"] and the names of its labels; the node ids that appear are the
    issue's, the concepts found in the title and body, and
    [Document:<path>] for every path found there; the edges that appear are
    one [ABOUT] edge from the issue to each of them. *)
Theorem issue_created_links_concepts_and_files
    (set_order : gset string → list string) (w : world) (issue_number : Z)
    (issue_data : pydict) (title body : string) (labels names : list pyval)
    (url created : pyval) :
  (∀ s x, x ∈ set_order s ↔ x ∈ s) →
  issue_data !! "title" = Some (PStr title) →
  dict_get issue_data "body" (PStr "") = PStr body →
  dict_get issue_data "labels" (PList []) = PList labels →
  Forall2 (λ label name, ∃ items, label = PDict items
                                  ∧ assoc "name" items = Some name)
          labels names →
  issue_data !! "html_url" = Some url →
  issue_data !! "created_at" = Some created →
  let issue_id := "Issue:" +:+ pretty issue_number in
  let text := title +:+ " " +:+ body in
  let run := handle_issue_created set_order issue_number issue_data w in
  run.2 = Returned tt
  ∧ select_node issue_id run.1
    = Some (NodeRow issue_id "Issue"
              (kwargs [("number", PInt issue_number); ("title", PStr title);
                       ("body", PStr body); ("status", PStr "open");
                       ("labels", PList names); ("url", url);
                       ("created_at", created)])
              (now w) (now w))
  ∧ (∀ id, id ∈ n_id <$> nodes run.1
           ↔ id = issue_id
             ∨ id ∈ extract_concepts_from_text text
             ∨ (∃ file_path, file_path ∈ extract_files_from_text text
                             ∧ id = "Document:" +:+ file_path)
             ∨ id ∈ n_id <$> nodes w)
  ∧ (∀ k, k ∈ edge_key <$> edges run.1
          ↔ (∃ concept_id, concept_id ∈ extract_concepts_from_text text
                           ∧ k = (issue_id, concept_id, "ABOUT"))
            ∨ (∃ file_path, file_path ∈ extract_files_from_text text
                            ∧ k = (issue_id, "Document:" +:+ file_path,
                                   "ABOUT"))
            ∨ k ∈ edge_key <$> edges w).
Proof.
  intros Horder Htitle Hbody Hlabels Hnames Hurl Hcreated issue_id text run.
  assert (run = handle_issue_created set_order issue_number issue_data
                  (apply_stmts [] w)) as Hrun by done.
  clearbody run.
  unfold handle_issue_created, title_and_body, subscript in Hrun.
  rewrite Htitle, Hurl, Hcreated, !Hbody in Hrun.
  run_statements_in Hrun.
  rewrite (bind_run _ _ _ _ _ (label_names_run _ _ _ _ Hlabels Hnames))
    in Hrun.
  run_statements_in Hrun.
  change (String.append "Issue" (String.append ":" (pretty issue_number)))
    with issue_id in Hrun.
  fold text in Hrun.
  rewrite for_each_concepts in Hrun; cycle 1.
  { apply Forall_forall. intros c Hc. apply Horder in Hc.
    by apply concept_ids_named in Hc. }
  rewrite for_each_files in Hrun. run_statements_in Hrun.
  subst run. cbn [fst snd].
  split; [done|]. split; [|split].
  - rewrite select_node_apply_stmts. cbn [node_after].
    rewrite !node_after_app_unwritten.
    + cbn [node_after now_after]. by rewrite String.eqb_refl.
    + rewrite upserted_concept_stmts. intros Hin.
      apply Horder, concept_ids_named in Hin as [_ Hid].
      subst issue_id. discriminate.
    + apply plain_concept_stmts.
    + rewrite upserted_file_stmts. intros (file_path & _ & Hid).
      subst issue_id. discriminate.
    + apply plain_file_stmts.
  - intros id. rewrite node_ids_apply_stmts. cbn [upserted].
    rewrite !upserted_app, !elem_of_app, upserted_file_stmts,
      upserted_concept_stmts. cbn [upserted].
    rewrite list_elem_of_singleton, Horder. setoid_rewrite Horder. tauto.
  - intros k. rewrite edge_keys_apply_stmts. cbn [linked].
    rewrite !linked_app, !elem_of_app, linked_file_stmts,
      linked_concept_stmts. cbn [linked].
    rewrite elem_of_nil. setoid_rewrite Horder. tauto.
Qed.

Lemma issue_created_links_concepts_and_files_witness :
  let issue_data :=
    kwargs [("title", PStr "Workflow fails with Storage API");
            ("body", PStr "see docs/api.md");
            ("labels", PList [PDict [("name", PStr "bug")]]);
            ("html_url", PStr "https://github.com/keboola/xmas/issues/5");
            ("created_at", PStr "2025-12-05T12:00:00Z")] in
  (∀ (s : gset string) x, x ∈ elements s ↔ x ∈ s)
  ∧ (handle_issue_created elements 5 issue_data (empty_world 0)).2
    = Returned tt.
Proof.
  intros issue_data.
  assert (∀ (s : gset string) x, x ∈ elements s ↔ x ∈ s) as Horder
    by (intros s x; apply elem_of_elements).
  assert (Forall2 (λ label name, ∃ items, label = PDict items
                                          ∧ assoc "name" items = Some name)
            [PDict [("name", PStr "bug")]] [PStr "bug"]) as Hnames.
  { constructor; [|constructor]. by eexists. }
  split; [exact Horder|].
  apply (issue_created_links_concepts_and_files elements (empty_world 0) 5
           issue_data "Workflow fails with Storage API" "see docs/api.md"
           [PDict [("name", PStr "bug")]] [PStr "bug"]
           (PStr "https://github.com/keboola/xmas/issues/5")
           (PStr "2025-12-05T12:00:00Z")
           Horder eq_refl eq_refl eq_refl Hnames eq_refl eq_refl).
Defined.
